(** * Helm chart inflation generator

    A shallow embedding of
    [plugin/builtin/helmchartinflationgenerator/HelmChartInflationGenerator.go]
    and the properties its specification states about it.

    Go strings and byte slices are sequences of bytes: both are [string]
    here, whose characters are the 8-bit [ascii].  The methods of [*plugin]
    mutate their receiver and the machine around it (the disk, the helm
    subprocess); they are functions in a small state monad over the plugin
    record and a [world]. *)

From Stdlib Require Import String Ascii List Bool Arith Lia.
Import ListNotations.

Set Implicit Arguments.
Set Warnings "-register-all".
Open Scope list_scope.
Open Scope string_scope.

Definition bytes := string.

(** ** The Go [strings] package, as far as the plugin uses it *)

Module strings.

(** [strings.Join(elems, sep)]. *)
Definition Join (elems : list string) (sep : string) : string :=
  String.concat sep elems.

(** [strings.HasPrefix(s, prefix)]. *)
Definition HasPrefix (s pre : string) : bool := String.prefix pre s.

Fixpoint rev_string (s : string) : string :=
  match s with
  | EmptyString => EmptyString
  | String c r => rev_string r ++ String c EmptyString
  end.

(** [dropPrefix pre s] is [Some r] when [s = pre ++ r]. *)
Fixpoint dropPrefix (pre s : string) : option string :=
  match pre, s with
  | EmptyString, _ => Some s
  | String a pre', String b s' =>
      if Ascii.eqb a b then dropPrefix pre' s' else None
  | String _ _, EmptyString => None
  end.

(** [strings.TrimSuffix(s, suffix)]: [s] without the trailing [suffix],
    or [s] itself when it does not end with it. *)
Definition TrimSuffix (s suf : string) : string :=
  match dropPrefix (rev_string suf) (rev_string s) with
  | Some r => rev_string r
  | None => s
  end.

(** [strings.Split(s, sep)] for a one-byte separator: the pieces of [s]
    between the occurrences of [sep]; never the empty list. *)
Fixpoint Split (s : string) (sep : ascii) : list string :=
  match s with
  | EmptyString => [EmptyString]
  | String c r =>
      if Ascii.eqb c sep then EmptyString :: Split r sep
      else match Split r sep with
           | x :: xs => String c x :: xs
           | [] => [String c EmptyString]
           end
  end.

(** [slices.Contains(args, x)]. *)
Definition Contains (l : list string) (x : string) : bool :=
  existsb (String.eqb x) l.

End strings.

(** ** The Go [path/filepath] package on a Unix system *)

Module filepath.

Definition Separator : ascii := "/"%char.

(** [filepath.IsAbs]: on Unix, a path is absolute when it starts with
    a slash. *)
Definition IsAbs (path : string) : bool := strings.HasPrefix path "/".

(** One element of the path meets the stack of the elements kept so far
    (the last kept element first).  Empty and [.] elements are dropped;
    [..] removes the element before it, is dropped at the root, and is
    kept at the start of a relative path. *)
Definition cleanStep (rooted : bool) (st : list string) (c : string)
  : list string :=
  if (c =? "")%string || (c =? ".")%string then st
  else if (c =? "..")%string then
    match st with
    | top :: rest => if (top =? "..")%string then c :: st else rest
    | [] => if rooted then [] else [c]
    end
  else c :: st.

(** [filepath.Clean]: the shortest path equivalent to [path] by purely
    lexical processing. *)
Definition Clean (path : string) : string :=
  if (path =? "")%string then "."
  else
    let rooted := IsAbs path in
    let kept := fold_left (cleanStep rooted) (strings.Split path Separator) [] in
    let body := strings.Join (rev kept) "/" in
    if rooted then "/" ++ body
    else if (body =? "")%string then "." else body.

Fixpoint dropEmpty (elem : list string) : list string :=
  match elem with
  | e :: rest => if (e =? "")%string then dropEmpty rest else elem
  | [] => []
  end.

(** [filepath.Join]: the elements from the first non-empty one on, joined
    by the separator and cleaned; the empty string when there is none. *)
Definition Join (elem : list string) : string :=
  match dropEmpty elem with
  | [] => ""
  | rest => Clean (strings.Join rest "/")
  end.

(** [path[:i+1]] for the index [i] of the last separator of [path]:
    empty when the path has no separator. *)
Fixpoint upToLastSeparator (path : string) : string :=
  match path with
  | EmptyString => EmptyString
  | String c r =>
      match upToLastSeparator r with
      | EmptyString =>
          if Ascii.eqb c Separator then String c EmptyString else EmptyString
      | d => String c d
      end
  end.

(** [filepath.Dir]: all but the last element of the path, cleaned. *)
Definition Dir (path : string) : string := Clean (upToLastSeparator path).

End filepath.

(** ** The Go [regexp] package on the one pattern the plugin compiles

    [checkHelmVersion] compiles [v?\d+(\.\d+)+] and asks for the leftmost
    match.  Every repetition of the pattern is greedy and each is followed
    by a character it cannot itself match, so the match that starts at a
    given position is the longest one that starts there. *)

Module regexp.

Definition isDigit (c : ascii) : bool :=
  let n := nat_of_ascii c in Nat.leb 48 n && Nat.leb n 57.

(** The longest prefix of [s] of the shape [\d+(\.\d+)*]. *)
Fixpoint numbers (s : string) : option string :=
  match s with
  | EmptyString => None
  | String c r =>
      if isDigit c then
        match numbers r with
        | Some t => Some (String c t)
        | None =>
            match r with
            | String d r' =>
                if Ascii.eqb d "."%char then
                  match numbers r' with
                  | Some t => Some (String c (String d t))
                  | None => Some (String c EmptyString)
                  end
                else Some (String c EmptyString)
            | EmptyString => Some (String c EmptyString)
            end
        end
      else None
  end.

Fixpoint hasDot (s : string) : bool :=
  match s with
  | EmptyString => false
  | String c r => Ascii.eqb c "."%char || hasDot r
  end.

(** The match of [\d+(\.\d+)+] at the start of [s]. *)
Definition dotted (s : string) : option string :=
  match numbers s with
  | Some t => if hasDot t then Some t else None
  | None => None
  end.

(** The match of [v?\d+(\.\d+)+] at the start of [s]: with the [v]
    first, without it otherwise. *)
Definition matchHere (s : string) : option string :=
  match s with
  | String c r =>
      if Ascii.eqb c "v"%char then
        match dotted r with
        | Some t => Some (String c t)
        | None => dotted s
        end
      else dotted s
  | EmptyString => dotted s
  end.

(** [regexp.MustCompile(`v?\d+(\.\d+)+`).FindString(s)]: the leftmost
    match, the empty string when there is none. *)
Fixpoint FindString (s : string) : string :=
  match matchHere s with
  | Some t => t
  | None =>
      match s with
      | String _ r => FindString r
      | EmptyString => EmptyString
      end
  end.

End regexp.

(** ** Errors and fallible results

    A Go [error] is a message, possibly wrapped around the error that caused
    it: [fmt.Errorf] with [%w] and [errors.WrapPrefixf] both keep their
    cause. *)

Inductive error : Type :=
| Errorf (msg : string)
| Wrap (msg : string) (cause : error).

(** [wraps e cause]: unwrapping [e] one or more times reaches [cause]. *)
Fixpoint wraps (e cause : error) : Prop :=
  match e with
  | Errorf _ => False
  | Wrap _ c => c = cause \/ wraps c cause
  end.

(** The result of a Go call that returns [(T, error)] with a [nil] error
    on success. *)
Inductive result (A : Type) : Type :=
| Ok (a : A)
| Err (e : error).
Arguments Ok {A} a.
Arguments Err {A} e.

(** [errors.WrapPrefixf(err, msg)] of [kyaml/errors]: [nil] stays [nil]
    (line 265 returns it on the success path). *)
Definition WrapPrefixf (err : option error) (msg : string) : option error :=
  match err with
  | Some e => Some (Wrap msg e)
  | None => None
  end.

(** ** YAML trees *)

Module kyaml.

(** Modelled from the spec: the tree behind a [*kyaml.RNode] of
    [kyaml/yaml], whose source is not part of the files under study, and
    also the value tree of a decoded [map[string]interface{}].  Section 9:
    a tagged-variant tree of maps, sequences and scalars. *)
Inductive RNode : Type :=
| Scalar (s : string)
| Sequence (elems : list RNode)
| Mapping (fields : list (string * RNode)).

(** The value of the first field named [k]. *)
Fixpoint lookup (k : string) (fields : list (string * RNode)) : option RNode :=
  match fields with
  | [] => None
  | (k', v) :: rest => if (k =? k')%string then Some v else lookup k rest
  end.



(** Modelled from the spec: [kyaml.FromMap], the inline values in
    structured tree form (section 4.3): a decoded map as a mapping node. *)
Definition FromMap (m : list (string * RNode)) : result RNode :=
  Ok (Mapping m).

(** Modelled from the spec: [RNode.Map], the merged structure back as
    in-memory values (section 4.3): the fields of a mapping node; an error
    for a node that is not a mapping. *)
Definition Map (n : RNode) : result (list (string * RNode)) :=
  match n with
  | Mapping fields => Ok fields
  | _ => Err (Errorf "node is not a mapping")
  end.

(** Modelled from the spec: [RNode.Copy], the defensive copy of section
    4.3; values are immutable here. *)
Definition Copy (n : RNode) : RNode := n.

End kyaml.
Import kyaml.

Module merge2.

(** Modelled from the spec: [merge2.Merge] of [kyaml/yaml/merge2], whose
    source is not part of the files under study.  Section 4.3: the merge
    is structural over a tree of maps, sequences and scalars; conflicting
    scalar leaves resolve by precedence; map against map and sequence
    against sequence merge recursively; a type mismatch at a node resolves
    by precedence like a scalar conflict.  The source (line 229) fixes
    the direction: values in [dest] are overridden with values from
    [src].  Fields present on one side only are kept.  The spec does not
    say how the elements of two sequences are paired: they are paired by
    position here, and no theorem below depends on it. *)
Fixpoint Merge (src dest : RNode) {struct dest} : RNode :=
  match dest with
  | Mapping fd =>
      match src with
      | Mapping fs =>
          Mapping
            (map (fun kv : string * RNode =>
                    let (k, vd) := kv in
                    (k, match lookup k fs with
                        | Some vs => Merge vs vd
                        | None => vd
                        end)) fd
             ++ filter (fun kv : string * RNode =>
                          match lookup (fst kv) fd with
                          | Some _ => false
                          | None => true
                          end) fs)
      | _ => src
      end
  | Sequence ld =>
      match src with
      | Sequence ls =>
          Sequence
            ((fix elems (ld ls : list RNode) {struct ld} : list RNode :=
                match ld, ls with
                | d :: ld', s :: ls' => Merge s d :: elems ld' ls'
                | [], _ => ls
                | _, [] => ld
                end) ld ls)
      | _ => src
      end
  | Scalar _ => src
  end.

End merge2.

(** ** The machine around the plugin *)

(** What a path of the real file system holds. *)
Inductive node : Type :=
| Directory
| File (content : bytes).

Definition filesystem := string -> option node.

Module os.

(** [os.Stat]: the node at [path], an error when there is none. *)
Definition Stat (path : string) (fs : filesystem) : result node :=
  match fs path with
  | Some n => Ok n
  | None => Err (Errorf ("stat " ++ path ++ ": no such file or directory"))
  end.

Definition IsDir (n : node) : bool :=
  match n with Directory => true | File _ => false end.

Definition put (path : string) (n : node) (fs : filesystem) : filesystem :=
  fun q => if (q =? path)%string then Some n else fs q.

(** [os.WriteFile]: creates or truncates the file in an existing
    directory. *)
Definition WriteFile (path : string) (b : bytes) (fs : filesystem)
  : option error * filesystem :=
  match fs (filepath.Dir path) with
  | Some Directory =>
      match fs path with
      | Some Directory =>
          (Some (Errorf ("open " ++ path ++ ": is a directory")), fs)
      | _ => (None, put path (File b) fs)
      end
  | _ => (Some (Errorf ("open " ++ path ++ ": no such file or directory")), fs)
  end.

(** [q] is [dir] or lies below it. *)
Definition within (dir q : string) : bool :=
  (q =? dir)%string || String.prefix (dir ++ "/") q.

(** [os.RemoveAll]: removes [dir] and everything below it. *)
Definition RemoveAll (dir : string) (fs : filesystem) : filesystem :=
  fun q => if within dir q then None else fs q.

End os.

(** What the plugin did to the machine, the latest event first. *)
Inductive event : Type :=
| EvExec (command : string) (args env : list string)
| EvLoad (path : string) (loaded : result bytes)
| EvMkdirTemp (dir : string)
| EvWriteFile (path : string) (content : bytes)
| EvRemoveAll (dir : string).

Record world : Type := {
  disk : filesystem;
  trace : list event;
  (** how many random names the process has drawn *)
  drawn : nat
}.

Definition emit (e : event) (w : world) : world :=
  {| disk := disk w; trace := e :: trace w; drawn := drawn w |}.

Definition onDisk (f : filesystem -> filesystem) (w : world) : world :=
  {| disk := f (disk w); trace := trace w; drawn := drawn w |}.

(** ** The [types] package, as far as the plugin reads it *)

(** Modelled from the spec: [types.HelmDefaultHome], a constant of
    [api/types], whose source is not part of the files under study.
    Section 6: the chart home directory defaults to [charts]. *)
Definition HelmDefaultHome : string := "charts".

Module HelmConfig.
(** [types.HelmConfig]: the process-wide helm settings. *)
Record t : Type := {
  Enabled : bool;
  Command : string;
  ApiVersions : list string;
  KubeVersion : string;
  Debug : bool
}.
End HelmConfig.

(** [types.PluginConfig]. *)
Record PluginConfig : Type := { helmConfig : HelmConfig.t }.

(** [ifc.Loader], as section 6 has it: [load(path) -> bytes | error] and
    [root() -> path].  It reads from the disk. *)
Record Loader : Type := {
  Root : string;
  Load : filesystem -> string -> result bytes
}.

(** Modelled from the spec: the resource collection of [api/resmap], whose
    source is not part of the files under study.  Section 3: an ordered
    sequence of structured configuration documents. *)
Definition ResMap := list RNode.

(** [resmap.Factory], as section 6 has it: [fromBytes] and
    [fromNodeSequence]. *)
Record ResmapFactory : Type := {
  NewResMapFromBytes : bytes -> result ResMap;
  NewResMapFromRNodeSlice : list RNode -> result ResMap
}.

(** [resmap.PluginHelpers]; a [nil] general config is [None]. *)
Record PluginHelpers : Type := {
  GeneralConfig : option PluginConfig;
  getLoader : Loader;
  getResmapFactory : ResmapFactory
}.

(** ** The plugin *)

(** The [plugin] struct: the fields of the embedded [types.HelmGlobals] and
    [types.HelmChart] that this file reads or writes, and [tmpDir].  The
    helpers [p.h] are the [h] that [Config] received. *)
Record plugin : Type := {
  (* types.HelmGlobals *)
  ChartHome : string;
  ConfigHome : string;
  (* types.HelmChart *)
  Name : string;
  Version : string;
  Repo : string;
  ValuesFile : string;
  ValuesInline : list (string * RNode);
  ValuesMerge : string;
  AdditionalValuesFiles : list string;
  ApiVersions : list string;
  KubeVersion : string;
  Debug : bool;
  (* plugin *)
  tmpDir : string
}.

(** The zero value of the struct. *)
Definition zeroPlugin : plugin :=
  {| ChartHome := ""; ConfigHome := ""; Name := ""; Version := ""; Repo := "";
     ValuesFile := ""; ValuesInline := []; ValuesMerge := "";
     AdditionalValuesFiles := []; ApiVersions := []; KubeVersion := "";
     Debug := false; tmpDir := "" |}.

Definition setChartHome (v : string) (p : plugin) : plugin :=
  {| ChartHome := v; ConfigHome := ConfigHome p; Name := Name p;
     Version := Version p; Repo := Repo p; ValuesFile := ValuesFile p;
     ValuesInline := ValuesInline p; ValuesMerge := ValuesMerge p;
     AdditionalValuesFiles := AdditionalValuesFiles p;
     ApiVersions := ApiVersions p; KubeVersion := KubeVersion p;
     Debug := Debug p; tmpDir := tmpDir p |}.

Definition setConfigHome (v : string) (p : plugin) : plugin :=
  {| ChartHome := ChartHome p; ConfigHome := v; Name := Name p;
     Version := Version p; Repo := Repo p; ValuesFile := ValuesFile p;
     ValuesInline := ValuesInline p; ValuesMerge := ValuesMerge p;
     AdditionalValuesFiles := AdditionalValuesFiles p;
     ApiVersions := ApiVersions p; KubeVersion := KubeVersion p;
     Debug := Debug p; tmpDir := tmpDir p |}.

Definition setValuesFile (v : string) (p : plugin) : plugin :=
  {| ChartHome := ChartHome p; ConfigHome := ConfigHome p; Name := Name p;
     Version := Version p; Repo := Repo p; ValuesFile := v;
     ValuesInline := ValuesInline p; ValuesMerge := ValuesMerge p;
     AdditionalValuesFiles := AdditionalValuesFiles p;
     ApiVersions := ApiVersions p; KubeVersion := KubeVersion p;
     Debug := Debug p; tmpDir := tmpDir p |}.

Definition setValuesInline (v : list (string * RNode)) (p : plugin) : plugin :=
  {| ChartHome := ChartHome p; ConfigHome := ConfigHome p; Name := Name p;
     Version := Version p; Repo := Repo p; ValuesFile := ValuesFile p;
     ValuesInline := v; ValuesMerge := ValuesMerge p;
     AdditionalValuesFiles := AdditionalValuesFiles p;
     ApiVersions := ApiVersions p; KubeVersion := KubeVersion p;
     Debug := Debug p; tmpDir := tmpDir p |}.

Definition setValuesMerge (v : string) (p : plugin) : plugin :=
  {| ChartHome := ChartHome p; ConfigHome := ConfigHome p; Name := Name p;
     Version := Version p; Repo := Repo p; ValuesFile := ValuesFile p;
     ValuesInline := ValuesInline p; ValuesMerge := v;
     AdditionalValuesFiles := AdditionalValuesFiles p;
     ApiVersions := ApiVersions p; KubeVersion := KubeVersion p;
     Debug := Debug p; tmpDir := tmpDir p |}.

Definition setAdditionalValuesFiles (v : list string) (p : plugin) : plugin :=
  {| ChartHome := ChartHome p; ConfigHome := ConfigHome p; Name := Name p;
     Version := Version p; Repo := Repo p; ValuesFile := ValuesFile p;
     ValuesInline := ValuesInline p; ValuesMerge := ValuesMerge p;
     AdditionalValuesFiles := v;
     ApiVersions := ApiVersions p; KubeVersion := KubeVersion p;
     Debug := Debug p; tmpDir := tmpDir p |}.

Definition setApiVersions (v : list string) (p : plugin) : plugin :=
  {| ChartHome := ChartHome p; ConfigHome := ConfigHome p; Name := Name p;
     Version := Version p; Repo := Repo p; ValuesFile := ValuesFile p;
     ValuesInline := ValuesInline p; ValuesMerge := ValuesMerge p;
     AdditionalValuesFiles := AdditionalValuesFiles p;
     ApiVersions := v; KubeVersion := KubeVersion p;
     Debug := Debug p; tmpDir := tmpDir p |}.

Definition setKubeVersion (v : string) (p : plugin) : plugin :=
  {| ChartHome := ChartHome p; ConfigHome := ConfigHome p; Name := Name p;
     Version := Version p; Repo := Repo p; ValuesFile := ValuesFile p;
     ValuesInline := ValuesInline p; ValuesMerge := ValuesMerge p;
     AdditionalValuesFiles := AdditionalValuesFiles p;
     ApiVersions := ApiVersions p; KubeVersion := v;
     Debug := Debug p; tmpDir := tmpDir p |}.

Definition setDebug (v : bool) (p : plugin) : plugin :=
  {| ChartHome := ChartHome p; ConfigHome := ConfigHome p; Name := Name p;
     Version := Version p; Repo := Repo p; ValuesFile := ValuesFile p;
     ValuesInline := ValuesInline p; ValuesMerge := ValuesMerge p;
     AdditionalValuesFiles := AdditionalValuesFiles p;
     ApiVersions := ApiVersions p; KubeVersion := KubeVersion p;
     Debug := v; tmpDir := tmpDir p |}.

Definition setTmpDir (v : string) (p : plugin) : plugin :=
  {| ChartHome := ChartHome p; ConfigHome := ConfigHome p; Name := Name p;
     Version := Version p; Repo := Repo p; ValuesFile := ValuesFile p;
     ValuesInline := ValuesInline p; ValuesMerge := ValuesMerge p;
     AdditionalValuesFiles := AdditionalValuesFiles p;
     ApiVersions := ApiVersions p; KubeVersion := KubeVersion p;
     Debug := Debug p; tmpDir := v |}.

(** The fields that a configuration document gives: [None] for a key the
    document does not have. *)
Record Payload : Type := {
  yChartHome : option string;
  yConfigHome : option string;
  yName : option string;
  yVersion : option string;
  yRepo : option string;
  yValuesFile : option string;
  yValuesInline : option (list (string * RNode));
  yValuesMerge : option string;
  yAdditionalValuesFiles : option (list string);
  yApiVersions : option (list string);
  yKubeVersion : option string;
  yDebug : option bool
}.

Definition orKeep {A : Type} (given : option A) (current : A) : A :=
  match given with
  | Some v => v
  | None => current
  end.

(** Decoding into an existing map keeps the entries the document does not
    name. *)
Definition intoMap (given : option (list (string * RNode)))
  (current : list (string * RNode)) : list (string * RNode) :=
  match given with
  | Some m =>
      m ++ filter (fun kv : string * RNode =>
                     match lookup (fst kv) m with
                     | Some _ => false
                     | None => true
                     end) current
  | None => current
  end.

(** What [encoding/json] does when it decodes a document into a struct
    that already holds values: a field whose key is in the document takes
    the document's value, every other field keeps its own.  The unexported
    [h] and [tmpDir] are never touched. *)
Definition decodeInto (y : Payload) (p : plugin) : plugin :=
  {| ChartHome := orKeep (yChartHome y) (ChartHome p);
     ConfigHome := orKeep (yConfigHome y) (ConfigHome p);
     Name := orKeep (yName y) (Name p);
     Version := orKeep (yVersion y) (Version p);
     Repo := orKeep (yRepo y) (Repo p);
     ValuesFile := orKeep (yValuesFile y) (ValuesFile p);
     ValuesInline := intoMap (yValuesInline y) (ValuesInline p);
     ValuesMerge := orKeep (yValuesMerge y) (ValuesMerge p);
     AdditionalValuesFiles :=
       orKeep (yAdditionalValuesFiles y) (AdditionalValuesFiles p);
     ApiVersions := orKeep (yApiVersions y) (ApiVersions p);
     KubeVersion := orKeep (yKubeVersion y) (KubeVersion p);
     Debug := orKeep (yDebug y) (Debug p);
     tmpDir := tmpDir p |}.

(** What the plugin calls and this file does not define: the operating
    system, the YAML libraries, and the argument builder of
    [types.HelmChart]. *)
Record Externals : Type := {
  (** [exec.Command(name, args...)] run with the given additions to the
      environment: its standard output, its standard error, its error, and
      what it leaves on the disk. *)
  execRun : string -> list string -> list string -> filesystem ->
            (bytes * string * option error) * filesystem;
  (** [os.TempDir()] and the random part of the n-th temporary name. *)
  TempDir : string;
  nextRandom : nat -> string;
  (** The keys and values of a configuration document, as [yaml.Unmarshal]
      reads them. *)
  yamlDecode : bytes -> result Payload;
  (** [yaml.Marshal]. *)
  yamlMarshal : list (string * RNode) -> result bytes;
  (** [kyaml.Parse]. *)
  kyamlParse : string -> result RNode;
  (** [(&kio.ByteReader{...}).Read()] on the given text. *)
  byteReaderRead : bytes -> result (list RNode);
  (** [HelmChart.AsHelmArgs]. *)
  AsHelmArgs : plugin -> string -> list string
}.

(** ** The monad of the methods

    A method call ends by returning or by panicking; either way it leaves
    a plugin and a world behind. *)

Inductive outcome (A : Type) : Type :=
| Returns (a : A)
| Panics (why : string).
Arguments Returns {A} a.
Arguments Panics {A} why.

Definition M (A : Type) : Type := plugin -> world -> outcome A * plugin * world.

Definition ret {A : Type} (a : A) : M A := fun p w => (Returns a, p, w).

Definition bind {A B : Type} (m : M A) (f : A -> M B) : M B :=
  fun p w =>
    match m p w with
    | (Returns a, p', w') => f a p' w'
    | (Panics why, p', w') => (Panics why, p', w')
    end.

Notation "x <- m ;; k" := (bind m (fun x => k))
  (at level 61, m at next level, right associativity).
Notation "m ;;; k" := (bind m (fun _ => k))
  (at level 61, right associativity).

Definition panic {A : Type} (why : string) : M A := fun p w => (Panics why, p, w).

(** The receiver [p]. *)
Definition self : M plugin := fun p w => (Returns p, p, w).

(** An assignment to fields of the receiver. *)
Definition assign (f : plugin -> plugin) : M unit := fun p w => (Returns tt, f p, w).

Definition getWorld : M world := fun p w => (Returns w, p, w).

Definition act (f : world -> world) : M unit := fun p w => (Returns tt, p, f w).

(** [defer cleanup; body]: the deferred call runs when the body returns
    and when it panics. *)
Definition defer {A : Type} (cleanup : M unit) (body : M A) : M A :=
  fun p w =>
    match body p w with
    | (r, p1, w1) =>
        match cleanup p1 w1 with
        | (_, p2, w2) => (r, p2, w2)
        end
    end.

Definition newline : string := String (ascii_of_nat 10) EmptyString.

(** [fmt.Sprintf("%s", l)] and [fmt.Sprintf("%v", l)] of a string slice. *)
Definition fmtSlice (l : list string) : string := "[" ++ strings.Join l " " ++ "]".

(** ** The methods of the plugin *)

Definition valuesMergeOptionMerge : string := "merge".
Definition valuesMergeOptionOverride : string := "override".
Definition valuesMergeOptionReplace : string := "replace".

Definition legalMergeOptions : list string :=
  [valuesMergeOptionMerge; valuesMergeOptionOverride; valuesMergeOptionReplace].

Section Methods.

Variable X : Externals.
(** The helpers [p.h]. *)
Variable h : PluginHelpers.

(** [p.h.Loader().Load(path)]. *)
Definition load (path : string) : M (result bytes) :=
  fun p w =>
    let r := Load (getLoader h) (disk w) path in
    (Returns r, p, emit (EvLoad path r) w).

(** [os.MkdirTemp("", pattern)]: a new directory with a random name
    below the temporary directory.  A clash of names is an error (the
    retries of the library are not modelled). *)
Definition MkdirTemp (pattern : string) : M (result string) :=
  fun p w =>
    let name := TempDir X ++ "/" ++ pattern ++ nextRandom X (drawn w) in
    match disk w name with
    | Some _ =>
        (Returns (Err (Errorf ("mkdir " ++ name ++ ": file exists"))), p,
         {| disk := disk w; trace := trace w; drawn := S (drawn w) |})
    | None =>
        (Returns (Ok name), p,
         {| disk := os.put name Directory (disk w);
            trace := EvMkdirTemp name :: trace w;
            drawn := S (drawn w) |})
    end.

(** [os.WriteFile(path, b, 0644)]. *)
Definition WriteFile (path : string) (b : bytes) : M (option error) :=
  fun p w =>
    match os.WriteFile path b (disk w) with
    | (None, fs) =>
        (Returns None, p,
         {| disk := fs; trace := EvWriteFile path b :: trace w;
            drawn := drawn w |})
    | (Some e, _) => (Returns (Some e), p, w)
    end.

(** Lines 88-95. *)
Definition establishTmpDir : M (option error) :=
  p <- self ;;
  if negb (tmpDir p =? "") then ret None
  else
    r <- MkdirTemp "kustomize-helm-" ;;
    match r with
    | Ok dir => assign (setTmpDir dir) ;;; ret None
    | Err e => assign (setTmpDir "") ;;; ret (Some e)
    end.

(** Lines 140-152. *)
Definition errIfIllegalValuesMerge : M (option error) :=
  p <- self ;;
  if (ValuesMerge p =? "")%string then
    assign (setValuesMerge valuesMergeOptionOverride) ;;; ret None
  else if existsb (String.eqb (ValuesMerge p)) legalMergeOptions then ret None
  else ret (Some (Errorf ("valuesMerge must be one of "
                          ++ fmtSlice legalMergeOptions))).

(** Lines 154-166. *)
Definition absChartHome (p : plugin) : string :=
  let chartHome :=
    if filepath.IsAbs (ChartHome p) then ChartHome p
    else filepath.Join [Root (getLoader h); ChartHome p] in
  if negb (Version p =? "") then
    filepath.Join [chartHome; Name p ++ "-" ++ Version p]
  else chartHome.

(** The loop of lines 116-123 over the files from index [i] on: the
    slice as the loop leaves it, and the error it returns with. *)
Fixpoint loadAdditionalValuesFiles (files : list string)
  : M (list string * option error) :=
  match files with
  | [] => ret ([], None)
  | file :: rest =>
      r <- load file ;;
      match r with
      | Err e =>
          ret (files, WrapPrefixf (Some e) "could not load additionalValuesFile")
      | Ok _ =>
          out <- loadAdditionalValuesFiles rest ;;
          ret (filepath.Join [Root (getLoader h); file] :: fst out, snd out)
      end
  end.

(** Lines 97-138. *)
Definition validateArgs : M (option error) :=
  p <- self ;;
  if (Name p =? "")%string then ret (Some (Errorf "chart name cannot be empty"))
  else
    (if (ChartHome p =? "")%string then assign (setChartHome HelmDefaultHome)
     else ret tt) ;;;
    p <- self ;;
    (if (ValuesFile p =? "")%string then
       assign (setValuesFile
                 (filepath.Join [absChartHome p; Name p; "values.yaml"]))
     else ret tt) ;;;
    p <- self ;;
    out <- loadAdditionalValuesFiles (AdditionalValuesFiles p) ;;
    assign (setAdditionalValuesFiles (fst out)) ;;;
    match snd out with
    | Some e => ret (Some e)
    | None =>
        err <- errIfIllegalValuesMerge ;;
        match err with
        | Some e => ret (Some e)
        | None =>
            p <- self ;;
            if (ConfigHome p =? "")%string then
              err <- establishTmpDir ;;
              match err with
              | Some e =>
                  ret (WrapPrefixf (Some e)
                         "unable to create tmp dir for HELM_CONFIG_HOME")
              | None =>
                  p <- self ;;
                  assign (setConfigHome (filepath.Join [tmpDir p; "helm"])) ;;;
                  ret None
              end
            else ret None
        end
    end.

(** [yaml.Unmarshal(config, p)]. *)
Definition Unmarshal (config : bytes) : M (option error) :=
  match yamlDecode X config with
  | Err e => ret (Some e)
  | Ok y => assign (decodeInto y) ;;; ret None
  end.

(** Lines 53-81; [h] is the first argument, kept as [p.h]. *)
Definition Config (config : bytes) : M (option error) :=
  match GeneralConfig h with
  | None => ret (Some (Errorf "unable to access general config"))
  | Some gc =>
      let hc := helmConfig gc in
      if negb (HelmConfig.Enabled hc) then
        ret (Some (Errorf "must specify --enable-helm"))
      else if (HelmConfig.Command hc =? "")%string then
        ret (Some (Errorf "must specify --helm-command"))
      else
        (* CLI args takes precedence *)
        (if negb (HelmConfig.KubeVersion hc =? "") then
           assign (setKubeVersion (HelmConfig.KubeVersion hc))
         else ret tt) ;;;
        (if negb (Nat.eqb (length (HelmConfig.ApiVersions hc)) 0) then
           assign (setApiVersions (HelmConfig.ApiVersions hc))
         else ret tt) ;;;
        (if HelmConfig.Debug hc then assign (setDebug (HelmConfig.Debug hc))
         else ret tt) ;;;
        err <- Unmarshal config ;;
        match err with
        | Some e => ret (Some e)
        | None => validateArgs
        end
  end.

(** The [env] of lines 175-178. *)
Definition helmEnv (p : plugin) : list string :=
  ["HELM_CONFIG_HOME=" ++ ConfigHome p;
   "HELM_CACHE_HOME=" ++ ConfigHome p ++ "/.cache";
   "HELM_DATA_HOME=" ++ ConfigHome p ++ "/.data"].

(** Lines 168-195.  The general config of [p.h] is dereferenced without
    a check. *)
Definition runHelmCommand (args : list string) : M (bytes * option error) :=
  fun p w =>
    match GeneralConfig h with
    | None => (Panics "invalid memory address or nil pointer dereference", p, w)
    | Some gc =>
        let helm := HelmConfig.Command (helmConfig gc) in
        let env := helmEnv p in
        match execRun X helm args env (disk w) with
        | ((stdout, stderr, err), fs) =>
            let errorOutput :=
              if strings.Contains args "--debug" then
                " Helm stack trace:" ++ newline ++ stderr ++ newline
                ++ "Helm template:" ++ newline ++ stdout ++ newline
              else stderr in
            let err' :=
              match err with
              | Some e =>
                  WrapPrefixf
                    (Some (Wrap ("unable to run: '" ++ helm ++ " "
                                 ++ strings.Join args " " ++ "' with env="
                                 ++ fmtSlice env ++ " (is '" ++ helm
                                 ++ "' installed?)") e))
                    errorOutput
              | None => None
              end in
            (Returns (stdout, err'), p,
             {| disk := fs; trace := EvExec helm args env :: trace w;
                drawn := drawn w |})
        end
    end.

(** Lines 259-266. *)
Definition writeValuesBytes (b : bytes) : M (string * option error) :=
  err <- establishTmpDir ;;
  match err with
  | Some _ =>
      ret ("", Some (Errorf "cannot create tmp dir to write helm values"))
  | None =>
      p <- self ;;
      let path := filepath.Join [tmpDir p; Name p ++ "-kustomize-values.yaml"] in
      werr <- WriteFile path b ;;
      ret (path, WrapPrefixf werr "failed to write values file")
  end.

(** Lines 250-256. *)
Definition copyValuesFile : M (string * option error) :=
  p <- self ;;
  r <- load (ValuesFile p) ;;
  match r with
  | Err e => ret ("", Some e)
  | Ok b => writeValuesBytes b
  end.

(** [outValues.Map()] on the pointer the switch of line 228 leaves: a
    [nil] node, which no caller produces, has no fields. *)
Definition mapOf (outValues : option RNode) : result (list (string * RNode)) :=
  match outValues with
  | Some n => kyaml.Map n
  | None => Ok []
  end.

(** Lines 214-247. *)
Definition replaceValuesInline : M (option error) :=
  p <- self ;;
  r <- load (ValuesFile p) ;;
  match r with
  | Err e => ret (Some e)
  | Ok pValues =>
      match kyamlParse X pValues with
      | Err e => ret (WrapPrefixf (Some e) "could not parse values file into rnode")
      | Ok chValues =>
          match kyaml.FromMap (ValuesInline p) with
          | Err e =>
              ret (WrapPrefixf (Some e) "could not parse values inline into rnode")
          | Ok inlineValues =>
              let outValues :=
                if (ValuesMerge p =? valuesMergeOptionOverride)%string then
                  Some (merge2.Merge inlineValues (kyaml.Copy chValues))
                else if (ValuesMerge p =? valuesMergeOptionMerge)%string then
                  Some (merge2.Merge chValues (kyaml.Copy inlineValues))
                else None in
              match mapOf outValues with
              | Err e =>
                  ret (WrapPrefixf (Some e)
                         "could not parse merged values into map")
              | Ok mapValues =>
                  assign (setValuesInline mapValues) ;;; ret None
              end
          end
      end
  end.

(** Lines 198-212. *)
Definition createNewMergedValuesFile : M (string * option error) :=
  p <- self ;;
  err <- (if (ValuesMerge p =? valuesMergeOptionMerge)%string
             || (ValuesMerge p =? valuesMergeOptionOverride)%string
          then replaceValuesInline else ret None) ;;
  match err with
  | Some e => ret ("", Some e)
  | None =>
      p <- self ;;
      match yamlMarshal X (ValuesInline p) with
      | Err e => ret ("", Some e)
      | Ok b => writeValuesBytes b
      end
  end.

(** Lines 268-272; the error of [os.RemoveAll] is dropped. *)
Definition cleanup : M unit :=
  p <- self ;;
  if negb (tmpDir p =? "") then
    act (fun w => emit (EvRemoveAll (tmpDir p)) (onDisk (os.RemoveAll (tmpDir p)) w))
  else ret tt.

(** Lines 325-346. *)
Definition pullCommand (p : plugin) : list string :=
  let args := ["pull"; "--untar"; "--untardir"; absChartHome p] in
  let args :=
    if strings.HasPrefix (Repo p) "oci://" then
      app args [strings.TrimSuffix (Repo p) "/" ++ "/" ++ Name p]
    else if negb (Repo p =? "") then
      app (app args ["--repo"; Repo p]) [Name p]
    else app args [Name p] in
  if negb (Version p =? "") then app args ["--version"; Version p]
  else args.

(** Lines 350-357. *)
Definition chartExistsLocally : M (string * bool) :=
  p <- self ;;
  w <- getWorld ;;
  let path := filepath.Join [absChartHome p; Name p] in
  match os.Stat path (disk w) with
  | Err _ => ret ("", false)
  | Ok s => ret (path, os.IsDir s)
  end.

(** [v[1:]] when [v[0] == 'v'], for a non-empty [v]. *)
Definition dropLeadingV (v : string) : string :=
  match v with
  | String c r => if Ascii.eqb c "v"%char then r else v
  | EmptyString => v
  end.

(** Lines 360-381; the pattern is a constant that compiles. *)
Definition checkHelmVersion : M (option error) :=
  out <- runHelmCommand ["version"; "-c"; "--short"] ;;
  match snd out with
  | Some e => ret (Some e)
  | None =>
      let stdout := fst out in
      let v := regexp.FindString stdout in
      if (v =? "")%string then
        ret (Some (Errorf ("cannot find version string in " ++ stdout)))
      else
        let v := dropLeadingV v in
        let majorVersion := hd "" (strings.Split v "."%char) in
        if negb (majorVersion =? "3") then
          ret (Some (Errorf ("this plugin requires helm V3 but got v" ++ v)))
        else ret None
  end.

(** [Generate] up to the render, lines 277-301: the standard output of
    the render, or the error that [Generate] returns with. *)
Definition Generate_render : M (result bytes) :=
  err <- checkHelmVersion ;;
  match err with
  | Some e => ret (Err e)
  | None =>
      located <- chartExistsLocally ;;
      p <- self ;;
      err <- (if negb (snd located) then
                if (Repo p =? "")%string then
                  ret (Some (Errorf ("no repo specified for pull, no chart found at '"
                                     ++ fst located ++ "'")))
                else
                  out <- runHelmCommand (pullCommand p) ;;
                  ret (snd out)
              else ret None) ;;
      match err with
      | Some e => ret (Err e)
      | None =>
          p <- self ;;
          out <- (if Nat.ltb 0 (length (ValuesInline p))
                  then createNewMergedValuesFile
                  else copyValuesFile) ;;
          assign (setValuesFile (fst out)) ;;;
          match snd out with
          | Some e => ret (Err e)
          | None =>
              p <- self ;;
              out <- runHelmCommand (AsHelmArgs X p (absChartHome p)) ;;
              match snd out with
              | Some e => ret (Err e)
              | None => ret (Ok (fst out))
              end
          end
      end
  end.

(** [Generate] from the render on, lines 303-322: what it returns for
    the standard output of the render. *)
Definition Generate_parse (stdout : bytes) : option ResMap * option error :=
  match NewResMapFromBytes (getResmapFactory h) stdout with
  | Ok rm => (Some rm, None)
  | Err resMapErr =>
      (* try to remove the contents before first "---" *)
      match byteReaderRead X stdout with
      | Err e => (None, Some (Wrap "error reading helm output" e))
      | Ok nodes =>
          if negb (Nat.eqb (length nodes) 0) then
            match NewResMapFromRNodeSlice (getResmapFactory h) nodes with
            | Err e =>
                (None,
                 Some (Wrap "could not parse rnode slice into resource map" e))
            | Ok rm => (Some rm, None)
            end
          else
            (None,
             Some (Wrap "could not parse bytes into resource map" resMapErr))
      end
  end.

(** Lines 275-323. *)
Definition Generate : M (option ResMap * option error) :=
  defer cleanup
    (r <- Generate_render ;;
     match r with
     | Err e => ret (None, Some e)
     | Ok stdout => ret (Generate_parse stdout)
     end).

End Methods.

(** ** What the properties observe *)

Definition isExec (e : event) : bool :=
  match e with EvExec _ _ _ => true | _ => false end.

(** How many external processes the plugin has started. *)
Definition execCount (w : world) : nat := length (filter isExec (trace w)).

Definition illegalValuesMerge (s : string) : Prop :=
  s <> "" /\ ~ In s legalMergeOptions.

(** The fields that the settings of the process may set. *)
Definition sameChartSettings (p p' : plugin) : Prop :=
  KubeVersion p' = KubeVersion p /\ ApiVersions p' = ApiVersions p /\
  Debug p' = Debug p.

(** What the settings of the process leave of the plugin before the
    document is decoded (lines 66-74). *)
Definition withProcessSettings (hc : HelmConfig.t) (p : plugin) : plugin :=
  let p := if negb (HelmConfig.KubeVersion hc =? "")
           then setKubeVersion (HelmConfig.KubeVersion hc) p else p in
  let p := if negb (Nat.eqb (length (HelmConfig.ApiVersions hc)) 0)
           then setApiVersions (HelmConfig.ApiVersions hc) p else p in
  if HelmConfig.Debug hc then setDebug (HelmConfig.Debug hc) p else p.

(** The files loaded, the files written and the temporary directories
    made, as a list of events tells them. *)
Definition loadsOf (events : list event) : list (string * result bytes) :=
  flat_map (fun e => match e with EvLoad path r => [(path, r)] | _ => [] end) events.

Definition writesOf (events : list event) : list (string * bytes) :=
  flat_map (fun e => match e with EvWriteFile path b => [(path, b)] | _ => [] end)
    events.

Definition mkdirsOf (events : list event) : list string :=
  flat_map (fun e => match e with EvMkdirTemp dir => [dir] | _ => [] end) events.

(** The values of the plugin are what they were. *)
Definition sameValues (p p' : plugin) : Prop :=
  ValuesFile p' = ValuesFile p /\ ValuesInline p' = ValuesInline p.

(** A call took the plugin and the world from [(p, w)] to [(p', w')] and
    added the events [new]: the chart is the same, [tmpDir] once set
    stays, and a temporary directory made on the way is the [tmpDir]. *)
Record evolves (p : plugin) (w : world) (p' : plugin) (w' : world)
  (new : list event) : Prop := {
  ev_trace : trace w' = (new ++ trace w)%list;
  ev_Name : Name p' = Name p;
  ev_Version : Version p' = Version p;
  ev_ChartHome : ChartHome p' = ChartHome p;
  ev_Repo : Repo p' = Repo p;
  ev_ConfigHome : ConfigHome p' = ConfigHome p;
  ev_ValuesMerge : ValuesMerge p' = ValuesMerge p;
  ev_tmpDir_kept : tmpDir p <> "" -> tmpDir p' = tmpDir p /\ mkdirsOf new = [];
  ev_tmpDir_made : forall dir, In dir (mkdirsOf new) -> tmpDir p' = dir /\ dir <> ""
}.

(** Path elements.  A plain element is a name: not empty, not [.] or
    [..], and without a separator. *)
Fixpoint hasSeparator (s : string) : bool :=
  match s with
  | EmptyString => false
  | String c r => Ascii.eqb c filepath.Separator || hasSeparator r
  end.

Definition plainElement (s : string) : Prop :=
  hasSeparator s = false /\ s <> "" /\ s <> "." /\ s <> "..".

(** The path of [elem] in the directory [dir], for a clean absolute
    [dir]. *)
Definition child (dir elem : string) : string :=
  if (dir =? "/")%string then "/" ++ elem else dir ++ "/" ++ elem.

(** The elements that [filepath.Clean] keeps of a rooted path, the last
    one first. *)
Definition kept (path : string) : list string :=
  fold_left (filepath.cleanStep true) (strings.Split path filepath.Separator) [].

(** The chart home of lines 155-160, before a version is added to it. *)
Definition chartHomeOf (h : PluginHelpers) (p : plugin) : string :=
  if filepath.IsAbs (ChartHome p) then ChartHome p
  else filepath.Join [Root (getLoader h); ChartHome p].

(** The path that [chartExistsLocally] looks at. *)
Definition probedPath (h : PluginHelpers) (p : plugin) : string :=
  filepath.Join [absChartHome h p; Name p].

Definition noChartAt (path : string) : error :=
  Errorf ("no repo specified for pull, no chart found at '" ++ path ++ "'").

Definition versionArgs : list string := ["version"; "-c"; "--short"].

Definition mergesWithBase (p : plugin) : bool :=
  (ValuesMerge p =? valuesMergeOptionMerge)%string
  || (ValuesMerge p =? valuesMergeOptionOverride)%string.

(** The first steps of [Generate], lines 277-288: the version gate, then
    the chart, found on the disk or pulled. *)
Definition Generate_locate (X : Externals) (h : PluginHelpers) : M (option error) :=
  err <- checkHelmVersion X h ;;
  match err with
  | Some e => ret (Some e)
  | None =>
      located <- chartExistsLocally h ;;
      p <- self ;;
      if negb (snd located) then
        if (Repo p =? "")%string then
          ret (Some (Errorf ("no repo specified for pull, no chart found at '"
                             ++ fst located ++ "'")))
        else
          out <- runHelmCommand X h (pullCommand h p) ;;
          ret (snd out)
      else ret None
  end.


(** [h'] is [h] but for what its loader reads. *)
Definition sameButLoads (h h' : PluginHelpers) : Prop :=
  GeneralConfig h' = GeneralConfig h /\
  Root (getLoader h') = Root (getLoader h) /\
  getResmapFactory h' = getResmapFactory h.

(** The pattern [v?\d+(\.\d+)+], said without a matcher: a number is one
    or more digits, a dotted number is two or more numbers joined by dots,
    and a version token is a dotted number, possibly after a [v]. *)
Inductive isNumber : string -> Prop :=
| number_digit c : regexp.isDigit c = true -> isNumber (String c EmptyString)
| number_more c s : regexp.isDigit c = true -> isNumber s -> isNumber (String c s).

Definition isDotted (t : string) : Prop :=
  exists a b rest,
    Forall isNumber (a :: b :: rest) /\ t = String.concat "." (a :: b :: rest).

Definition isVersion (t : string) : Prop :=
  isDotted t \/ exists s, isDotted s /\ t = String "v" s.

(** [t] occurs in [s]. *)
Definition occursIn (t s : string) : Prop :=
  exists before after, s = before ++ t ++ after.

(** The major version of a token: what stands before its first dot, the
    leading [v] apart. *)
Definition majorVersion (token : string) : string :=
  hd "" (strings.Split (dropLeadingV token) "."%char).

(** The processes started, as a list of events tells them: the command,
    its arguments and what it adds to the environment. *)
Definition execsOf (events : list event)
  : list (string * list string * list string) :=
  flat_map (fun e => match e with
                     | EvExec command args env => [(command, args, env)]
                     | _ => []
                     end) events.

(** The path at which [writeValuesBytes] writes (line 264). *)
Definition valuesPathOf (p : plugin) : string :=
  filepath.Join [tmpDir p; Name p ++ "-kustomize-values.yaml"].

(** The additional values files as the loop of lines 116-123 leaves them
    when every one of them loads. *)
Definition underRoot (h : PluginHelpers) (files : list string) : list string :=
  map (fun file => filepath.Join [Root (getLoader h); file]) files.

(** The loader of [h] reads [file] from the disk. *)
Definition loads (h : PluginHelpers) (fs : filesystem) (file : string) : Prop :=
  exists b, Load (getLoader h) fs file = Ok b.

(** The name of the directory that [os.MkdirTemp] tries next. *)
Definition nextTmpDir (X : Externals) (w : world) : string :=
  TempDir X ++ "/" ++ "kustomize-helm-" ++ nextRandom X (drawn w).

(** The helm command of the process settings. *)
Definition helmOf (gc : PluginConfig) : string :=
  HelmConfig.Command (helmConfig gc).

(** The world after [runHelmCommand] ran helm with [args]. *)
Definition afterRun (X : Externals) (gc : PluginConfig) (args : list string)
  (p : plugin) (w : world) : world :=
  {| disk := snd (execRun X (helmOf gc) args (helmEnv p) (disk w));
     trace := EvExec (helmOf gc) args (helmEnv p) :: trace w;
     drawn := drawn w |}.

(** The step of lines 289-293: the values file of the render. *)
Definition valuesStep (X : Externals) (h : PluginHelpers) (p : plugin)
  : M (string * option error) :=
  if Nat.ltb 0 (length (ValuesInline p)) then createNewMergedValuesFile X h
  else copyValuesFile X h.

(** The arguments of a run of [execsOf]. *)
Definition argsOf (run : string * list string * list string) : list string :=
  snd (fst run).

(** The argument lists of the runs of helm that [Generate] may make, in
    the order of the runs: the version, then possibly the pull, then
    possibly the render of the plugin [vp]. *)
Definition runsOf (X : Externals) (h : PluginHelpers) (p vp : plugin)
  : list (list (list string)) :=
  [[versionArgs];
   [versionArgs; pullCommand h p];
   [versionArgs; AsHelmArgs X vp (absChartHome h p)];
   [versionArgs; pullCommand h p; AsHelmArgs X vp (absChartHome h p)]].

(** Helm changes nothing on the disk. *)
Definition quietHelm (X : Externals) : Prop :=
  forall command args env fs, snd (execRun X command args env fs) = fs.

(** ** A concrete machine

    Stand-ins for the operating system and the libraries, to run the
    methods on concrete inputs. *)

Module Scenario.

(** A table as a library function: the entry of the key, an error when
    it has none. *)
Definition fromTable {A : Type} (table : list (string * A)) (key : string)
  : result A :=
  match find (fun entry => (fst entry =? key)%string) table with
  | Some entry => Ok (snd entry)
  | None => Err (Errorf ("cannot read " ++ key))
  end.

(** A disk that holds the listed paths. *)
Definition diskOf (entries : list (string * node)) : filesystem :=
  fun path =>
    match find (fun entry => (fst entry =? path)%string) entries with
    | Some entry => Some (snd entry)
    | None => None
    end.

(** A helm that reports [version], renders [rendered], and cannot reach
    any repository. *)
Definition helm (version rendered : bytes) (command : string)
  (args env : list string) (fs : filesystem)
  : (bytes * string * option error) * filesystem :=
  match args with
  | "version" :: _ => ((version, "", None), fs)
  | "template" :: _ => ((rendered, "", None), fs)
  | _ => (("", "Error: repository not reachable", Some (Errorf "exit status 1")), fs)
  end.

(** A printer for maps of scalars. *)
Fixpoint marshal (m : list (string * RNode)) : result bytes :=
  match m with
  | [] => Ok ""
  | (k, Scalar v) :: rest =>
      match marshal rest with
      | Ok b => Ok (k ++ ": " ++ v ++ newline ++ b)
      | Err e => Err e
      end
  | _ => Err (Errorf "nested values are beyond this printer")
  end.

(** The arguments of a render, after [HelmChart.AsHelmArgs]. *)
Definition asHelmArgs (p : plugin) (absChartHome : string) : list string :=
  ["template"; "--generate-name"; filepath.Join [absChartHome; Name p];
   "-f"; ValuesFile p].

Definition machine (version rendered : bytes)
  (documents : list (string * Payload)) (trees : list (string * RNode))
  (streams : list (string * list RNode)) : Externals :=
  {| execRun := helm version rendered;
     TempDir := "/tmp";
     nextRandom := fun _ => "2718281828";
     yamlDecode := fromTable documents;
     yamlMarshal := marshal;
     kyamlParse := fromTable trees;
     byteReaderRead := fromTable streams;
     AsHelmArgs := asHelmArgs |}.

(** A loader that reads the files of the disk, relative paths from its
    root. *)
Definition diskLoader (root : string) : Loader :=
  {| Root := root;
     Load := fun fs path =>
       let full := if filepath.IsAbs path then path
                   else filepath.Join [root; path] in
       match fs full with
       | Some (File b) => Ok b
       | Some Directory => Err (Errorf ("read " ++ full ++ ": is a directory"))
       | None => Err (Errorf ("open " ++ full ++ ": no such file or directory"))
       end |}.

(** The identity of a resource: its kind and its name. *)
Definition scalarAt (key : string) (fields : list (string * RNode)) : string :=
  match lookup key fields with
  | Some (Scalar s) => s
  | _ => ""
  end.

Definition idOf (n : RNode) : string :=
  match n with
  | Mapping fields =>
      scalarAt "kind" fields ++ "/"
      ++ match lookup "metadata" fields with
         | Some (Mapping metadata) => scalarAt "name" metadata
         | _ => ""
         end
  | _ => ""
  end.

Fixpoint distinct (ids : list string) : bool :=
  match ids with
  | [] => true
  | id :: rest => negb (existsb (String.eqb id) rest) && distinct rest
  end.

(** A resource map holds one resource of each identity. *)
Definition factory (resources : list (string * list RNode)) : ResmapFactory :=
  {| NewResMapFromBytes := fromTable resources;
     NewResMapFromRNodeSlice := fun nodes =>
       if distinct (map idOf nodes) then Ok nodes
       else Err (Errorf "may not add resource with an already registered id") |}.

Definition helpers (hc : HelmConfig.t) (resources : list (string * list RNode))
  : PluginHelpers :=
  {| GeneralConfig := Some {| helmConfig := hc |};
     getLoader := diskLoader "/work";
     getResmapFactory := factory resources |}.

(** The settings of a process started with [--enable-helm]. *)
Definition enabled : HelmConfig.t :=
  {| HelmConfig.Enabled := true; HelmConfig.Command := "helm";
     HelmConfig.ApiVersions := []; HelmConfig.KubeVersion := "";
     HelmConfig.Debug := false |}.

(** The same, started with [--helm-kube-version 1.27.0]. *)
Definition withKubeVersion : HelmConfig.t :=
  {| HelmConfig.Enabled := true; HelmConfig.Command := "helm";
     HelmConfig.ApiVersions := []; HelmConfig.KubeVersion := "1.27.0";
     HelmConfig.Debug := false |}.

(** A kustomization root [/work] with the chart [nginx] below [charts]. *)
Definition valuesText : bytes :=
  "# defaults" ++ newline ++ "replicas:   1" ++ newline.

(** A second values file, with a nested map. *)
Definition nestedText : bytes :=
  "a:" ++ newline ++ "  x: 1" ++ newline ++ "  y: 2" ++ newline
  ++ "b: base" ++ newline ++ "replicas: 1" ++ newline.

Definition nestedBase : list (string * RNode) :=
  [("a", Mapping [("x", Scalar "1"); ("y", Scalar "2")]);
   ("b", Scalar "base"); ("replicas", Scalar "1")].

Definition nestedInline : list (string * RNode) :=
  [("a", Mapping [("x", Scalar "5")]); ("c", Scalar "inline");
   ("replicas", Scalar "3")].

(** What [kyaml.Parse] makes of the two values files. *)
Definition trees : list (string * RNode) :=
  [(valuesText, Mapping [("replicas", Scalar "1")]);
   (nestedText, Mapping nestedBase)].

Definition disk0 : filesystem :=
  diskOf [("/tmp", Directory); ("/work", Directory);
          ("/work/charts", Directory); ("/work/charts/nginx", Directory);
          ("/work/charts/nginx/values.yaml", File valuesText);
          ("/work/nested.yaml", File nestedText)].

Definition world0 : world := {| disk := disk0; trace := []; drawn := 0 |}.

(** Configuration documents and what they decode to. *)
Definition nginxDocument : bytes := "name: nginx" ++ newline.

Definition pinnedDocument : bytes :=
  "name: nginx" ++ newline ++ "kubeVersion: 1.20.0" ++ newline.

Definition appendDocument : bytes :=
  "name: nginx" ++ newline ++ "valuesMerge: append" ++ newline.

Definition documents : list (string * Payload) :=
  [(nginxDocument,
    {| yChartHome := None; yConfigHome := None; yName := Some "nginx";
       yVersion := None; yRepo := None; yValuesFile := None;
       yValuesInline := None; yValuesMerge := None;
       yAdditionalValuesFiles := None; yApiVersions := None;
       yKubeVersion := None; yDebug := None |});
   (pinnedDocument,
    {| yChartHome := None; yConfigHome := None; yName := Some "nginx";
       yVersion := None; yRepo := None; yValuesFile := None;
       yValuesInline := None; yValuesMerge := None;
       yAdditionalValuesFiles := None; yApiVersions := None;
       yKubeVersion := Some "1.20.0"; yDebug := None |});
   (appendDocument,
    {| yChartHome := None; yConfigHome := None; yName := Some "nginx";
       yVersion := None; yRepo := None; yValuesFile := None;
       yValuesInline := None; yValuesMerge := Some "append";
       yAdditionalValuesFiles := None; yApiVersions := None;
       yKubeVersion := None; yDebug := None |})].

(** Rendered text and what the resource factory makes of it. *)
Definition configMap : RNode :=
  Mapping [("apiVersion", Scalar "v1"); ("kind", Scalar "ConfigMap")].

Definition renderedText : bytes :=
  "apiVersion: v1" ++ newline ++ "kind: ConfigMap" ++ newline.

Definition resources : list (string * list RNode) :=
  [(renderedText, [configMap])].

(** A machine with helm 3.14. *)
Definition machine0 : Externals :=
  machine "v3.14.0+g3fc9f4b" renderedText documents trees [].

(** The chart [nginx], configured. *)
Definition nginx : plugin :=
  {| ChartHome := "charts"; ConfigHome := "/tmp/kustomize-helm-2718281828/helm";
     Name := "nginx"; Version := ""; Repo := "";
     ValuesFile := "/work/charts/nginx/values.yaml"; ValuesInline := [];
     ValuesMerge := "override"; AdditionalValuesFiles := [];
     ApiVersions := []; KubeVersion := ""; Debug := false;
     tmpDir := "/tmp/kustomize-helm-2718281828" |}.

(** The world that [Config] leaves behind: the temporary directory of the
    plugin is on the disk. *)
Definition world1 : world :=
  {| disk := os.put "/tmp/kustomize-helm-2718281828" Directory disk0;
     trace := [EvMkdirTemp "/tmp/kustomize-helm-2718281828"];
     drawn := 1 |}.

Definition h0 : PluginHelpers := helpers enabled resources.

(** Rendered text that the strict reading refuses, and the nodes that the
    permissive reading finds in it: a banner before a config map, a banner
    before the same config map twice, and a message alone. *)
Definition bannerText : bytes :=
  "NOTE: installed" ++ newline ++ "---" ++ newline ++ renderedText.

Definition duplicatedText : bytes :=
  bannerText ++ "---" ++ newline ++ renderedText.

Definition noiseText : bytes := "nothing to render" ++ newline.

Definition streams : list (string * list RNode) :=
  [(bannerText, [configMap]);
   (duplicatedText, [configMap; configMap]);
   (noiseText, [])].

(** A machine with helm 3.14 that renders the given text. *)
Definition rendering (rendered : bytes) : Externals :=
  machine "v3.14.0+g3fc9f4b" rendered documents trees streams.

(** The chart [nginx] with inline values that replace the base. *)
Definition replacing : plugin :=
  setValuesMerge "replace" (setValuesInline [("replicas", Scalar "3")] nginx).

(** The chart [nginx] with inline values over the nested values file. *)
Definition nested (policy : string) : plugin :=
  setValuesMerge policy
    (setValuesInline nestedInline (setValuesFile "/work/nested.yaml" nginx)).

(** The chart [nginx] at the version 1.0, and a disk on which
    [charts/nginx-1.0] is an empty directory. *)
Definition pinned : plugin :=
  {| ChartHome := "charts"; ConfigHome := "/tmp/kustomize-helm-2718281828/helm";
     Name := "nginx"; Version := "1.0"; Repo := "";
     ValuesFile := "/work/charts/nginx-1.0/nginx/values.yaml"; ValuesInline := [];
     ValuesMerge := "override"; AdditionalValuesFiles := [];
     ApiVersions := []; KubeVersion := ""; Debug := false;
     tmpDir := "/tmp/kustomize-helm-2718281828" |}.

Definition emptyVersionDir : world :=
  {| disk := os.put "/work/charts/nginx-1.0" Directory (disk world1);
     trace := trace world1; drawn := drawn world1 |}.

(** The chart [nginx] of a repository, at a version or without one. *)
Definition fromRepo (repo version : string) : plugin :=
  {| ChartHome := "charts"; ConfigHome := "/tmp/kustomize-helm-2718281828/helm";
     Name := "nginx"; Version := version; Repo := repo;
     ValuesFile := ""; ValuesInline := [];
     ValuesMerge := "override"; AdditionalValuesFiles := [];
     ApiVersions := []; KubeVersion := ""; Debug := false;
     tmpDir := "/tmp/kustomize-helm-2718281828" |}.

(** A chart that is not on the disk. *)
Definition redis : plugin :=
  {| ChartHome := "charts"; ConfigHome := "/tmp/kustomize-helm-2718281828/helm";
     Name := "redis"; Version := ""; Repo := "";
     ValuesFile := "/work/charts/redis/values.yaml"; ValuesInline := [];
     ValuesMerge := "override"; AdditionalValuesFiles := [];
     ApiVersions := []; KubeVersion := ""; Debug := false;
     tmpDir := "/tmp/kustomize-helm-2718281828" |}.

Definition valuesPath : string :=
  "/tmp/kustomize-helm-2718281828/nginx-kustomize-values.yaml".

(** The chart [nginx] as a document that gives only its name leaves it
    before the validation. *)
Definition named : plugin :=
  {| ChartHome := ""; ConfigHome := ""; Name := "nginx"; Version := "";
     Repo := ""; ValuesFile := ""; ValuesInline := []; ValuesMerge := "";
     AdditionalValuesFiles := []; ApiVersions := []; KubeVersion := "";
     Debug := false; tmpDir := "" |}.

(** The same with additional values files. *)
Definition withFiles (files : list string) : plugin :=
  setAdditionalValuesFiles files named.

(** The settings of a process started without [--enable-helm]. *)
Definition disabled : HelmConfig.t :=
  {| HelmConfig.Enabled := false; HelmConfig.Command := "helm";
     HelmConfig.ApiVersions := []; HelmConfig.KubeVersion := "";
     HelmConfig.Debug := false |}.


(** A machine with helm 3.14 whose YAML parser reads nothing. *)
Definition unparsing : Externals :=
  machine "v3.14.0+g3fc9f4b" renderedText documents [] [].

(** The world after the run of helm for the version. *)
Definition afterVersion (p : plugin) : world :=
  afterRun machine0 {| helmConfig := enabled |} versionArgs p world1.

End Scenario.

(** * Properties *)

(** ** The libraries on examples *)

Example Clean_examples :
  filepath.Clean "/a//b/./c/.." = "/a/b" /\
  filepath.Clean "../../a/.." = "../.." /\
  filepath.Clean "/../a" = "/a" /\
  filepath.Clean "a/.." = "." /\
  filepath.Clean "/" = "/" /\
  filepath.Join ["/charts"; "nginx-1.0"; ""] = "/charts/nginx-1.0" /\
  filepath.Join [""; "charts"; "x"] = "charts/x" /\
  filepath.Join [""; ""] = "" /\
  filepath.Dir "/tmp/k/x.yaml" = "/tmp/k" /\
  filepath.Dir "/x" = "/" /\
  filepath.Dir "x" = "." /\
  filepath.Clean "" = "." /\
  filepath.Clean "a/" = "a" /\
  filepath.Clean "./a//b" = "a/b" /\
  filepath.Clean "/.." = "/" /\
  filepath.Clean "a/../.." = ".." /\
  filepath.Join ["charts"; ""] = "charts" /\
  filepath.IsAbs "/work" = true /\
  filepath.IsAbs "work" = false /\
  strings.HasPrefix "oci://r" "oci://" = true /\
  strings.HasPrefix "https://r" "oci://" = false /\
  strings.TrimSuffix "oci://r/" "/" = "oci://r" /\
  strings.TrimSuffix "oci://r" "/" = "oci://r" /\
  strings.Split "3.14.0" "."%char = ["3"; "14"; "0"].
Proof. repeat split; reflexivity. Qed.

Example FindString_examples :
  regexp.FindString "v3.14.0+g12345" = "v3.14.0" /\
  regexp.FindString "version.BuildInfo{Version: v3.9.4, Go: go1.17}" = "v3.9.4" /\
  regexp.FindString "Client: &version.Version{SemVer:v2.16.1}" = "v2.16.1" /\
  regexp.FindString "3.14.0" = "3.14.0" /\
  regexp.FindString "helm 3" = "" /\
  regexp.FindString "12 3. 4.x v5..6 v7.8." = "v7.8" /\
  regexp.FindString "vv1.2" = "v1.2".
Proof. repeat split; reflexivity. Qed.

Example Merge_examples :
  let base := Mapping [("a", Mapping [("x", Scalar "1"); ("y", Scalar "2")]);
                       ("b", Scalar "base")] in
  let inline := Mapping [("a", Mapping [("x", Scalar "5")]);
                         ("c", Scalar "inline")] in
  merge2.Merge inline base =
    Mapping [("a", Mapping [("x", Scalar "5"); ("y", Scalar "2")]);
             ("b", Scalar "base"); ("c", Scalar "inline")] /\
  merge2.Merge base inline =
    Mapping [("a", Mapping [("x", Scalar "1"); ("y", Scalar "2")]);
             ("c", Scalar "inline"); ("b", Scalar "base")] /\
  merge2.Merge (Scalar "s") base = Scalar "s" /\
  merge2.Merge base (Scalar "s") = base.
Proof. repeat split; reflexivity. Qed.

(** ** Reasoning about method calls *)

Ltac unfold_monad :=
  unfold bind, ret, self, assign, getWorld, act, panic, defer in *.

Ltac mred :=
  cbv beta iota delta [bind ret self assign getWorld act panic defer] in *.

Ltac break_match :=
  match goal with
  | |- context [match ?x with _ => _ end] => destruct x eqn:?
  | H : context [match ?x with _ => _ end] |- _ => destruct x eqn:?
  end.

Ltac inv H := inversion H; subst; clear H.

Ltac find_inv :=
  match goal with
  | H : (_, _) = (_, _) |- _ => inv H
  | H : Returns _ = Returns _ |- _ => inv H
  | H : Some _ = Some _ |- _ => inv H
  | H : Ok _ = Ok _ |- _ => inv H
  | H : Err _ = Err _ |- _ => inv H
  end.

Section ConfigProperties.

Variable X : Externals.
Variable h : PluginHelpers.

Lemma errIfIllegalValuesMerge_illegal p w :
  illegalValuesMerge (ValuesMerge p) ->
  errIfIllegalValuesMerge p w =
    (Returns (Some (Errorf "valuesMerge must be one of [merge override replace]")),
     p, w).
Proof.
  intros [Hne Hnot]. unfold errIfIllegalValuesMerge. unfold_monad.
  destruct (ValuesMerge p =? "")%string eqn:E.
  - apply String.eqb_eq in E. contradiction.
  - destruct (existsb (String.eqb (ValuesMerge p)) legalMergeOptions) eqn:E'.
    + apply existsb_exists in E'. destruct E' as [x [Hin Heq]].
      apply String.eqb_eq in Heq. subst x. contradiction.
    + reflexivity.
Qed.

Lemma errIfIllegalValuesMerge_unset p w :
  ValuesMerge p = "" ->
  errIfIllegalValuesMerge p w =
    (Returns None, setValuesMerge valuesMergeOptionOverride p, w).
Proof.
  intros E. unfold errIfIllegalValuesMerge. unfold_monad. rewrite E. reflexivity.
Qed.

Lemma errIfIllegalValuesMerge_inv p w r p' w' :
  errIfIllegalValuesMerge p w = (r, p', w') ->
  w' = w /\ tmpDir p' = tmpDir p /\ ConfigHome p' = ConfigHome p /\
  (ValuesMerge p = "" -> ValuesMerge p' = valuesMergeOptionOverride) /\
  (ValuesMerge p <> "" -> ValuesMerge p' = ValuesMerge p) /\
  exists err, r = Returns err /\
    (err = None -> ~ illegalValuesMerge (ValuesMerge p)).
Proof.
  unfold errIfIllegalValuesMerge. unfold_monad. intros H.
  destruct (ValuesMerge p =? "")%string eqn:E.
  - inv H. apply String.eqb_eq in E. simpl. repeat split; auto.
    + intros; contradiction.
    + eexists; split; [reflexivity|]. intros _ [Hne _]. contradiction.
  - apply String.eqb_neq in E.
    destruct (existsb (String.eqb (ValuesMerge p)) legalMergeOptions) eqn:E';
      inv H; repeat split; auto; try contradiction;
      (eexists; split; [reflexivity|]); try discriminate.
    intros _ [_ Hnot]. apply Hnot.
    apply existsb_exists in E'. destruct E' as [x [Hin Heq]].
    apply String.eqb_eq in Heq. now subst x.
Qed.

Lemma loadAdditionalValuesFiles_inv files :
  forall p w r p' w',
    loadAdditionalValuesFiles h files p w = (r, p', w') ->
    p' = p /\ execCount w' = execCount w /\ disk w' = disk w /\
    drawn w' = drawn w /\ exists out, r = Returns out.
Proof.
  induction files as [|file rest IH]; simpl; intros p w r p' w' H.
  - unfold_monad. inv H. eauto 6.
  - unfold_monad. unfold load in H.
    destruct (Load (getLoader h) (disk w) file) eqn:EL.
    + destruct (loadAdditionalValuesFiles h rest p
                  (emit (EvLoad file (Ok a)) w)) as [[r1 p1] w1] eqn:E1.
      apply IH in E1. destruct E1 as (-> & Hc & Hd & Hn & out & ->).
      inv H. repeat split; eauto.
    + inv H. repeat split; eauto.
Qed.

Lemma establishTmpDir_inv p w r p' w' :
  establishTmpDir X p w = (r, p', w') ->
  execCount w' = execCount w /\ ValuesMerge p' = ValuesMerge p /\
  exists err, r = Returns err.
Proof.
  unfold establishTmpDir, MkdirTemp. unfold_monad. intros H.
  repeat break_match; simpl in *; repeat find_inv; simpl; eauto.
Qed.

Lemma validateArgs_inv p w r p' w' :
  validateArgs X h p w = (r, p', w') ->
  execCount w' = execCount w /\
  exists err, r = Returns err /\
    (err = None ->
     ~ illegalValuesMerge (ValuesMerge p) /\
     (ValuesMerge p = "" -> ValuesMerge p' = valuesMergeOptionOverride) /\
     (ValuesMerge p <> "" -> ValuesMerge p' = ValuesMerge p)).
Proof.
  unfold validateArgs. intros H. mred.
  destruct (Name p =? "")%string.
  { inv H. split; [reflexivity|]. eexists; split; [reflexivity|discriminate]. }
  destruct (ChartHome p =? "")%string; mred;
    match type of H with
    | context [if (ValuesFile ?q =? "")%string then _ else _] =>
        destruct (ValuesFile q =? "")%string; mred
    end;
    match type of H with
    | context [loadAdditionalValuesFiles h ?fs ?q ?v] =>
        destruct (loadAdditionalValuesFiles h fs q v) as [[r1 p1] w1] eqn:E1;
        apply loadAdditionalValuesFiles_inv in E1;
        destruct E1 as (-> & Hc1 & _ & _ & out & ->)
    end; mred;
    (destruct (snd out) as [e|];
     [ inv H; split; [assumption|]; eexists; split; [reflexivity|discriminate] | ]);
    match type of H with
    | context [errIfIllegalValuesMerge ?q ?v] =>
        destruct (errIfIllegalValuesMerge q v) as [[r2 p2] w2] eqn:E2;
        apply errIfIllegalValuesMerge_inv in E2;
        destruct E2 as (-> & _ & _ & Hdef & Hkeep & err & -> & Hlegal)
    end; mred; simpl in Hdef, Hkeep, Hlegal;
    (destruct err as [e|];
     [ inv H; split; [assumption|]; eexists; split; [reflexivity|discriminate] | ]);
    specialize (Hlegal eq_refl);
    (destruct (ConfigHome p2 =? "")%string;
     [ match type of H with
       | context [establishTmpDir X ?q ?v] =>
           destruct (establishTmpDir X q v) as [[r3 p3] w3] eqn:E3;
           apply establishTmpDir_inv in E3;
           destruct E3 as (Hc3 & Hvm3 & err3 & ->)
       end; mred; destruct err3 as [e|]; simpl in H; inv H;
       (split; [congruence|]); eexists; (split; [reflexivity|]);
       try discriminate; intros _; simpl; rewrite Hvm3; auto
     | inv H; (split; [assumption|]); eexists; (split; [reflexivity|]);
       intros _; auto ]).
Qed.

Lemma establishTmpDir_settings p w r p' w' :
  establishTmpDir X p w = (r, p', w') -> sameChartSettings p p'.
Proof.
  unfold establishTmpDir, MkdirTemp, sameChartSettings. unfold_monad. intros H.
  repeat break_match; simpl in *; repeat find_inv; simpl; auto.
Qed.

Lemma errIfIllegalValuesMerge_settings p w r p' w' :
  errIfIllegalValuesMerge p w = (r, p', w') -> sameChartSettings p p'.
Proof.
  unfold errIfIllegalValuesMerge, sameChartSettings. unfold_monad. intros H.
  repeat break_match; simpl in *; repeat find_inv; simpl; auto.
Qed.

Lemma validateArgs_settings p w r p' w' :
  validateArgs X h p w = (r, p', w') -> sameChartSettings p p'.
Proof.
  unfold validateArgs. intros H. mred.
  destruct (Name p =? "")%string.
  { inv H. repeat split. }
  destruct (ChartHome p =? "")%string; mred;
    match type of H with
    | context [if (ValuesFile ?q =? "")%string then _ else _] =>
        destruct (ValuesFile q =? "")%string; mred
    end;
    match type of H with
    | context [loadAdditionalValuesFiles h ?fs ?q ?v] =>
        destruct (loadAdditionalValuesFiles h fs q v) as [[r1 p1] w1] eqn:E1;
        apply loadAdditionalValuesFiles_inv in E1;
        destruct E1 as (-> & _ & _ & _ & out & ->)
    end; mred;
    (destruct (snd out) as [e|]; [ inv H; repeat split | ]);
    match type of H with
    | context [errIfIllegalValuesMerge ?q ?v] =>
        destruct (errIfIllegalValuesMerge q v) as [[r2 p2] w2] eqn:E2;
        apply errIfIllegalValuesMerge_settings in E2;
        destruct E2 as (K2 & A2 & D2)
    end; mred; simpl in K2, A2, D2;
    (destruct r2 as [[e|]|why]; [ inv H; repeat split; assumption | | inv H; repeat split; assumption ]);
    (destruct (ConfigHome p2 =? "")%string;
     [ match type of H with
       | context [establishTmpDir X ?q ?v] =>
           destruct (establishTmpDir X q v) as [[r3 p3] w3] eqn:E3;
           apply establishTmpDir_settings in E3;
           destruct E3 as (K3 & A3 & D3)
       end; mred; destruct r3 as [[e|]|why]; simpl in H; inv H;
       repeat split; simpl; congruence
     | inv H; repeat split; assumption ]).
Qed.

Lemma Config_unfold config p w gc y :
  GeneralConfig h = Some gc ->
  HelmConfig.Enabled (helmConfig gc) = true ->
  HelmConfig.Command (helmConfig gc) <> "" ->
  yamlDecode X config = Ok y ->
  Config X h config p w =
    validateArgs X h (decodeInto y (withProcessSettings (helmConfig gc) p)) w.
Proof.
  intros Hgc Hen Hcmd Hy. unfold Config, Unmarshal, withProcessSettings.
  rewrite Hgc, Hen, Hy. apply String.eqb_neq in Hcmd. rewrite Hcmd. simpl.
  mred.
  destruct (HelmConfig.KubeVersion (helmConfig gc) =? "")%string;
    destruct (Nat.eqb (length (HelmConfig.ApiVersions (helmConfig gc))) 0);
    destruct (HelmConfig.Debug (helmConfig gc)); reflexivity.
Qed.

(** What [Config] leaves in the three fields, for a document that
    decodes: the value the document gives, when it gives one; else the
    setting of the process, when that is non-empty; else what the plugin
    held. *)
Lemma Config_chart_settings config p w gc y r p' w' :
  GeneralConfig h = Some gc ->
  HelmConfig.Enabled (helmConfig gc) = true ->
  HelmConfig.Command (helmConfig gc) <> "" ->
  yamlDecode X config = Ok y ->
  Config X h config p w = (r, p', w') ->
  let hc := helmConfig gc in
  KubeVersion p' =
    orKeep (yKubeVersion y)
      (if (HelmConfig.KubeVersion hc =? "")%string then KubeVersion p
       else HelmConfig.KubeVersion hc) /\
  ApiVersions p' =
    orKeep (yApiVersions y)
      (if Nat.eqb (length (HelmConfig.ApiVersions hc)) 0 then ApiVersions p
       else HelmConfig.ApiVersions hc) /\
  Debug p' = orKeep (yDebug y) (if HelmConfig.Debug hc then true else Debug p).
Proof.
  intros Hgc Hen Hcmd Hy H hc.
  rewrite (Config_unfold _ p w Hgc Hen Hcmd Hy) in H.
  apply validateArgs_settings in H. destruct H as (K & A & D).
  rewrite K, A, D. unfold withProcessSettings. fold hc. simpl.
  destruct (HelmConfig.KubeVersion hc =? "")%string;
    destruct (Nat.eqb (length (HelmConfig.ApiVersions hc)) 0);
    destruct (HelmConfig.Debug hc) eqn:ED; simpl; auto.
Qed.

Lemma Config_inv config p w r p' w' :
  Config X h config p w = (r, p', w') ->
  execCount w' = execCount w /\
  exists err, r = Returns err /\
    (err = None ->
     exists y, yamlDecode X config = Ok y /\
       let policy := orKeep (yValuesMerge y) (ValuesMerge p) in
       ~ illegalValuesMerge policy /\
       (policy = "" -> ValuesMerge p' = valuesMergeOptionOverride) /\
       (policy <> "" -> ValuesMerge p' = policy)).
Proof.
  intros H.
  assert (Hfail : forall e, (r, p', w') = (Returns (Some e), p, w) ->
    execCount w' = execCount w /\
    exists err, r = Returns err /\
      (err = None ->
       exists y, yamlDecode X config = Ok y /\
         let policy := orKeep (yValuesMerge y) (ValuesMerge p) in
         ~ illegalValuesMerge policy /\
         (policy = "" -> ValuesMerge p' = valuesMergeOptionOverride) /\
         (policy <> "" -> ValuesMerge p' = policy))).
  { intros e E. inv E. split; [reflexivity|].
    eexists; split; [reflexivity|discriminate]. }
  destruct (GeneralConfig h) as [gc|] eqn:Hgc.
  2:{ unfold Config in H. rewrite Hgc in H.
      cbv beta iota delta [ret negb] in H. symmetry in H. eauto. }
  destruct (HelmConfig.Enabled (helmConfig gc)) eqn:Hen.
  2:{ unfold Config in H. rewrite Hgc, Hen in H.
      cbv beta iota delta [ret negb] in H. symmetry in H. eauto. }
  destruct (HelmConfig.Command (helmConfig gc) =? "")%string eqn:Hcmd.
  { unfold Config in H. rewrite Hgc, Hen, Hcmd in H.
    cbv beta iota delta [ret negb] in H. symmetry in H. eauto. }
  apply String.eqb_neq in Hcmd.
  destruct (yamlDecode X config) as [y|e] eqn:Hy.
  - rewrite (Config_unfold _ p w Hgc Hen Hcmd Hy) in H.
    apply validateArgs_inv in H. destruct H as (Hc & err & -> & Herr).
    split; [assumption|]. eexists; split; [reflexivity|].
    intros E. exists y. split; [reflexivity|].
    assert (Hvm : ValuesMerge (decodeInto y (withProcessSettings (helmConfig gc) p))
                  = orKeep (yValuesMerge y) (ValuesMerge p)).
    { unfold withProcessSettings. simpl. repeat break_match; reflexivity. }
    rewrite Hvm in Herr. exact (Herr E).
  - unfold Config, Unmarshal in H. rewrite Hgc, Hen, Hy in H.
    apply String.eqb_neq in Hcmd. rewrite Hcmd in H. simpl in H. mred.
    destruct (HelmConfig.KubeVersion (helmConfig gc) =? "")%string;
      destruct (Nat.eqb (length (HelmConfig.ApiVersions (helmConfig gc))) 0);
      destruct (HelmConfig.Debug (helmConfig gc)); simpl in H; inv H;
      (split; [reflexivity|]); eexists; (split; [reflexivity|discriminate]).
Qed.

(** C4: validation fails whenever the merge policy is set to a value
    outside merge, override and replace, and no external process has been
    started by then: [errIfIllegalValuesMerge] returns the error,
    [validateArgs] returns with an error from every plugin that holds
    such a policy, and so does [Config] for every document that leaves
    such a policy in the plugin.  An unset policy makes
    [errIfIllegalValuesMerge] store [override] and return no error, and a
    validation that succeeds from an unset policy leaves [override]. *)
Theorem values_merge_validated config p w :
  (illegalValuesMerge (ValuesMerge p) ->
   errIfIllegalValuesMerge p w =
     (Returns (Some (Errorf "valuesMerge must be one of [merge override replace]")),
      p, w) /\
   exists e p' w',
     validateArgs X h p w = (Returns (Some e), p', w') /\
     execCount w' = execCount w) /\
  (forall y,
     yamlDecode X config = Ok y ->
     illegalValuesMerge (orKeep (yValuesMerge y) (ValuesMerge p)) ->
     exists e p' w',
       Config X h config p w = (Returns (Some e), p', w') /\
       execCount w' = execCount w) /\
  (ValuesMerge p = "" ->
   errIfIllegalValuesMerge p w =
     (Returns None, setValuesMerge valuesMergeOptionOverride p, w) /\
   forall p' w',
     validateArgs X h p w = (Returns None, p', w') ->
     ValuesMerge p' = valuesMergeOptionOverride).
Proof.
  split; [|split].
  - intros Hbad. split; [now apply errIfIllegalValuesMerge_illegal|].
    destruct (validateArgs X h p w) as [[r p'] w'] eqn:E.
    pose proof (validateArgs_inv _ _ E) as (Hc & err & -> & Herr).
    destruct err as [e|].
    + eauto 6.
    + destruct (Herr eq_refl) as (Hok & _). contradiction.
  - intros y Hy Hbad.
    destruct (Config X h config p w) as [[r p'] w'] eqn:E.
    pose proof (Config_inv _ _ _ E) as (Hc & err & -> & Herr).
    destruct err as [e|].
    + eauto 6.
    + destruct (Herr eq_refl) as (y' & Hy' & Hok & _).
      rewrite Hy in Hy'. inv Hy'. contradiction.
  - intros Hunset. split; [now apply errIfIllegalValuesMerge_unset|].
    intros p' w' E.
    pose proof (validateArgs_inv _ _ E) as (_ & err & Hr & Herr).
    inv Hr. destruct (Herr eq_refl) as (_ & Hdef & _). auto.
Qed.

End ConfigProperties.

(** ** The fetch command *)

Example pullCommand_examples :
  pullCommand Scenario.h0 (Scenario.fromRepo "oci://registry.io/charts/" "1.0")
    = ["pull"; "--untar"; "--untardir"; "/work/charts/nginx-1.0";
       "oci://registry.io/charts/nginx"; "--version"; "1.0"] /\
  pullCommand Scenario.h0 (Scenario.fromRepo "https://charts.io" "")
    = ["pull"; "--untar"; "--untardir"; "/work/charts";
       "--repo"; "https://charts.io"; "nginx"] /\
  pullCommand Scenario.h0 (Scenario.fromRepo "" "")
    = ["pull"; "--untar"; "--untardir"; "/work/charts"; "nginx"].
Proof. repeat split; reflexivity. Qed.

(** ** [Config] on the concrete machine *)

Example Config_nginx :
  Config Scenario.machine0 (Scenario.helpers Scenario.enabled Scenario.resources)
    Scenario.nginxDocument zeroPlugin Scenario.world0
  = (Returns None, Scenario.nginx,
     {| disk := os.put "/tmp/kustomize-helm-2718281828" Directory Scenario.disk0;
        trace := [EvMkdirTemp "/tmp/kustomize-helm-2718281828"];
        drawn := 1 |}).
Proof. reflexivity. Qed.

(** C1 fails on the code: a process started with the kube version 1.27.0
    configures the chart from a document that names the kube version
    1.20.0, and the validated plugin holds 1.20.0.  [Config] stores the
    settings of the process before it decodes the document into the same
    struct (lines 66-77), so that a field the document names takes the
    document's value. *)
Theorem Config_document_beats_process_setting :
  let h := Scenario.helpers Scenario.withKubeVersion Scenario.resources in
  exists p' w',
    Config Scenario.machine0 h Scenario.pinnedDocument zeroPlugin Scenario.world0
      = (Returns None, p', w') /\
    HelmConfig.KubeVersion Scenario.withKubeVersion = "1.27.0" /\
    KubeVersion p' = "1.20.0".
Proof.
  cbv zeta. do 2 eexists. split; [vm_compute; reflexivity|].
  split; reflexivity.
Qed.

Lemma illegal_append : illegalValuesMerge "append".
Proof.
  split; [discriminate|]. simpl. intros [H|[H|[H|[]]]]; discriminate.
Defined.

(** The validation of the merge policy on the concrete machine: the
    policy [append], held by the plugin or given by the document, and the
    unset policy of the zero plugin. *)
Lemma values_merge_validated_witness :
  let h := Scenario.helpers Scenario.enabled Scenario.resources in
  let bad := setValuesMerge "append" Scenario.nginx in
  (errIfIllegalValuesMerge bad Scenario.world0 =
     (Returns (Some (Errorf "valuesMerge must be one of [merge override replace]")),
      bad, Scenario.world0) /\
   exists e p' w',
     validateArgs Scenario.machine0 h bad Scenario.world0
       = (Returns (Some e), p', w') /\
     execCount w' = execCount Scenario.world0) /\
  (exists e p' w',
     Config Scenario.machine0 h Scenario.appendDocument zeroPlugin Scenario.world0
       = (Returns (Some e), p', w') /\
     execCount w' = execCount Scenario.world0) /\
  (errIfIllegalValuesMerge zeroPlugin Scenario.world0 =
     (Returns None, setValuesMerge valuesMergeOptionOverride zeroPlugin,
      Scenario.world0)).
Proof.
  intros h bad.
  split; [|split].
  - apply (values_merge_validated Scenario.machine0 h Scenario.appendDocument
             bad Scenario.world0).
    exact illegal_append.
  - destruct (values_merge_validated Scenario.machine0 h Scenario.appendDocument
                zeroPlugin Scenario.world0) as (_ & H & _).
    eapply H; [reflexivity|]. exact illegal_append.
  - apply (values_merge_validated Scenario.machine0 h Scenario.appendDocument
             zeroPlugin Scenario.world0).
    reflexivity.
Defined.

(** ** The version pattern *)

Section VersionPattern.

Import regexp.

Lemma append_assoc (a b c : string) : (a ++ b) ++ c = a ++ (b ++ c).
Proof. induction a as [|x a IH]; simpl; [reflexivity|now rewrite IH]. Qed.

Lemma digit_not_dot c : isDigit c = true -> Ascii.eqb c "."%char = false.
Proof.
  intros H. destruct (Ascii.eqb c "."%char) eqn:E; [|reflexivity].
  apply Ascii.eqb_eq in E. subst c. discriminate.
Qed.

Lemma digit_not_v c : isDigit c = true -> Ascii.eqb c "v"%char = false.
Proof.
  intros H. destruct (Ascii.eqb c "v"%char) eqn:E; [|reflexivity].
  apply Ascii.eqb_eq in E. subst c. discriminate.
Qed.

Lemma isNumber_nonempty a : isNumber a -> exists c r, a = String c r /\ isDigit c = true.
Proof. intros [c H|c s H _]; eauto. Qed.

Lemma isNumber_no_dot a : isNumber a -> hasDot a = false.
Proof.
  induction 1 as [c H|c s H _ IH]; simpl.
  - now rewrite (digit_not_dot _ H).
  - now rewrite (digit_not_dot _ H), IH.
Qed.

Lemma hasDot_app a b : hasDot (a ++ b) = hasDot a || hasDot b.
Proof.
  induction a as [|x a IH]; simpl; [reflexivity|].
  rewrite IH. now rewrite orb_assoc.
Qed.

Lemma concat_cons_digit c a rest :
  String c (String.concat "." (a :: rest)) = String.concat "." (String c a :: rest).
Proof. destruct rest; reflexivity. Qed.

(** What [numbers] returns is a prefix of its argument made of numbers
    joined by dots. *)
Lemma numbers_sound n :
  forall s t, String.length s <= n -> numbers s = Some t ->
    exists a rest tail,
      Forall isNumber (a :: rest) /\ t = String.concat "." (a :: rest) /\
      s = t ++ tail.
Proof.
  induction n as [|n IH]; intros s t Hlen H.
  - destruct s; [discriminate|simpl in Hlen; lia].
  - destruct s as [|c r]; [discriminate|]. simpl in Hlen. simpl in H.
    destruct (isDigit c) eqn:Hc; [|discriminate].
    destruct (numbers r) as [t'|] eqn:Hr.
    + inv H. apply IH in Hr; [|lia].
      destruct Hr as (a & rest & tail & Hall & -> & ->).
      exists (String c a), rest, tail. split; [|split].
      * inv Hall. constructor; [now constructor|assumption].
      * apply concat_cons_digit.
      * reflexivity.
    + assert (Hone : exists a rest tail,
                 Forall isNumber (a :: rest) /\
                 String c "" = String.concat "." (a :: rest) /\
                 String c r = String c "" ++ tail).
      { exists (String c ""), [], r. repeat split.
        constructor; [now constructor|constructor]. }
      destruct r as [|d r']; [inv H; exact Hone|].
      destruct (Ascii.eqb d "."%char) eqn:Hd; [|inv H; exact Hone].
      destruct (numbers r') as [t'|] eqn:Hr'; [|inv H; exact Hone].
      inv H. apply Ascii.eqb_eq in Hd. subst d.
      apply IH in Hr'; [|simpl in Hlen; lia].
      destruct Hr' as (a & rest & tail & Hall & -> & ->).
      exists (String c ""), (a :: rest), tail. split; [|split].
      * constructor; [now constructor|assumption].
      * reflexivity.
      * reflexivity.
Qed.

Lemma dotted_sound s t :
  dotted s = Some t -> isDotted t /\ exists tail, s = t ++ tail.
Proof.
  unfold dotted. intros H.
  destruct (numbers s) as [x|] eqn:Hx; [|discriminate].
  destruct (hasDot x) eqn:Hdot; [|discriminate]. inv H.
  apply (numbers_sound (n:=String.length s)) in Hx; [|lia].
  destruct Hx as (a & rest & tail & Hall & -> & ->).
  split; [|eauto].
  destruct rest as [|b rest].
  - simpl in Hdot. inv Hall. rewrite isNumber_no_dot in Hdot by assumption.
    discriminate.
  - exists a, b, rest. split; [assumption|reflexivity].
Qed.

Lemma matchHere_sound s t :
  matchHere s = Some t -> isVersion t /\ exists tail, s = t ++ tail.
Proof.
  unfold matchHere. intros H.
  assert (Hplain : dotted s = Some t -> isVersion t /\ exists tail, s = t ++ tail).
  { intros E. apply dotted_sound in E. destruct E as [E1 E2].
    split; [now left|assumption]. }
  destruct s as [|c r]; [auto|].
  destruct (Ascii.eqb c "v"%char) eqn:Hv; [|auto].
  destruct (dotted r) as [x|] eqn:Hx; [|auto].
  inv H. apply Ascii.eqb_eq in Hv. subst c.
  apply dotted_sound in Hx. destruct Hx as [Hd [tail ->]].
  split; [right; eauto|]. exists tail. reflexivity.
Qed.

Lemma isDotted_nonempty t : isDotted t -> t <> "".
Proof.
  intros (a & b & rest & Hall & ->). inv Hall.
  destruct (isNumber_nonempty H1) as (c & r & -> & _). discriminate.
Qed.

Lemma isVersion_nonempty t : isVersion t -> t <> "".
Proof.
  intros [H|(s & _ & ->)]; [now apply isDotted_nonempty|discriminate].
Qed.

Lemma FindString_cons c r :
  FindString (String c r) =
    match matchHere (String c r) with
    | Some t => t
    | None => FindString r
    end.
Proof. reflexivity. Qed.

(** What [FindString] finds is a version token that occurs in the text. *)
Lemma FindString_sound s :
  FindString s <> "" -> isVersion (FindString s) /\ occursIn (FindString s) s.
Proof.
  induction s as [|c r IH].
  - intros H. now contradiction H.
  - rewrite FindString_cons.
    destruct (matchHere (String c r)) as [t|] eqn:E.
    + intros _. apply matchHere_sound in E. destruct E as [Hv [tail Ht]].
      split; [assumption|]. exists "", tail. exact Ht.
    + intros H. destruct (IH H) as [Hv (before & after & Ho)].
      split; [assumption|]. exists (String c before), after.
      simpl. now rewrite <- Ho.
Qed.

Lemma numbers_digit c r :
  isDigit c = true -> exists x, numbers (String c r) = Some (String c x).
Proof.
  intros H. simpl. rewrite H.
  destruct (numbers r); eauto.
  destruct r as [|d r']; eauto.
  destruct (Ascii.eqb d "."%char); eauto.
  destruct (numbers r'); eauto.
Qed.

Lemma numbers_step c r x :
  isDigit c = true -> numbers r = Some x ->
  numbers (String c r) = Some (String c x).
Proof. intros H Hx. simpl. now rewrite H, Hx. Qed.

Lemma numbers_dot_step c u x :
  isDigit c = true -> numbers u = Some x ->
  numbers (String c (String "." u)) = Some (String c (String "." x)).
Proof. intros H Hx. simpl. now rewrite H, Hx. Qed.

Lemma numbers_number a :
  isNumber a -> forall tail, exists x, numbers (a ++ tail) = Some (a ++ x).
Proof.
  induction 1 as [c H|c s H _ IH]; intros tail.
  - apply numbers_digit. assumption.
  - destruct (IH tail) as [x Hx]. exists x.
    change (numbers (String c (s ++ tail)) = Some (String c (s ++ x))).
    now apply numbers_step.
Qed.

Lemma numbers_number_dot a u xu :
  isNumber a -> numbers u = Some xu ->
  numbers (a ++ "." ++ u) = Some (a ++ "." ++ xu).
Proof.
  intros Ha Hu. induction Ha as [c H|c s H _ IH].
  - now apply numbers_dot_step.
  - change (numbers (String c (s ++ "." ++ u)) = Some (String c (s ++ "." ++ xu))).
    now apply numbers_step.
Qed.

(** [numbers] takes at least the numbers that stand at the start. *)
Lemma numbers_complete rest :
  forall a tail,
    Forall isNumber (a :: rest) ->
    exists x, numbers (String.concat "." (a :: rest) ++ tail)
              = Some (String.concat "." (a :: rest) ++ x).
Proof.
  induction rest as [|b rest IH]; intros a tail Hall; inv Hall.
  - simpl. now apply numbers_number.
  - destruct (IH b tail H2) as [x Hx]. exists x.
    change (String.concat "." (a :: b :: rest))
      with (a ++ "." ++ String.concat "." (b :: rest)).
    rewrite !append_assoc. simpl.
    change (numbers (a ++ "." ++ (String.concat "." (b :: rest) ++ tail))
            = Some (a ++ "." ++ (String.concat "." (b :: rest) ++ x))).
    now apply numbers_number_dot.
Qed.

Lemma dotted_complete t tail : isDotted t -> exists x, dotted (t ++ tail) = Some x.
Proof.
  intros (a & b & rest & Hall & ->).
  destruct (numbers_complete tail Hall) as [x Hx].
  unfold dotted. rewrite Hx.
  assert (Hdot : hasDot (String.concat "." (a :: b :: rest) ++ x) = true).
  { change (String.concat "." (a :: b :: rest))
      with (a ++ "." ++ String.concat "." (b :: rest)).
    rewrite !hasDot_app. simpl. now rewrite orb_true_r. }
  rewrite Hdot. eauto.
Qed.

Lemma matchHere_complete t tail :
  isVersion t -> exists x, matchHere (t ++ tail) = Some x.
Proof.
  intros [Hd|(s & Hd & ->)].
  - destruct (dotted_complete tail Hd) as [x Hx].
    destruct Hd as (a & b & rest & Hall & ->).
    inversion Hall as [|? ? Ha _]; subst.
    destruct (isNumber_nonempty Ha) as (c & r & -> & Hc).
    revert Hx.
    change (String.concat "." (String c r :: b :: rest) ++ tail)
      with (String c ((r ++ "." ++ String.concat "." (b :: rest)) ++ tail)).
    intros Hx. unfold matchHere. rewrite (digit_not_v _ Hc). eauto.
  - destruct (dotted_complete tail Hd) as [x Hx].
    change (String "v" s ++ tail) with (String "v" (s ++ tail)).
    unfold matchHere. rewrite Ascii.eqb_refl, Hx. eauto.
Qed.

Lemma matchHere_nonempty s t : matchHere s = Some t -> t <> "".
Proof. intros H. apply matchHere_sound in H. now apply isVersion_nonempty. Qed.

(** [FindString] finds a token in every text in which one occurs. *)
Lemma FindString_complete s t :
  isVersion t -> occursIn t s -> FindString s <> "".
Proof.
  intros Hv (before & after & ->).
  induction before as [|c b IH].
  - simpl. destruct (matchHere_complete after Hv) as [x Hx].
    destruct (t ++ after) as [|c r] eqn:E.
    + apply isVersion_nonempty in Hv. destruct t; [contradiction|discriminate].
    + rewrite FindString_cons, Hx. now apply matchHere_nonempty in Hx.
  - change (String c b ++ t ++ after) with (String c (b ++ t ++ after)).
    rewrite FindString_cons.
    destruct (matchHere (String c (b ++ t ++ after))) as [x|] eqn:E.
    + now apply matchHere_nonempty in E.
    + exact IH.
Qed.

End VersionPattern.

(** ** The version gate *)

Section VersionGate.

Variable X : Externals.
Variable h : PluginHelpers.

Lemma checkHelmVersion_unfold p w gc stdout stderr fs :
  GeneralConfig h = Some gc ->
  execRun X (HelmConfig.Command (helmConfig gc)) versionArgs (helmEnv p) (disk w)
    = ((stdout, stderr, None), fs) ->
  checkHelmVersion X h p w =
    (Returns
       (if (regexp.FindString stdout =? "")%string then
          Some (Errorf ("cannot find version string in " ++ stdout))
        else if (majorVersion (regexp.FindString stdout) =? "3")%string then None
        else Some (Errorf ("this plugin requires helm V3 but got v"
                           ++ dropLeadingV (regexp.FindString stdout)))),
     p,
     {| disk := fs;
        trace := EvExec (HelmConfig.Command (helmConfig gc)) versionArgs (helmEnv p)
                 :: trace w;
        drawn := drawn w |}).
Proof.
  intros Hgc Hrun. unfold checkHelmVersion, runHelmCommand. mred.
  rewrite Hgc. fold versionArgs. rewrite Hrun.
  cbv beta iota zeta delta [fst snd].
  unfold majorVersion.
  destruct (regexp.FindString stdout =? "")%string; [reflexivity|].
  destruct (hd "" (strings.Split (dropLeadingV (regexp.FindString stdout)) ".")
            =? "3")%string; reflexivity.
Qed.

(** C8: when the version probe prints [stdout], the gate passes exactly
    when the leftmost version token of [stdout] has the major version 3.
    What it reads is a token of the shape v?\d+(\.\d+)+ that occurs in the
    output, and it finds one whenever one occurs; an output in which no
    such token occurs is an error; the reported versions v2.16.1, 3.14.0
    and v3.0.0 fail, pass and pass. *)
Theorem version_gate p w gc stdout stderr fs :
  GeneralConfig h = Some gc ->
  execRun X (HelmConfig.Command (helmConfig gc)) versionArgs (helmEnv p) (disk w)
    = ((stdout, stderr, None), fs) ->
  exists err w',
    checkHelmVersion X h p w = (Returns err, p, w') /\
    (err = None <->
     regexp.FindString stdout <> "" /\
     majorVersion (regexp.FindString stdout) = "3") /\
    (regexp.FindString stdout <> "" ->
     isVersion (regexp.FindString stdout) /\
     occursIn (regexp.FindString stdout) stdout) /\
    (forall t, isVersion t -> occursIn t stdout -> regexp.FindString stdout <> "") /\
    ((forall t, isVersion t -> ~ occursIn t stdout) -> err <> None) /\
    (stdout = "v2.16.1" -> err <> None) /\
    (stdout = "3.14.0" -> err = None) /\
    (stdout = "v3.0.0" -> err = None).
Proof.
  intros Hgc Hrun.
  rewrite (checkHelmVersion_unfold _ _ Hgc Hrun).
  do 2 eexists. split; [reflexivity|].
  assert (Hiff :
    (if (regexp.FindString stdout =? "")%string then
       Some (Errorf ("cannot find version string in " ++ stdout))
     else if (majorVersion (regexp.FindString stdout) =? "3")%string then None
     else Some (Errorf ("this plugin requires helm V3 but got v"
                        ++ dropLeadingV (regexp.FindString stdout)))) = None <->
    regexp.FindString stdout <> "" /\
    majorVersion (regexp.FindString stdout) = "3").
  { destruct (regexp.FindString stdout =? "")%string eqn:E.
    - apply String.eqb_eq in E. split; [discriminate|]. intros [H _]. contradiction.
    - apply String.eqb_neq in E.
      destruct (majorVersion (regexp.FindString stdout) =? "3")%string eqn:E3.
      + apply String.eqb_eq in E3. tauto.
      + apply String.eqb_neq in E3. split; [discriminate|]. intros [_ H]. contradiction. }
  split; [exact Hiff|]. split; [apply FindString_sound|].
  split; [intros t Hv Ho; exact (FindString_complete Hv Ho)|].
  split; [|split; [|split]].
  - intros Hnone Herr. apply Hiff in Herr. destruct Herr as [Hfound _].
    destruct (FindString_sound _ Hfound) as [Hv Ho]. exact (Hnone _ Hv Ho).
  - intros ->. discriminate.
  - intros ->. reflexivity.
  - intros ->. reflexivity.
Qed.

End VersionGate.

(** The gate on three machines: helm 2.16.1 is refused, helm 3.14.0 and a
    helm that prints build metadata after v3.14.0 pass. *)
Lemma version_gate_witness :
  let h := Scenario.helpers Scenario.enabled Scenario.resources in
  (exists e w',
     checkHelmVersion (Scenario.machine "v2.16.1" "" [] [] []) h
       Scenario.nginx Scenario.world0 = (Returns (Some e), Scenario.nginx, w')) /\
  (exists w',
     checkHelmVersion (Scenario.machine "3.14.0" "" [] [] []) h
       Scenario.nginx Scenario.world0 = (Returns None, Scenario.nginx, w')) /\
  (exists w',
     checkHelmVersion Scenario.machine0 h
       Scenario.nginx Scenario.world0 = (Returns None, Scenario.nginx, w')).
Proof.
  intros h. split; [|split].
  - destruct (@version_gate (Scenario.machine "v2.16.1" "" [] [] []) h
                Scenario.nginx Scenario.world0 _ "v2.16.1" "" Scenario.disk0
                eq_refl eq_refl)
      as (err & w' & Hrun & _ & _ & _ & _ & Hbad & _).
    destruct err as [e|]; [eauto|]. now contradiction Hbad.
  - destruct (@version_gate (Scenario.machine "3.14.0" "" [] [] []) h
                Scenario.nginx Scenario.world0 _ "3.14.0" "" Scenario.disk0
                eq_refl eq_refl)
      as (err & w' & Hrun & _ & _ & _ & _ & _ & Hok & _).
    rewrite (Hok eq_refl) in Hrun. eauto.
  - destruct (@version_gate Scenario.machine0 h
                Scenario.nginx Scenario.world0 _ "v3.14.0+g3fc9f4b" ""
                Scenario.disk0 eq_refl eq_refl)
      as (err & w' & Hrun & Hiff & _).
    assert (E : err = None) by (apply Hiff; split; [discriminate|reflexivity]).
    rewrite E in Hrun. eauto.
Defined.

(** ** How the methods change the plugin and the world *)

Section Evolution.

Variable X : Externals.
Variable h : PluginHelpers.

Lemma loadsOf_app a b : loadsOf (a ++ b) = (loadsOf a ++ loadsOf b)%list.
Proof. apply flat_map_app. Qed.

Lemma writesOf_app a b : writesOf (a ++ b) = (writesOf a ++ writesOf b)%list.
Proof. apply flat_map_app. Qed.

Lemma mkdirsOf_app a b : mkdirsOf (a ++ b) = (mkdirsOf a ++ mkdirsOf b)%list.
Proof. apply flat_map_app. Qed.

Lemma evolves_refl p w : evolves p w p w [].
Proof. constructor; simpl; auto; intros; contradiction. Qed.

Lemma evolves_trans p w p1 w1 n1 p2 w2 n2 :
  evolves p w p1 w1 n1 -> evolves p1 w1 p2 w2 n2 ->
  evolves p w p2 w2 (n2 ++ n1).
Proof.
  intros [T1 N1 V1 C1 R1 H1 M1 K1 D1] [T2 N2 V2 C2 R2 H2 M2 K2 D2].
  constructor; try congruence.
  - rewrite T2, T1. now rewrite app_assoc.
  - intros Hset. destruct (K1 Hset) as [E1 L1].
    assert (Hset1 : tmpDir p1 <> "") by congruence.
    destruct (K2 Hset1) as [E2 L2].
    split; [congruence|]. rewrite mkdirsOf_app, L1, L2. reflexivity.
  - intros dir Hin. rewrite mkdirsOf_app in Hin. apply in_app_or in Hin.
    destruct Hin as [Hin|Hin].
    + now apply D2.
    + destruct (D1 _ Hin) as [E Hne]. split; [|assumption].
      assert (Hset1 : tmpDir p1 <> "") by congruence.
      destruct (K2 Hset1) as [E2 _]. congruence.
Qed.

(** An assignment to [ValuesFile] or [ValuesInline] changes nothing of
    what [evolves] follows. *)
Lemma evolves_setValuesFile p w p' w' new v :
  evolves p w p' w' new -> evolves p w (setValuesFile v p') w' new.
Proof. intros []. constructor; auto. Qed.

Lemma evolves_setValuesInline p w p' w' new v :
  evolves p w p' w' new -> evolves p w (setValuesInline v p') w' new.
Proof. intros []. constructor; auto. Qed.

Lemma runHelmCommand_evolves args p w r p' w' :
  runHelmCommand X h args p w = (r, p', w') ->
  p' = p /\
  exists new, evolves p w p' w' new /\ loadsOf new = [] /\ writesOf new = [].
Proof.
  unfold runHelmCommand. intros H.
  destruct (GeneralConfig h) as [gc|].
  - destruct (execRun X (HelmConfig.Command (helmConfig gc)) args (helmEnv p) (disk w))
      as [[[stdout stderr] err] fs].
    injection H as Hr Hp Hw. subst r p' w'. split; [reflexivity|].
    exists [EvExec (HelmConfig.Command (helmConfig gc)) args (helmEnv p)].
    split; [|split; reflexivity].
    constructor; simpl; auto; intros; contradiction.
  - inv H. split; [reflexivity|]. exists []. split; [apply evolves_refl|]. auto.
Qed.

Lemma checkHelmVersion_evolves p w r p' w' :
  checkHelmVersion X h p w = (r, p', w') ->
  p' = p /\
  exists new, evolves p w p' w' new /\ loadsOf new = [] /\ writesOf new = [].
Proof.
  unfold checkHelmVersion. intros H. mred.
  destruct (runHelmCommand X h ["version"; "-c"; "--short"] p w)
    as [[r1 p1] w1] eqn:E1.
  apply runHelmCommand_evolves in E1. destruct E1 as (-> & new & Hev & Hl & Hw).
  destruct r1 as [out|why].
  - assert (p' = p /\ w' = w1) as [-> ->]
      by (repeat break_match; inv H; auto).
    eauto.
  - inv H. eauto.
Qed.

Lemma chartExistsLocally_evolves p w r p' w' :
  chartExistsLocally h p w = (r, p', w') ->
  p' = p /\ w' = w /\
  r = Returns (match disk w (filepath.Join [absChartHome h p; Name p]) with
               | Some s => (filepath.Join [absChartHome h p; Name p], os.IsDir s)
               | None => ("", false)
               end).
Proof.
  unfold chartExistsLocally, os.Stat. intros H. mred.
  destruct (disk w (filepath.Join [absChartHome h p; Name p])); inv H; auto.
Qed.

Lemma append_nonempty a c b : a ++ String c b <> "".
Proof. destruct a; discriminate. Qed.

Lemma establishTmpDir_evolves p w r p' w' :
  establishTmpDir X p w = (r, p', w') ->
  sameValues p p' /\
  exists new, evolves p w p' w' new /\ loadsOf new = [] /\ writesOf new = [] /\
    exists err, r = Returns err /\ (err = None -> tmpDir p' <> "").
Proof.
  unfold establishTmpDir, MkdirTemp. intros H. mred.
  destruct (tmpDir p =? "")%string eqn:E; cbv beta iota delta [negb] in H.
  - apply String.eqb_eq in E.
    set (dir := TempDir X ++ "/" ++ "kustomize-helm-" ++ nextRandom X (drawn w)) in *.
    assert (Hdir : dir <> "") by apply append_nonempty.
    destruct (disk w dir); mred;
      injection H as Hr Hp Hw; subst r p' w'; (split; [split; reflexivity|]).
    + exists []. split; [|split; [reflexivity|split; [reflexivity|]]].
      * constructor; simpl; auto; intros; contradiction.
      * eexists; split; [reflexivity|discriminate].
    + exists [EvMkdirTemp dir].
      split; [|split; [reflexivity|split; [reflexivity|eauto]]].
      constructor; simpl; auto; try contradiction.
      intros d [<-|[]]. split; [reflexivity|assumption].
  - apply String.eqb_neq in E. injection H as Hr Hp Hw; subst r p' w'.
    split; [split; reflexivity|]. exists [].
    split; [apply evolves_refl|]. repeat split; eauto.
Qed.

Lemma writeValuesBytes_evolves b p w r p' w' :
  writeValuesBytes X b p w = (r, p', w') ->
  sameValues p p' /\
  exists new, evolves p w p' w' new /\ loadsOf new = [] /\
    exists path err, r = Returns (path, err) /\
      match err with
      | None => writesOf new = [(path, b)] /\ disk w' path = Some (File b)
      | Some _ => writesOf new = []
      end.
Proof.
  unfold writeValuesBytes. intros H. mred.
  destruct (establishTmpDir X p w) as [[r1 p1] w1] eqn:E1.
  apply establishTmpDir_evolves in E1.
  destruct E1 as (Hsame & new & Hev & Hl & Hw & err & -> & Hset).
  destruct err as [e|].
  - injection H as Hr Hp Hw'; subst r p' w'. split; [assumption|].
    exists new. split; [assumption|split; [assumption|]].
    do 2 eexists. split; [reflexivity|assumption].
  - unfold WriteFile, os.WriteFile in H.
    set (path := filepath.Join [tmpDir p1; Name p1 ++ "-kustomize-values.yaml"]) in *.
    assert (Hfail : forall e,
              (r, p', w') = (Returns (path, WrapPrefixf (Some e) "failed to write values file"), p1, w1) ->
              sameValues p p' /\
              exists new, evolves p w p' w' new /\ loadsOf new = [] /\
                exists path err, r = Returns (path, err) /\
                  match err with
                  | None => writesOf new = [(path, b)] /\ disk w' path = Some (File b)
                  | Some _ => writesOf new = []
                  end).
    { intros e E. injection E as Hr Hp Hw'; subst r p' w'. split; [assumption|].
      exists new. split; [assumption|split; [assumption|]].
      do 2 eexists. split; [reflexivity|assumption]. }
    destruct (disk w1 (filepath.Dir path)) as [[|c]|]; try (symmetry in H; eauto; fail).
    destruct (disk w1 path) as [[|c]|] eqn:Hp1; try (symmetry in H; eauto; fail);
      injection H as Hr Hp Hw'; subst r p' w'; (split; [assumption|]);
      exists (EvWriteFile path b :: new);
      (split; [|split; [simpl; assumption|]]);
      try (do 2 eexists; split; [reflexivity|]; simpl; rewrite Hw; split;
           [reflexivity|unfold os.put; now rewrite String.eqb_refl]);
      change (EvWriteFile path b :: new) with ([EvWriteFile path b] ++ new)%list;
      (eapply evolves_trans; [exact Hev|]);
      constructor; simpl; auto; intros; contradiction.
Qed.

Lemma copyValuesFile_evolves p w r p' w' :
  copyValuesFile X h p w = (r, p', w') ->
  sameValues p p' /\
  exists new, evolves p w p' w' new /\
    loadsOf new = [(ValuesFile p, Load (getLoader h) (disk w) (ValuesFile p))] /\
    exists path err, r = Returns (path, err) /\
      match err with
      | None =>
          exists b, Load (getLoader h) (disk w) (ValuesFile p) = Ok b /\
                    writesOf new = [(path, b)] /\ disk w' path = Some (File b)
      | Some _ => writesOf new = []
      end.
Proof.
  unfold copyValuesFile. intros H. mred. unfold load in H.
  destruct (Load (getLoader h) (disk w) (ValuesFile p)) as [b|e] eqn:EL.
  - apply writeValuesBytes_evolves in H.
    destruct H as (Hsame & new & Hev & Hl & path & err & -> & Hres).
    split; [exact Hsame|].
    exists (new ++ [EvLoad (ValuesFile p) (Ok b)])%list. split; [|split].
    + eapply evolves_trans; [|exact Hev].
      constructor; simpl; auto; intros; contradiction.
    + rewrite loadsOf_app, Hl. reflexivity.
    + exists path, err. split; [reflexivity|].
      destruct err; rewrite writesOf_app; simpl; rewrite app_nil_r; eauto.
  - injection H as Hr Hp Hw'; subst r p' w'. split; [split; reflexivity|].
    exists [EvLoad (ValuesFile p) (Err e)]. split; [|split; [reflexivity|]].
    + constructor; simpl; auto; intros; contradiction.
    + do 2 eexists. split; reflexivity.
Qed.

Lemma replaceValuesInline_evolves p w r p' w' :
  replaceValuesInline X h p w = (r, p', w') ->
  ValuesFile p' = ValuesFile p /\
  exists new, evolves p w p' w' new /\ writesOf new = [] /\
    loadsOf new = [(ValuesFile p, Load (getLoader h) (disk w) (ValuesFile p))] /\
    exists err, r = Returns err.
Proof.
  unfold replaceValuesInline. intros H. mred. unfold load in H.
  assert (Hev : evolves p w p (emit (EvLoad (ValuesFile p)
                   (Load (getLoader h) (disk w) (ValuesFile p))) w)
                  [EvLoad (ValuesFile p) (Load (getLoader h) (disk w) (ValuesFile p))]).
  { constructor; simpl; auto; intros; contradiction. }
  destruct (Load (getLoader h) (disk w) (ValuesFile p)) as [b|e];
    [destruct (kyamlParse X b) as [chValues|e];
     [unfold kyaml.FromMap in H; cbv beta iota zeta in H;
      match type of H with
      | context [mapOf ?o] => destruct (mapOf o) as [mapValues|e]
      end|]|];
    mred; injection H as Hr Hp Hw'; subst r p' w';
    (split; [reflexivity|]); eexists; (split; [|split; [|split]]);
    try (apply evolves_setValuesInline); try exact Hev; try reflexivity; eauto.
Qed.

Lemma createNewMergedValuesFile_evolves p w r p' w' :
  createNewMergedValuesFile X h p w = (r, p', w') ->
  ValuesFile p' = ValuesFile p /\
  exists new, evolves p w p' w' new /\
    exists path err, r = Returns (path, err) /\
      match err with
      | None =>
          exists b, yamlMarshal X (ValuesInline p') = Ok b /\
                    writesOf new = [(path, b)] /\ disk w' path = Some (File b)
      | Some _ => writesOf new = []
      end /\
      (mergesWithBase p = false -> sameValues p p' /\ loadsOf new = []).
Proof.
  unfold createNewMergedValuesFile. intros H. mred. fold (mergesWithBase p) in H.
  destruct (mergesWithBase p) eqn:Hm.
  - destruct (replaceValuesInline X h p w) as [[r1 p1] w1] eqn:E1.
    apply replaceValuesInline_evolves in E1.
    destruct E1 as (Hvf & new1 & Hev1 & Hw1 & _ & err & ->).
    destruct err as [e|]; mred.
    + injection H as Hr Hp Hw'; subst r p' w'. split; [assumption|].
      exists new1. split; [assumption|].
      do 2 eexists. split; [reflexivity|]. split; [assumption|discriminate].
    + destruct (yamlMarshal X (ValuesInline p1)) as [b|e] eqn:Em.
      * apply writeValuesBytes_evolves in H.
        destruct H as ((Hvf2 & Hvi2) & new2 & Hev2 & _ & path & err & -> & Hres).
        split; [congruence|]. exists (new2 ++ new1)%list.
        split; [eapply evolves_trans; eassumption|].
        exists path, err. split; [reflexivity|]. split; [|discriminate].
        rewrite writesOf_app, Hw1, app_nil_r.
        destruct err; [assumption|]. destruct Hres. rewrite Hvi2. eauto.
      * injection H as Hr Hp Hw'; subst r p' w'. split; [assumption|].
        exists new1. split; [assumption|].
        do 2 eexists. split; [reflexivity|]. split; [assumption|discriminate].
  - mred. destruct (yamlMarshal X (ValuesInline p)) as [b|e] eqn:Em.
    + apply writeValuesBytes_evolves in H.
      destruct H as (Hsame & new & Hev & Hl & path & err & -> & Hres).
      split; [apply Hsame|]. exists new. split; [assumption|].
      exists path, err. split; [reflexivity|]. split; [|auto].
      destruct err; [assumption|]. destruct Hres, Hsame as [_ Hvi].
      rewrite Hvi. eauto.
    + injection H as Hr Hp Hw'; subst r p' w'. split; [reflexivity|].
      exists []. split; [apply evolves_refl|].
      do 2 eexists. split; [reflexivity|]. split; [reflexivity|].
      intros _. split; [split|]; reflexivity.
Qed.

Lemma runHelmCommand_ok args p w stdout p' w' :
  runHelmCommand X h args p w = (Returns (stdout, None), p', w') ->
  exists gc stderr,
    GeneralConfig h = Some gc /\
    execRun X (HelmConfig.Command (helmConfig gc)) args (helmEnv p) (disk w)
      = ((stdout, stderr, None), disk w').
Proof.
  unfold runHelmCommand. intros H.
  destruct (GeneralConfig h) as [gc|]; [|discriminate].
  destruct (execRun X (HelmConfig.Command (helmConfig gc)) args (helmEnv p) (disk w))
    as [[[out stderr] err] fs] eqn:Hrun.
  destruct err as [e|]; [discriminate|].
  injection H as Hr Hp Hw'; subst out p' w'. simpl. eauto.
Qed.

Lemma absChartHome_evolves p w p' w' new :
  evolves p w p' w' new -> absChartHome h p' = absChartHome h p.
Proof.
  intros [_ N V C _ _ _ _ _]. unfold absChartHome. rewrite N, V, C. reflexivity.
Qed.

Lemma inline_present p :
  Nat.ltb 0 (length (ValuesInline p)) = true <-> ValuesInline p <> [].
Proof.
  destruct (ValuesInline p); simpl; split; try discriminate; try reflexivity.
  intros H. now contradiction H.
Qed.

(** What the first part of [Generate] wrote and loaded, and on what disk
    its render ran. *)
Lemma Generate_render_evolves p w r p' w' :
  Generate_render X h p w = (r, p', w') ->
  exists new, evolves p w p' w' new /\
    (forall path b, In (path, b) (writesOf new) ->
       (ValuesInline p = [] -> In (ValuesFile p, Ok b) (loadsOf new)) /\
       (ValuesInline p <> [] -> mergesWithBase p = false ->
        yamlMarshal X (ValuesInline p) = Ok b)) /\
    (ValuesInline p <> [] -> mergesWithBase p = false -> loadsOf new = []) /\
    (forall stdout, r = Returns (Ok stdout) ->
       exists gc fs stderr b,
         GeneralConfig h = Some gc /\
         execRun X (HelmConfig.Command (helmConfig gc))
           (AsHelmArgs X p' (absChartHome h p)) (helmEnv p) fs
           = ((stdout, stderr, None), disk w') /\
         fs (ValuesFile p') = Some (File b) /\
         In (ValuesFile p', b) (writesOf new)).
Proof.
  unfold Generate_render. intros H. mred.
  (* the version gate *)
  destruct (checkHelmVersion X h p w) as [[r1 p1] w1] eqn:E1.
  apply checkHelmVersion_evolves in E1.
  destruct E1 as (-> & new1 & Hev1 & Hl1 & Hw1).
  assert (Hquiet : forall n, loadsOf n = [] -> writesOf n = [] ->
            evolves p w p' w' n ->
            (forall stdout, r <> Returns (Ok stdout)) ->
            exists new, evolves p w p' w' new /\
              (forall path b, In (path, b) (writesOf new) ->
                 (ValuesInline p = [] -> In (ValuesFile p, Ok b) (loadsOf new)) /\
                 (ValuesInline p <> [] -> mergesWithBase p = false ->
                  yamlMarshal X (ValuesInline p) = Ok b)) /\
              (ValuesInline p <> [] -> mergesWithBase p = false -> loadsOf new = []) /\
              (forall stdout, r = Returns (Ok stdout) ->
                 exists gc fs stderr b,
                   GeneralConfig h = Some gc /\
                   execRun X (HelmConfig.Command (helmConfig gc))
                     (AsHelmArgs X p' (absChartHome h p)) (helmEnv p) fs
                     = ((stdout, stderr, None), disk w') /\
                   fs (ValuesFile p') = Some (File b) /\
                   In (ValuesFile p', b) (writesOf new))).
  { intros n Hl Hw Hev Hr. exists n. split; [assumption|]. rewrite Hl, Hw.
    split; [intros ? ? []|]. split; [auto|]. intros stdout E. now destruct (Hr stdout). }
  destruct r1 as [[e|]|why];
    [ injection H as Hr Hp Hw'; subst r p' w';
      apply (Hquiet new1); auto; discriminate
    | | injection H as Hr Hp Hw'; subst r p' w';
        apply (Hquiet new1); auto; discriminate ].
  (* the chart, local or pulled *)
  destruct (chartExistsLocally h p w1) as [[r2 p2] w2] eqn:E2.
  apply chartExistsLocally_evolves in E2. destruct E2 as (-> & -> & ->).
  mred.
  match type of H with
  | context [(if negb (snd ?loc) then ?a else ?b) p w1] =>
      destruct ((if negb (snd loc) then a else b) p w1) as [[r3 p3] w3] eqn:E3;
      assert (Hpre : p3 = p /\
                     exists new3, evolves p w p w3 new3 /\
                       loadsOf new3 = [] /\ writesOf new3 = [] /\
                       (r3 = Returns None \/ (exists e, r3 = Returns (Some e))
                        \/ exists why, r3 = Panics why))
  end.
  { destruct (negb _).
    - destruct (Repo p =? "")%string.
      + injection E3 as Hr Hp Hw'; subst r3 p3 w3. split; [reflexivity|].
        exists new1. split; [assumption|split; [assumption|split; [assumption|]]].
        eauto.
      + mred.
        destruct (runHelmCommand X h (pullCommand h p) p w1) as [[r4 p4] w4] eqn:E4.
        apply runHelmCommand_evolves in E4.
        destruct E4 as (-> & new4 & Hev4 & Hl4 & Hw4).
        assert (Hev : evolves p w p w4 (new4 ++ new1))
          by (eapply evolves_trans; eassumption).
        destruct r4 as [[out err]|why]; injection E3 as Hr Hp Hw'; subst r3 p3 w3;
          (split; [reflexivity|]); exists (new4 ++ new1)%list;
          rewrite loadsOf_app, writesOf_app, Hl1, Hw1, Hl4, Hw4;
          (split; [assumption|]); (split; [reflexivity|]); (split; [reflexivity|]);
          simpl; [destruct err|]; eauto.
    - injection E3 as Hr Hp Hw'; subst r3 p3 w3. split; [reflexivity|].
      exists new1. split; [assumption|split; [assumption|split; [assumption|]]].
      eauto. }
  destruct Hpre as (-> & new3 & Hev3 & Hl3 & Hw3 & Hr3).
  clear E3 new1 Hev1 Hl1 Hw1.
  destruct Hr3 as [->|[[e ->]|[why ->]]];
    [ | injection H as Hr Hp Hw'; subst r p' w';
        apply (Hquiet new3); auto; discriminate
      | injection H as Hr Hp Hw'; subst r p' w';
        apply (Hquiet new3); auto; discriminate ].
  (* the values file *)
  match type of H with
  | context [(if Nat.ltb 0 (length (ValuesInline p)) then ?merged else ?copied) p w3] =>
      destruct ((if Nat.ltb 0 (length (ValuesInline p)) then merged else copied) p w3)
        as [[r5 p5] w5] eqn:E5;
      assert (Hvalues :
        exists new5, evolves p w3 p5 w5 new5 /\
          exists path err, r5 = Returns (path, err) /\
            match err with
            | None => exists b, writesOf new5 = [(path, b)] /\
                                disk w5 path = Some (File b)
            | Some _ => writesOf new5 = []
            end /\
            (forall q b, In (q, b) (writesOf new5) ->
               (ValuesInline p = [] -> In (ValuesFile p, Ok b) (loadsOf new5)) /\
               (ValuesInline p <> [] -> mergesWithBase p = false ->
                yamlMarshal X (ValuesInline p) = Ok b)) /\
            (ValuesInline p <> [] -> mergesWithBase p = false -> loadsOf new5 = []))
  end.
  { destruct (Nat.ltb 0 (length (ValuesInline p))) eqn:Hinline.
    - apply inline_present in Hinline.
      apply createNewMergedValuesFile_evolves in E5.
      destruct E5 as (Hvf & new5 & Hev5 & path & err & -> & Hres & Hreplace).
      exists new5. split; [assumption|]. exists path, err.
      split; [reflexivity|]. split; [|split].
      + destruct err; [assumption|]. destruct Hres as (b & _ & ? & ?). eauto.
      + intros q b Hin. split; [intros E; contradiction|].
        intros _ Hm. destruct (Hreplace Hm) as ((_ & Hvi) & _).
        destruct err as [e|]; [rewrite Hres in Hin; contradiction|].
        destruct Hres as (c & Hc & Hwr & _). rewrite Hwr in Hin.
        destruct Hin as [Hin|[]]. inv Hin. congruence.
      + intros _ Hm. now destruct (Hreplace Hm).
    - assert (Hnone : ValuesInline p = []).
      { destruct (ValuesInline p); [reflexivity|discriminate]. }
      apply copyValuesFile_evolves in E5.
      destruct E5 as (Hsame & new5 & Hev5 & Hl5 & path & err & -> & Hres).
      exists new5. split; [assumption|]. exists path, err.
      split; [reflexivity|]. split; [|split].
      + destruct err; [assumption|]. destruct Hres as (b & _ & ? & ?). eauto.
      + intros q b Hin. split; [|intros E; contradiction].
        intros _. destruct err as [e|]; [rewrite Hres in Hin; contradiction|].
        destruct Hres as (c & Hc & Hwr & _). rewrite Hwr in Hin.
        destruct Hin as [Hin|[]]. inv Hin. rewrite Hl5, Hc. now left.
      + intros E. contradiction. }
  destruct Hvalues as (new5 & Hev5 & path & err & -> & Hres & Hwritten & Hloaded).
  clear E5. mred. cbv beta iota delta [fst snd] in H.
  assert (Hev : evolves p w (setValuesFile path p5) w5 (new5 ++ new3))
    by (apply evolves_setValuesFile; eapply evolves_trans; eassumption).
  destruct err as [e|].
  - injection H as Hr Hp Hw'; subst r p' w'.
    exists (new5 ++ new3)%list. split; [assumption|].
    rewrite loadsOf_app, writesOf_app, Hl3, Hw3, !app_nil_r.
    split; [assumption|]. split; [assumption|discriminate].
  - (* the render *)
    match type of H with
    | context [runHelmCommand X h ?args ?q ?v] =>
        destruct (runHelmCommand X h args q v) as [[r6 p6] w6] eqn:E6
    end.
    pose proof (runHelmCommand_evolves _ _ _ E6) as (-> & new6 & Hev6 & Hl6 & Hw6).
    assert (Hev' : evolves p w (setValuesFile path p5) w6 (new6 ++ new5 ++ new3))
      by (eapply evolves_trans; eassumption).
    assert (Hp' : p' = setValuesFile path p5 /\ w' = w6)
      by (destruct r6 as [[out [e|]]|why]; injection H as Hr Hp Hw'; auto).
    destruct Hp' as [-> ->].
    exists (new6 ++ new5 ++ new3)%list. split; [assumption|].
    rewrite !loadsOf_app, !writesOf_app, Hl3, Hw3, Hl6, Hw6, !app_nil_r. simpl.
    split; [assumption|]. split; [assumption|].
    intros stdout Hr. subst r.
    destruct r6 as [[out [e|]]|why]; try discriminate.
    injection H as Hout. subst out.
    apply runHelmCommand_ok in E6. destruct E6 as (gc & stderr & Hgc & Hrun).
    rewrite (absChartHome_evolves Hev) in Hrun.
    assert (Henv : helmEnv (setValuesFile path p5) = helmEnv p).
    { unfold helmEnv. now rewrite (ev_ConfigHome Hev). }
    rewrite Henv in Hrun.
    destruct Hres as (b & Hwr & Hdisk).
    exists gc, (disk w5), stderr, b. split; [assumption|]. split; [assumption|].
    split; [assumption|]. rewrite Hwr. now left.
Qed.

(** [Generate] is its first part, then the reading of the output, then
    the deferred [cleanup]. *)
Lemma Generate_unfold p w :
  Generate X h p w =
    match Generate_render X h p w with
    | (r, p1, w1) =>
        (match r with
         | Returns (Ok stdout) => Returns (Generate_parse X h stdout)
         | Returns (Err e) => Returns (None, Some e)
         | Panics why => Panics why
         end,
         p1,
         if (tmpDir p1 =? "")%string then w1
         else emit (EvRemoveAll (tmpDir p1)) (onDisk (os.RemoveAll (tmpDir p1)) w1))
    end.
Proof.
  unfold Generate, cleanup. mred.
  destruct (Generate_render X h p w) as [[r p1] w1].
  destruct r as [[stdout|e]|why]; destruct (tmpDir p1 =? "")%string; reflexivity.
Qed.

Lemma within_refl dir : os.within dir dir = true.
Proof. unfold os.within. now rewrite String.eqb_refl. Qed.

Lemma Generate_locate_same p w r p' w' :
  Generate_locate X h p w = (r, p', w') -> p' = p.
Proof.
  unfold Generate_locate. intros H. mred.
  destruct (checkHelmVersion X h p w) as [[r1 p1] w1] eqn:E1.
  apply checkHelmVersion_evolves in E1. destruct E1 as (-> & _).
  destruct r1 as [[e|]|why]; try (injection H as _ Hp _; now subst).
  destruct (chartExistsLocally h p w1) as [[r2 p2] w2] eqn:E2.
  apply chartExistsLocally_evolves in E2. destruct E2 as (-> & -> & ->).
  mred. destruct (negb _); [|injection H as _ Hp _; now subst].
  destruct (Repo p =? "")%string; [injection H as _ Hp _; now subst|].
  mred.
  destruct (runHelmCommand X h (pullCommand h p) p w1) as [[r4 p4] w4] eqn:E4.
  apply runHelmCommand_evolves in E4. destruct E4 as (-> & _).
  destruct r4; injection H as _ Hp _; now subst.
Qed.

(** [Generate_render] by its steps, each on the plugin and the world it
    meets. *)
Lemma Generate_render_phases p w :
  Generate_render X h p w =
    match Generate_locate X h p w with
    | (Returns None, _, w1) =>
        match (if Nat.ltb 0 (length (ValuesInline p))
               then createNewMergedValuesFile X h
               else copyValuesFile X h) p w1 with
        | (Returns (path, Some e), p2, w2) =>
            (Returns (Err e), setValuesFile path p2, w2)
        | (Returns (path, None), p2, w2) =>
            match runHelmCommand X h
                    (AsHelmArgs X (setValuesFile path p2)
                       (absChartHome h (setValuesFile path p2)))
                    (setValuesFile path p2) w2 with
            | (Returns (out, Some e), p3, w3) => (Returns (Err e), p3, w3)
            | (Returns (out, None), p3, w3) => (Returns (Ok out), p3, w3)
            | (Panics why, p3, w3) => (Panics why, p3, w3)
            end
        | (Panics why, p2, w2) => (Panics why, p2, w2)
        end
    | (Returns (Some e), _, w1) => (Returns (Err e), p, w1)
    | (Panics why, _, w1) => (Panics why, p, w1)
    end.
Proof.
  destruct (Generate_locate X h p w) as [[r0 p0] w0] eqn:E0.
  pose proof (Generate_locate_same _ _ E0) as ->.
  revert E0. unfold Generate_render, Generate_locate. mred.
  destruct (checkHelmVersion X h p w) as [[r1 p1] w1] eqn:E1.
  pose proof (checkHelmVersion_evolves _ _ E1) as (-> & _).
  destruct r1 as [[e|]|why]; try (intros E0; injection E0 as <- <-; reflexivity).
  destruct (chartExistsLocally h p w1) as [[r2 p2] w2] eqn:E2.
  pose proof (chartExistsLocally_evolves _ _ E2) as (-> & -> & ->).
  mred.
  match goal with
  | |- ?lhs = _ -> _ =>
      destruct lhs as [[r3 p3] w3] eqn:E3
  end.
  intros E0. injection E0 as -> -> ->.
  destruct r0 as [[e|]|why]; mred; try reflexivity.
  destruct ((if Nat.ltb 0 (length (ValuesInline p))
             then createNewMergedValuesFile X h else copyValuesFile X h) p w0)
    as [[[[path [e|]]|why] p5] w5]; mred; cbv beta iota delta [fst snd];
    try reflexivity.
  destruct (runHelmCommand X h
              (AsHelmArgs X (setValuesFile path p5)
                 (absChartHome h (setValuesFile path p5)))
              (setValuesFile path p5) w5)
    as [[[[out [e|]]|why] p6] w6]; reflexivity.
Qed.

End Evolution.

(** ** The execution environment is removed *)

Section Cleanup.

Variable X : Externals.
Variable h : PluginHelpers.

(** C9: when [Generate] returns, with a result or with any error, or
    panics, there is nothing on the disk at [tmpDir] or below it, if
    [tmpDir] is set; a temporary directory that this call made is the
    [tmpDir], and so is one that was set before the call (by [Config]). *)
Theorem execution_environment_removed p w :
  match Generate X h p w with
  | (r, p', w') =>
      (tmpDir p' <> "" ->
       forall q, os.within (tmpDir p') q = true -> disk w' q = None) /\
      (tmpDir p <> "" -> tmpDir p' = tmpDir p) /\
      exists new,
        trace w' = (new ++ trace w)%list /\
        forall dir, In dir (mkdirsOf new) ->
          dir = tmpDir p' /\ dir <> "" /\ disk w' dir = None
  end.
Proof.
  rewrite Generate_unfold.
  destruct (Generate_render X h p w) as [[r p1] w1] eqn:E.
  apply Generate_render_evolves in E. destruct E as (new & Hev & _).
  assert (Hgone : tmpDir p1 <> "" ->
            forall q, os.within (tmpDir p1) q = true ->
              disk (if (tmpDir p1 =? "")%string then w1
                    else emit (EvRemoveAll (tmpDir p1))
                           (onDisk (os.RemoveAll (tmpDir p1)) w1)) q = None).
  { intros Hset q Hq. apply String.eqb_neq in Hset. rewrite Hset. simpl.
    unfold os.RemoveAll. now rewrite Hq. }
  split; [exact Hgone|]. split; [intros Hset; now apply (ev_tmpDir_kept Hev)|].
  destruct (tmpDir p1 =? "")%string eqn:Et.
  - exists new. split; [apply (ev_trace Hev)|].
    intros dir Hin. destruct (ev_tmpDir_made Hev _ Hin) as [E Hne].
    apply String.eqb_eq in Et. congruence.
  - exists (EvRemoveAll (tmpDir p1) :: new). split.
    + simpl. now rewrite (ev_trace Hev).
    + intros dir Hin. simpl in Hin. destruct (ev_tmpDir_made Hev _ Hin) as [E Hne].
      split; [now symmetry|]. split; [assumption|]. subst dir.
      apply String.eqb_neq in Et. exact (Hgone Et _ (within_refl _)).
Qed.

End Cleanup.

(** [Generate] on the concrete machine renders the chart and leaves no
    temporary directory. *)
Lemma execution_environment_removed_witness :
  match Generate Scenario.machine0 Scenario.h0 Scenario.nginx Scenario.world1 with
  | (r, p', w') =>
      r = Returns (Some [Scenario.configMap], None) /\
      tmpDir p' = "/tmp/kustomize-helm-2718281828" /\
      disk w' "/tmp/kustomize-helm-2718281828" = None /\
      disk w' "/tmp/kustomize-helm-2718281828/nginx-kustomize-values.yaml" = None
  end.
Proof.
  pose proof (execution_environment_removed Scenario.machine0 Scenario.h0
                Scenario.nginx Scenario.world1) as H.
  destruct (Generate Scenario.machine0 Scenario.h0 Scenario.nginx Scenario.world1)
    as [[r p'] w'] eqn:E.
  destruct H as (Hgone & _ & _).
  vm_compute in E. injection E as <- <- <-.
  split; [reflexivity|]. split; [reflexivity|].
  split; apply Hgone; solve [discriminate | reflexivity].
Defined.

(** ** The values file *)

Section ValuesFile.

Variable X : Externals.
Variable h : PluginHelpers.






Lemma Generate_events p w r p' w' :
  Generate X h p w = (r, p', w') ->
  exists r1 w1,
    Generate_render X h p w = (r1, p', w1) /\
    forall new, trace w1 = (new ++ trace w)%list ->
      exists new', trace w' = (new' ++ trace w)%list /\
                   loadsOf new' = loadsOf new /\ writesOf new' = writesOf new.
Proof.
  rewrite Generate_unfold.
  destruct (Generate_render X h p w) as [[r1 p1] w1] eqn:E. intros H.
  injection H as _ <- <-.
  exists r1, w1. split; [reflexivity|]. intros new Ht.
  destruct (tmpDir p1 =? "")%string.
  - exists new. split; [assumption|]. split; reflexivity.
  - exists (EvRemoveAll (tmpDir p1) :: new). simpl.
    rewrite Ht. repeat split; reflexivity.
Qed.


Lemma replace_is_not_merge p :
  ValuesMerge p = valuesMergeOptionReplace -> mergesWithBase p = false.
Proof. intros E. unfold mergesWithBase. rewrite E. reflexivity. Qed.

Lemma absChartHome_sameButLoads h' p :
  sameButLoads h h' -> absChartHome h' p = absChartHome h p.
Proof. intros (_ & Hroot & _). unfold absChartHome. now rewrite Hroot. Qed.

Lemma Generate_locate_sameButLoads h' p w :
  sameButLoads h h' -> Generate_locate X h' p w = Generate_locate X h p w.
Proof.
  intros (Hgc & Hroot & _).
  unfold Generate_locate, checkHelmVersion, runHelmCommand, chartExistsLocally,
    pullCommand, absChartHome.
  rewrite Hgc, Hroot. reflexivity.
Qed.

Lemma runHelmCommand_sameButLoads h' args p w :
  sameButLoads h h' -> runHelmCommand X h' args p w = runHelmCommand X h args p w.
Proof. intros (Hgc & _). unfold runHelmCommand. now rewrite Hgc. Qed.

Lemma createNewMergedValuesFile_replace h' p w :
  mergesWithBase p = false ->
  createNewMergedValuesFile X h' p w = createNewMergedValuesFile X h p w.
Proof.
  intros Hm. unfold createNewMergedValuesFile. mred.
  fold (mergesWithBase p). rewrite Hm. reflexivity.
Qed.

Lemma Generate_replace_sameButLoads h' p w :
  ValuesInline p <> [] -> mergesWithBase p = false -> sameButLoads h h' ->
  Generate X h' p w = Generate X h p w.
Proof.
  intros Hsome Hm Hsame.
  assert (Hrender : Generate_render X h' p w = Generate_render X h p w).
  { rewrite !Generate_render_phases.
    apply inline_present in Hsome. rewrite Hsome.
    rewrite (Generate_locate_sameButLoads _ _ Hsame).
    destruct (Generate_locate X h p w) as [[[[e|]|why] p0] w0]; try reflexivity.
    rewrite (@createNewMergedValuesFile_replace h' p w0 Hm).
    destruct (createNewMergedValuesFile X h p w0) as [[[[path [e|]]|why] p2] w2];
      try reflexivity.
    rewrite (runHelmCommand_sameButLoads _ _ _ Hsame).
    now rewrite (absChartHome_sameButLoads _ Hsame). }
  rewrite !Generate_unfold, Hrender.
  destruct (Generate_render X h p w) as [[[[stdout|e]|why] p1] w1]; try reflexivity.
  unfold Generate_parse. destruct Hsame as (_ & _ & ->). reflexivity.
Qed.

(** C7: with inline values and the policy [replace], [Generate] loads
    nothing through the loader, every file it writes holds what
    [yaml.Marshal] printed for the inline values, the render runs on a disk
    whose values file holds it, and with a loader that reads anything else
    [Generate] does the same. *)
Theorem inline_values_replace_base p w :
  ValuesInline p <> [] ->
  ValuesMerge p = valuesMergeOptionReplace ->
  match Generate X h p w with
  | (r, p', w') =>
      exists new,
        trace w' = (new ++ trace w)%list /\
        loadsOf new = [] /\
        forall path b, In (path, b) (writesOf new) ->
                       yamlMarshal X (ValuesInline p) = Ok b
  end /\
  (forall stdout p1 w1,
     Generate_render X h p w = (Returns (Ok stdout), p1, w1) ->
     exists gc fs stderr b,
       GeneralConfig h = Some gc /\
       execRun X (HelmConfig.Command (helmConfig gc))
         (AsHelmArgs X p1 (absChartHome h p)) (helmEnv p) fs
         = ((stdout, stderr, None), disk w1) /\
       fs (ValuesFile p1) = Some (File b) /\
       yamlMarshal X (ValuesInline p) = Ok b) /\
  (forall h', sameButLoads h h' -> Generate X h' p w = Generate X h p w).
Proof.
  intros Hsome Hreplace. apply replace_is_not_merge in Hreplace.
  split; [|split].
  - destruct (Generate X h p w) as [[r p'] w'] eqn:E.
    apply Generate_events in E. destruct E as (r1 & w1 & E & Hnew).
    apply Generate_render_evolves in E.
    destruct E as (new & Hev & Hwritten & Hloads & _).
    destruct (Hnew new (ev_trace Hev)) as (new' & Ht & Hl & Hw).
    exists new'. split; [assumption|]. split; [rewrite Hl; auto|].
    intros path b Hin. rewrite Hw in Hin. now apply (Hwritten path b Hin).
  - intros stdout p1 w1 E. apply Generate_render_evolves in E.
    destruct E as (new & Hev & Hwritten & _ & Hrun).
    destruct (Hrun stdout eq_refl) as (gc & fs & stderr & b & Hgc & Hexec & Hfs & Hin).
    exists gc, fs, stderr, b. repeat split; try assumption.
    now apply (Hwritten _ _ Hin).
  - intros h' Hsame. now apply Generate_replace_sameButLoads.
Qed.

End ValuesFile.

(** ** The chart that is not on the disk *)

Section ChartNotFound.

Variable X : Externals.
Variable h : PluginHelpers.

Lemma Generate_locate_not_found p w w1 (located : string * bool) :
  checkHelmVersion X h p w = (Returns None, p, w1) ->
  chartExistsLocally h p w1 = (Returns located, p, w1) ->
  snd located = false ->
  Repo p = "" ->
  Generate_locate X h p w = (Returns (Some (noChartAt (fst located))), p, w1).
Proof.
  intros Hgate Hlocal Hmissing Hrepo. unfold Generate_locate. mred.
  rewrite Hgate, Hlocal, Hmissing, Hrepo. reflexivity.
Qed.

(** C10: after the version gate, when there is nothing on the disk at the
    path that the local check looks at and no repo is configured,
    [chartExistsLocally] returns the empty string for the path and
    [Generate] fails with an error whose message quotes the empty string.
    When a file that is not a directory is at that path, the message quotes
    the path. *)
Theorem missing_chart_reports_empty_path p w w1 :
  checkHelmVersion X h p w = (Returns None, p, w1) ->
  Repo p = "" ->
  (disk w1 (probedPath h p) = None ->
   chartExistsLocally h p w1 = (Returns ("", false), p, w1) /\
   exists w',
     Generate X h p w =
       (Returns (None,
                 Some (Errorf "no repo specified for pull, no chart found at ''")),
        p, w')) /\
  (forall content,
     disk w1 (probedPath h p) = Some (File content) ->
     chartExistsLocally h p w1 = (Returns (probedPath h p, false), p, w1) /\
     exists w',
       Generate X h p w = (Returns (None, Some (noChartAt (probedPath h p))), p, w')).
Proof.
  intros Hgate Hrepo.
  assert (Hlocal : forall located,
            chartExistsLocally h p w1 = (Returns located, p, w1) ->
            snd located = false ->
            exists w',
              Generate X h p w =
                (Returns (None, Some (noChartAt (fst located))), p, w')).
  { intros located Hlocal Hmissing.
    rewrite Generate_unfold, Generate_render_phases.
    rewrite (Generate_locate_not_found _ Hgate Hlocal Hmissing Hrepo). eauto. }
  split.
  - intros Hnone.
    assert (E : chartExistsLocally h p w1 = (Returns ("", false), p, w1)).
    { unfold chartExistsLocally, os.Stat. mred. fold (probedPath h p).
      now rewrite Hnone. }
    split; [exact E|]. exact (Hlocal _ E eq_refl).
  - intros content Hfile.
    assert (E : chartExistsLocally h p w1 = (Returns (probedPath h p, false), p, w1)).
    { unfold chartExistsLocally, os.Stat. mred. fold (probedPath h p).
      now rewrite Hfile. }
    split; [exact E|]. exact (Hlocal _ E eq_refl).
Qed.

End ChartNotFound.

(** ** The rendered output *)

Section RenderedOutput.

Variable X : Externals.
Variable h : PluginHelpers.

Lemma Generate_after_render p w stdout p1 w1 :
  Generate_render X h p w = (Returns (Ok stdout), p1, w1) ->
  exists w', Generate X h p w = (Returns (Generate_parse X h stdout), p1, w').
Proof. intros E. rewrite Generate_unfold, E. eauto. Qed.

(** C5, as the code has it: when the render printed [stdout] and the
    strict reading of it fails with [resMapErr], [Generate] returns what
    the permissive reading gives.  Nodes that the resource factory accepts
    are the result, with no error; nodes that it rejects make the error of
    the factory, wrapped; no node at all makes an error that wraps
    [resMapErr]; a failure of the reader makes the error of the reader,
    wrapped. *)
Theorem output_parsed_with_fallback p w stdout p1 w1 resMapErr :
  Generate_render X h p w = (Returns (Ok stdout), p1, w1) ->
  NewResMapFromBytes (getResmapFactory h) stdout = Err resMapErr ->
  exists out w',
    Generate X h p w = (Returns out, p1, w') /\
    (forall nodes rm,
       byteReaderRead X stdout = Ok nodes -> nodes <> [] ->
       NewResMapFromRNodeSlice (getResmapFactory h) nodes = Ok rm ->
       out = (Some rm, None)) /\
    (forall nodes e,
       byteReaderRead X stdout = Ok nodes -> nodes <> [] ->
       NewResMapFromRNodeSlice (getResmapFactory h) nodes = Err e ->
       out = (None, Some (Wrap "could not parse rnode slice into resource map" e))) /\
    (byteReaderRead X stdout = Ok [] ->
     out = (None, Some (Wrap "could not parse bytes into resource map" resMapErr)) /\
     exists e, snd out = Some e /\ wraps e resMapErr) /\
    (forall e,
       byteReaderRead X stdout = Err e ->
       out = (None, Some (Wrap "error reading helm output" e))).
Proof.
  intros Hrender Hstrict.
  destruct (Generate_after_render _ _ Hrender) as [w' Hgen].
  exists (Generate_parse X h stdout), w'. split; [exact Hgen|].
  unfold Generate_parse. rewrite Hstrict.
  split; [|split; [|split]].
  - intros nodes rm Hread Hsome Hmake. rewrite Hread.
    destruct nodes; [contradiction|]. simpl. now rewrite Hmake.
  - intros nodes e Hread Hsome Hmake. rewrite Hread.
    destruct nodes; [contradiction|]. simpl. now rewrite Hmake.
  - intros Hread. rewrite Hread. simpl. split; [reflexivity|].
    eexists. split; [reflexivity|]. simpl. now left.
  - intros e Hread. now rewrite Hread.
Qed.

End RenderedOutput.

(** ** The properties on the concrete machine *)


(** Inline values under [replace]: nothing is loaded, and what is written
    is the printed inline values. *)
Lemma inline_values_replace_base_witness :
  match Generate Scenario.machine0 Scenario.h0 Scenario.replacing Scenario.world1 with
  | (r, p', w') =>
      r = Returns (Some [Scenario.configMap], None) /\
      exists new,
        trace w' = (new ++ trace Scenario.world1)%list /\
        loadsOf new = [] /\
        forall path b, In (path, b) (writesOf new) ->
                       b = "replicas: 3" ++ newline
  end.
Proof.
  destruct (@inline_values_replace_base Scenario.machine0 Scenario.h0
              Scenario.replacing Scenario.world1) as (H & _);
    [discriminate|reflexivity|].
  destruct (Generate Scenario.machine0 Scenario.h0 Scenario.replacing
              Scenario.world1) as [[r p'] w'] eqn:E.
  split; [vm_compute in E; injection E as <- _ _; reflexivity|].
  destruct H as (new & Ht & Hl & Hw). exists new.
  split; [assumption|]. split; [assumption|].
  intros path b Hin. specialize (Hw _ _ Hin). vm_compute in Hw.
  injection Hw as <-. reflexivity.
Defined.

(** The chart [redis] is not on the disk and has no repo. *)
Lemma missing_chart_reports_empty_path_witness :
  exists w',
    Generate Scenario.machine0 Scenario.h0 Scenario.redis Scenario.world1 =
      (Returns (None,
                Some (Errorf "no repo specified for pull, no chart found at ''")),
       Scenario.redis, w').
Proof.
  pose (w1 := {| disk := disk Scenario.world1;
                 trace := EvExec "helm" versionArgs (helmEnv Scenario.redis)
                          :: trace Scenario.world1;
                 drawn := drawn Scenario.world1 |}).
  destruct (@missing_chart_reports_empty_path Scenario.machine0 Scenario.h0
              Scenario.redis Scenario.world1 w1 eq_refl eq_refl) as (H & _).
  apply H. reflexivity.
Defined.

(** A banner before a config map: the strict reading fails, the
    permissive reading finds the config map, and it is the result. *)
Lemma output_parsed_with_fallback_witness :
  exists p' w',
    Generate (Scenario.rendering Scenario.bannerText) Scenario.h0 Scenario.nginx
      Scenario.world1
    = (Returns (Some [Scenario.configMap], None), p', w').
Proof.
  assert (E : exists p1 w1,
             Generate_render (Scenario.rendering Scenario.bannerText) Scenario.h0
               Scenario.nginx Scenario.world1
             = (Returns (Ok Scenario.bannerText), p1, w1))
    by (do 2 eexists; vm_compute; reflexivity).
  destruct E as (p1 & w1 & E).
  destruct (@output_parsed_with_fallback (Scenario.rendering Scenario.bannerText)
              Scenario.h0 Scenario.nginx Scenario.world1 Scenario.bannerText p1 w1
              _ E eq_refl) as (out & w' & Hgen & Hok & _).
  exists p1, w'. rewrite Hgen.
  rewrite (Hok [Scenario.configMap] [Scenario.configMap] eq_refl); [reflexivity| |].
  - discriminate.
  - reflexivity.
Defined.

(** C5 as it is stated fails: a banner before the same config map twice.
    The strict reading fails, the permissive reading yields two documents,
    and [Generate] returns neither those documents nor an error that wraps
    the failure of the strict reading: the resource factory rejects the
    documents, and its error is what [Generate] returns (lines 316-319). *)
Lemma fallback_documents_rejected :
  let M := Scenario.rendering Scenario.duplicatedText in
  exists p1 w1 resMapErr node e w',
    Generate_render M Scenario.h0 Scenario.nginx Scenario.world1
      = (Returns (Ok Scenario.duplicatedText), p1, w1) /\
    NewResMapFromBytes (getResmapFactory Scenario.h0) Scenario.duplicatedText
      = Err resMapErr /\
    byteReaderRead M Scenario.duplicatedText = Ok [node; node] /\
    Generate M Scenario.h0 Scenario.nginx Scenario.world1
      = (Returns (None, Some e), p1, w') /\
    ~ wraps e resMapErr.
Proof.
  cbv zeta. do 6 eexists.
  split; [vm_compute; reflexivity|].
  split; [vm_compute; reflexivity|].
  split; [vm_compute; reflexivity|].
  split; [vm_compute; reflexivity|].
  simpl. intros [H|[]]. discriminate.
Qed.

(** ** The merged values *)

Section MergedValues.







Variable X : Externals.
Variable h : PluginHelpers.




End MergedValues.



(** ** Paths *)

Section Paths.

Import filepath.

Lemma Split_nonempty s sep : strings.Split s sep <> [].
Proof.
  induction s as [|c s IH]; simpl; [discriminate|].
  destruct (Ascii.eqb c sep); [discriminate|].
  destruct (strings.Split s sep); discriminate.
Qed.

Lemma Split_app_sep a b sep :
  strings.Split (a ++ String sep b) sep
  = (strings.Split a sep ++ strings.Split b sep)%list.
Proof.
  induction a as [|c a IH]; simpl.
  - now rewrite Ascii.eqb_refl.
  - destruct (Ascii.eqb c sep); rewrite IH; [reflexivity|].
    destruct (strings.Split a sep) eqn:E; [|reflexivity].
    exfalso. exact (Split_nonempty _ _ E).
Qed.

Lemma Split_plain s :
  hasSeparator s = false -> strings.Split s "/"%char = [s].
Proof.
  induction s as [|c s IH]; simpl; [reflexivity|]. unfold Separator.
  intros H. apply orb_false_elim in H. destruct H as [H1 H2].
  now rewrite H1, (IH H2).
Qed.

Lemma Split_no_separator s :
  Forall (fun c => hasSeparator c = false) (strings.Split s "/"%char).
Proof.
  induction s as [|c s IH]; simpl.
  - constructor; [reflexivity|constructor].
  - destruct (Ascii.eqb c "/"%char) eqn:E.
    + constructor; [reflexivity|assumption].
    + destruct (strings.Split s "/"%char) as [|x xs].
      * constructor; [simpl; unfold Separator; now rewrite E|constructor].
      * inv IH. constructor; [simpl; unfold Separator; now rewrite E|assumption].
Qed.

Lemma Join_cons x y l :
  strings.Join (x :: y :: l) "/" = x ++ String "/" (strings.Join (y :: l) "/").
Proof. reflexivity. Qed.

Lemma Split_Join l :
  l <> [] -> Forall (fun c => hasSeparator c = false) l ->
  strings.Split (strings.Join l "/") "/"%char = l.
Proof.
  induction l as [|x l IH]; [contradiction|]. intros _ H. inv H.
  destruct l as [|y l].
  - simpl. now apply Split_plain.
  - rewrite Join_cons.
    rewrite Split_app_sep, Split_plain, IH; auto. discriminate.
Qed.

Lemma cleanStep_plain rooted st c :
  plainElement c -> cleanStep rooted st c = c :: st.
Proof.
  intros (_ & H1 & H2 & H3). unfold cleanStep.
  apply String.eqb_neq in H1, H2, H3. now rewrite H1, H2, H3.
Qed.

Lemma fold_plain rooted comps :
  forall st, Forall plainElement comps ->
    fold_left (cleanStep rooted) comps st = (rev comps ++ st)%list.
Proof.
  induction comps as [|c comps IH]; intros st H; simpl; [reflexivity|].
  inv H. rewrite cleanStep_plain, IH by assumption.
  now rewrite <- app_assoc.
Qed.

Lemma cleanStep_keeps_plain st c :
  Forall plainElement st -> hasSeparator c = false ->
  Forall plainElement (cleanStep true st c).
Proof.
  intros Hst Hc. unfold cleanStep.
  destruct (c =? "")%string eqn:E1; [assumption|].
  destruct (c =? ".")%string eqn:E2; [assumption|]. simpl.
  destruct (c =? "..")%string eqn:E3.
  - destruct st as [|top rest]; [constructor|]. inv Hst.
    destruct (top =? "..")%string eqn:E4; [|assumption].
    apply String.eqb_eq in E4. destruct H1 as (_ & _ & _ & H). contradiction.
  - apply String.eqb_neq in E1, E2, E3. constructor; [|assumption].
    repeat split; assumption.
Qed.

Lemma fold_keeps_plain comps :
  forall st, Forall plainElement st ->
    Forall (fun c => hasSeparator c = false) comps ->
    Forall plainElement (fold_left (cleanStep true) comps st).
Proof.
  induction comps as [|c comps IH]; intros st Hst Hc; simpl; [assumption|].
  inv Hc. apply IH; [|assumption]. now apply cleanStep_keeps_plain.
Qed.

Lemma kept_plain path : Forall plainElement (kept path).
Proof.
  unfold kept, Separator.
  apply fold_keeps_plain; [constructor|apply Split_no_separator].
Qed.

Lemma prefix_empty s : String.prefix "" s = true.
Proof. destruct s; reflexivity. Qed.

Lemma IsAbs_rooted r : IsAbs (String "/" r) = true.
Proof.
  unfold IsAbs, strings.HasPrefix.
  change (String.prefix "/" (String "/" r)) with (String.prefix "" r).
  apply prefix_empty.
Qed.

Lemma IsAbs_inv path : IsAbs path = true -> exists r, path = String "/" r.
Proof.
  unfold IsAbs, strings.HasPrefix. destruct path as [|c r]; [discriminate|].
  change (String.prefix "/" (String c r))
    with (if ascii_dec "/" c then String.prefix "" r else false).
  destruct (ascii_dec "/" c) as [<-|]; [eauto|discriminate].
Qed.

(** A rooted path cleans to the root followed by the elements kept. *)
Lemma Clean_rooted r :
  Clean (String "/" r) = String "/" (strings.Join (rev (kept (String "/" r))) "/").
Proof.
  unfold Clean. rewrite IsAbs_rooted.
  change (String "/" r =? "")%string with false. reflexivity.
Qed.

Lemma Clean_IsAbs path : IsAbs path = true -> IsAbs (Clean path) = true.
Proof.
  intros H. apply IsAbs_inv in H. destruct H as [r ->].
  rewrite Clean_rooted. apply IsAbs_rooted.
Qed.

Lemma kept_of_clean l :
  Forall plainElement l -> kept (String "/" (strings.Join l "/")) = rev l.
Proof.
  intros H. unfold kept, Separator.
  change (strings.Split (String "/" (strings.Join l "/")) "/"%char)
    with (EmptyString :: strings.Split (strings.Join l "/") "/"%char).
  change (fold_left (cleanStep true)
            (EmptyString :: strings.Split (strings.Join l "/") "/"%char) [])
    with (fold_left (cleanStep true) (strings.Split (strings.Join l "/") "/"%char) []).
  destruct l as [|x l].
  - reflexivity.
  - rewrite Split_Join.
    + rewrite fold_plain by assumption. now rewrite app_nil_r.
    + discriminate.
    + eapply Forall_impl; [|exact H]. now intros a (Ha & _).
Qed.

(** Cleaning a clean path changes nothing. *)
Lemma Clean_idempotent path :
  IsAbs path = true -> Clean (Clean path) = Clean path.
Proof.
  intros H. apply IsAbs_inv in H. destruct H as [r ->].
  rewrite (Clean_rooted r). rewrite Clean_rooted.
  rewrite kept_of_clean.
  - now rewrite rev_involutive.
  - apply Forall_rev. apply kept_plain.
Qed.

Lemma Join_snoc l e :
  l <> [] -> strings.Join (l ++ [e]) "/" = strings.Join l "/" ++ String "/" e.
Proof.
  induction l as [|x l IH]; [contradiction|]. intros _.
  destruct l as [|y l]; [reflexivity|].
  change ((x :: y :: l) ++ [e])%list with (x :: y :: (l ++ [e]))%list.
  rewrite !Join_cons.
  change (y :: (l ++ [e]))%list with ((y :: l) ++ [e])%list.
  rewrite IH by discriminate.
  rewrite append_assoc. reflexivity.
Qed.

Lemma Join_plain_nonempty l :
  l <> [] -> Forall plainElement l -> strings.Join l "/" <> "".
Proof.
  destruct l as [|x l]; [contradiction|]. intros _ H.
  inversion H as [|? ? Hplain _]; subst.
  destruct Hplain as (_ & Hx & _). destruct x as [|c x]; [contradiction|].
  destruct l; discriminate.
Qed.

(** An element added to a rooted path is added to its clean form. *)
Lemma Clean_child path e :
  IsAbs path = true -> plainElement e ->
  Clean (path ++ String "/" e) = child (Clean path) e.
Proof.
  intros H He. apply IsAbs_inv in H. destruct H as [r ->].
  change (String "/" r ++ String "/" e) with (String "/" (r ++ String "/" e)).
  rewrite !Clean_rooted.
  assert (Hkept : kept (String "/" (r ++ String "/" e)) = e :: kept (String "/" r)).
  { unfold kept, Separator.
    change (String "/" (r ++ String "/" e)) with (String "/" r ++ String "/" e).
    rewrite Split_app_sep, fold_left_app.
    destruct He as (Hsep & He). rewrite (Split_plain _ Hsep). simpl.
    apply cleanStep_plain. split; assumption. }
  rewrite Hkept. simpl rev. unfold child.
  destruct (kept (String "/" r)) as [|top rest] eqn:Ek.
  - reflexivity.
  - assert (Hne : rev (top :: rest) <> []).
    { simpl. intros E. apply app_eq_nil in E. destruct E; discriminate. }
    rewrite Join_snoc by assumption.
    assert (Hj : strings.Join (rev (top :: rest)) "/" <> "").
    { apply Join_plain_nonempty; [assumption|].
      apply Forall_rev. rewrite <- Ek. apply kept_plain. }
    destruct (strings.Join (rev (top :: rest)) "/") as [|c j] eqn:Ej;
      [contradiction|].
    reflexivity.
Qed.

Lemma Join_pair x e :
  x <> "" -> filepath.Join [x; e] = Clean (x ++ String "/" e).
Proof.
  intros H. unfold filepath.Join. simpl.
  apply String.eqb_neq in H. rewrite H. reflexivity.
Qed.

Lemma IsAbs_nonempty path : IsAbs path = true -> path <> "".
Proof. intros H. apply IsAbs_inv in H. destruct H as [r ->]. discriminate. Qed.

(** [filepath.Join] of an absolute directory and a name. *)
Lemma Join_child dir e :
  IsAbs dir = true -> plainElement e ->
  filepath.Join [dir; e] = child (Clean dir) e.
Proof.
  intros H He. rewrite Join_pair by now apply IsAbs_nonempty.
  now apply Clean_child.
Qed.

Lemma Join_IsAbs root e : IsAbs root = true -> IsAbs (filepath.Join [root; e]) = true.
Proof.
  intros H. rewrite Join_pair by now apply IsAbs_nonempty.
  apply Clean_IsAbs. apply IsAbs_inv in H. destruct H as [r ->]. apply IsAbs_rooted.
Qed.

End Paths.

(** ** The chart directory *)

Section ChartDirectory.

Variable X : Externals.
Variable h : PluginHelpers.

Lemma hasSeparator_app a b :
  hasSeparator (a ++ b) = hasSeparator a || hasSeparator b.
Proof.
  induction a as [|c a IH]; simpl; [reflexivity|].
  now rewrite IH, orb_assoc.
Qed.

Lemma plain_name_version name version :
  plainElement name -> hasSeparator version = false ->
  plainElement (name ++ "-" ++ version).
Proof.
  intros (Hsep & Hne & _) Hv. split; [|split; [|split]].
  - rewrite !hasSeparator_app, Hsep, Hv. reflexivity.
  - destruct name; [contradiction|discriminate].
  - destruct name as [|c [|d name]]; [contradiction|discriminate|discriminate].
  - destruct name as [|c [|d [|e name]]];
      [contradiction|discriminate|discriminate|discriminate].
Qed.

Lemma chartHomeOf_IsAbs p :
  filepath.IsAbs (Root (getLoader h)) = true ->
  filepath.IsAbs (chartHomeOf h p) = true.
Proof.
  intros Hroot. unfold chartHomeOf.
  destruct (filepath.IsAbs (ChartHome p)) eqn:E; [exact E|].
  now apply Join_IsAbs.
Qed.

Lemma absChartHome_chartHomeOf p :
  absChartHome h p =
    if (Version p =? "")%string then chartHomeOf h p
    else filepath.Join [chartHomeOf h p; Name p ++ "-" ++ Version p].
Proof.
  unfold absChartHome, chartHomeOf.
  destruct (Version p =? "")%string; reflexivity.
Qed.

(** C3, as the code has it: with a loader whose root is absolute, a chart
    name that is a plain path element and a version without a separator,
    the chart home is absolute; the directory [absChartHome] is
    [<home>/<name>-<version>] when a version is given and [<home>]
    otherwise, for the clean form [<home>] of the chart home; the local
    check looks at [<name>] in that directory: at
    [<home>/<name>-<version>/<name>] when a version is given and at
    [<home>/<name>] otherwise; and the render receives [absChartHome]. *)
Theorem chart_directory p w :
  filepath.IsAbs (Root (getLoader h)) = true ->
  plainElement (Name p) ->
  hasSeparator (Version p) = false ->
  let home := filepath.Clean (chartHomeOf h p) in
  let versioned := child home (Name p ++ "-" ++ Version p) in
  filepath.IsAbs (chartHomeOf h p) = true /\
  filepath.IsAbs home = true /\
  filepath.Clean (absChartHome h p)
    = (if (Version p =? "")%string then home else versioned) /\
  probedPath h p
    = (if (Version p =? "")%string then child home (Name p)
       else child versioned (Name p)) /\
  chartExistsLocally h p w =
    (Returns (match disk w (probedPath h p) with
              | Some s => (probedPath h p, os.IsDir s)
              | None => ("", false)
              end), p, w) /\
  (forall stdout p1 w1,
     Generate_render X h p w = (Returns (Ok stdout), p1, w1) ->
     exists gc fs stderr,
       GeneralConfig h = Some gc /\
       execRun X (HelmConfig.Command (helmConfig gc))
         (AsHelmArgs X p1 (absChartHome h p)) (helmEnv p) fs
         = ((stdout, stderr, None), disk w1)).
Proof.
  intros Hroot Hname Hversion home versioned.
  pose proof (chartHomeOf_IsAbs p Hroot) as Habs.
  pose proof (@plain_name_version (Name p) (Version p) Hname Hversion) as Hnv.
  assert (Hhome : filepath.IsAbs home = true) by now apply Clean_IsAbs.
  assert (Hdir : filepath.Join [chartHomeOf h p; Name p ++ "-" ++ Version p]
                 = versioned) by now apply Join_child.
  split; [assumption|]. split; [assumption|].
  split; [|split; [|split]].
  - rewrite absChartHome_chartHomeOf.
    destruct (Version p =? "")%string; [reflexivity|].
    rewrite Join_pair by now apply IsAbs_nonempty.
    rewrite Clean_idempotent.
    + now apply Clean_child.
    + apply IsAbs_inv in Habs. destruct Habs as [r ->]. apply IsAbs_rooted.
  - unfold probedPath. rewrite absChartHome_chartHomeOf.
    destruct (Version p =? "")%string.
    + now apply Join_child.
    + rewrite Join_child; [|now apply Join_IsAbs|assumption].
      rewrite Hdir. f_equal. unfold versioned, home.
      rewrite <- (@Clean_child (chartHomeOf h p) (Name p ++ "-" ++ Version p) Habs Hnv).
      apply Clean_idempotent.
      apply IsAbs_inv in Habs. destruct Habs as [r ->]. apply IsAbs_rooted.
  - unfold chartExistsLocally, os.Stat. mred. fold (probedPath h p).
    destruct (disk w (probedPath h p)); reflexivity.
  - intros stdout p1 w1 E. apply Generate_render_evolves in E.
    destruct E as (new & _ & _ & _ & Hrun).
    destruct (Hrun stdout eq_refl) as (gc & fs & stderr & b & Hgc & Hexec & _).
    eauto.
Qed.

End ChartDirectory.

Lemma plain_nginx : plainElement "nginx".
Proof. repeat split; discriminate. Defined.

(** The chart directory of [nginx] at the version 1.0 and without a
    version, below the kustomization root [/work]. *)
Lemma chart_directory_witness :
  probedPath Scenario.h0 Scenario.pinned = "/work/charts/nginx-1.0/nginx" /\
  filepath.Clean (absChartHome Scenario.h0 Scenario.pinned)
    = "/work/charts/nginx-1.0" /\
  probedPath Scenario.h0 Scenario.nginx = "/work/charts/nginx" /\
  filepath.Clean (absChartHome Scenario.h0 Scenario.nginx) = "/work/charts".
Proof.
  destruct (@chart_directory Scenario.machine0 Scenario.h0 Scenario.pinned
              Scenario.world1 eq_refl plain_nginx eq_refl)
    as (_ & _ & Hdir & Hprobe & _).
  destruct (@chart_directory Scenario.machine0 Scenario.h0 Scenario.nginx
              Scenario.world1 eq_refl plain_nginx eq_refl)
    as (_ & _ & Hdir' & Hprobe' & _).
  rewrite Hdir, Hprobe, Hdir', Hprobe'. repeat split; reflexivity.
Defined.

(** C3 as it is stated fails: for [nginx] at the version 1.0 the
    directory [<home>/<name>-<version>] is on the disk, and the local check
    looks below it, at [<home>/<name>-<version>/<name>], where nothing is:
    the chart is not found. *)
Lemma versioned_chart_is_looked_up_below :
  disk Scenario.emptyVersionDir "/work/charts/nginx-1.0" = Some Directory /\
  probedPath Scenario.h0 Scenario.pinned = "/work/charts/nginx-1.0/nginx" /\
  probedPath Scenario.h0 Scenario.pinned <> "/work/charts/nginx-1.0" /\
  chartExistsLocally Scenario.h0 Scenario.pinned Scenario.emptyVersionDir
    = (Returns ("", false), Scenario.pinned, Scenario.emptyVersionDir).
Proof.
  split; [reflexivity|]. split; [reflexivity|]. split; [discriminate|].
  reflexivity.
Qed.

(** ** The validation of the arguments *)

(** The fields of a plugin that setters have built. *)
Ltac fields :=
  cbn [ChartHome ConfigHome Name Version Repo ValuesFile ValuesInline
       ValuesMerge AdditionalValuesFiles ApiVersions KubeVersion Debug tmpDir
       setChartHome setConfigHome setValuesFile setValuesInline setValuesMerge
       setAdditionalValuesFiles setApiVersions setKubeVersion setDebug
       setTmpDir] in *.


Section Validation.

Variable X : Externals.
Variable h : PluginHelpers.

Lemma Clean_nonempty path : filepath.Clean path <> "".
Proof.
  unfold filepath.Clean. destruct (path =? "")%string; [discriminate|].
  cbv zeta. destruct (filepath.IsAbs path); [discriminate|].
  destruct (strings.Join _ "/" =? "")%string eqn:E; [discriminate|].
  now apply String.eqb_neq in E.
Qed.

(** The loop over the additional values files: it changes nothing but
    the trace, to which it adds one load for each file it reaches. *)
Lemma loadAdditionalValuesFiles_spec files :
  forall p w r p' w',
    loadAdditionalValuesFiles h files p w = (r, p', w') ->
    p' = p /\ disk w' = disk w /\ drawn w' = drawn w /\
    mkdirsOf (trace w') = mkdirsOf (trace w) /\
    writesOf (trace w') = writesOf (trace w) /\
    execsOf (trace w') = execsOf (trace w) /\
    exists out, r = Returns out /\
      match snd out with
      | None =>
          fst out = underRoot h files /\ Forall (loads h (disk w)) files /\
          loadsOf (trace w') =
            (rev (map (fun file => (file, Load (getLoader h) (disk w) file)) files)
             ++ loadsOf (trace w))%list
      | Some e =>
          exists ok bad rest cause,
            files = (ok ++ bad :: rest)%list /\ Forall (loads h (disk w)) ok /\
            Load (getLoader h) (disk w) bad = Err cause /\
            e = Wrap "could not load additionalValuesFile" cause /\
            fst out = (underRoot h ok ++ bad :: rest)%list
      end.
Proof.
  induction files as [|file rest IH]; intros p w r p' w' H.
  - cbn [loadAdditionalValuesFiles] in H. mred. inv H.
    repeat (split; [reflexivity|]). eexists. split; [reflexivity|].
    cbn [snd fst]. repeat split. constructor.
  - cbn [loadAdditionalValuesFiles] in H. mred. unfold load in H.
    destruct (Load (getLoader h) (disk w) file) as [b|cause] eqn:EL.
    + destruct (loadAdditionalValuesFiles h rest p
                  (emit (EvLoad file (Ok b)) w)) as [[r1 p1] w1] eqn:E1.
      apply IH in E1.
      destruct E1 as (-> & Hd & Hn & Hm & Hw & Hx & out & -> & Hout).
      cbn [emit disk trace drawn] in *.
      injection H as <- <- <-.
      split; [reflexivity|]. repeat (split; [assumption|]).
      eexists. split; [reflexivity|]. cbn [snd fst].
      destruct (snd out) as [e|].
      * destruct Hout as (ok & bad & rest' & cause & -> & Hok & Hbad & -> & Hfst).
        exists (file :: ok), bad, rest', cause.
        split; [reflexivity|]. split; [constructor; [exists b; exact EL|exact Hok]|].
        split; [assumption|]. split; [reflexivity|].
        rewrite Hfst. reflexivity.
      * destruct Hout as (Hfst & Hall & Hl).
        split; [rewrite Hfst; reflexivity|].
        split; [constructor; [exists b; exact EL|exact Hall]|].
        rewrite Hl. cbn [map rev]. rewrite EL, <- app_assoc. reflexivity.
    + injection H as <- <- <-. cbn [emit disk trace drawn].
      repeat (split; [reflexivity|]).
      eexists. split; [reflexivity|]. cbn [snd fst WrapPrefixf].
      exists [], file, rest, cause. repeat split; [constructor|assumption].
Qed.

Lemma errIfIllegalValuesMerge_spec p w r p' w' :
  errIfIllegalValuesMerge p w = (r, p', w') ->
  w' = w /\
  p' = (if (ValuesMerge p =? "")%string
        then setValuesMerge valuesMergeOptionOverride p else p) /\
  exists err, r = Returns err /\
    (err = None -> In (ValuesMerge p') legalMergeOptions).
Proof.
  unfold errIfIllegalValuesMerge. intros H. mred.
  destruct (ValuesMerge p =? "")%string eqn:E.
  - injection H as <- <- <-. repeat split. eexists. split; [reflexivity|].
    intros _. right. left. reflexivity.
  - destruct (existsb (String.eqb (ValuesMerge p)) legalMergeOptions) eqn:E';
      injection H as <- <- <-; repeat split; (eexists; split; [reflexivity|]);
      [|discriminate].
    intros _. apply existsb_exists in E'. destruct E' as (x & Hin & Heq).
    apply String.eqb_eq in Heq. now subst x.
Qed.

Lemma establishTmpDir_spec p w r p' w' :
  establishTmpDir X p w = (r, p', w') ->
  exists err, r = Returns err /\
    execsOf (trace w') = execsOf (trace w) /\
    loadsOf (trace w') = loadsOf (trace w) /\
    writesOf (trace w') = writesOf (trace w) /\
    (tmpDir p <> "" -> err = None /\ p' = p /\ w' = w) /\
    (tmpDir p = "" ->
     match err with
     | None =>
         disk w (nextTmpDir X w) = None /\
         p' = setTmpDir (nextTmpDir X w) p /\
         disk w' = os.put (nextTmpDir X w) Directory (disk w) /\
         mkdirsOf (trace w') = nextTmpDir X w :: mkdirsOf (trace w)
     | Some _ =>
         disk w (nextTmpDir X w) <> None /\ p' = setTmpDir "" p /\
         disk w' = disk w /\ mkdirsOf (trace w') = mkdirsOf (trace w)
     end).
Proof.
  unfold establishTmpDir, MkdirTemp. intros H. mred.
  destruct (tmpDir p =? "")%string eqn:E; cbv beta iota delta [negb] in H.
  - apply String.eqb_eq in E.
    change (TempDir X ++ "/" ++ "kustomize-helm-" ++ nextRandom X (drawn w))
      with (nextTmpDir X w) in H.
    destruct (disk w (nextTmpDir X w)) eqn:Hd; mred; injection H as <- <- <-;
      (eexists; split; [reflexivity|]); cbn [trace disk];
      repeat (split; [reflexivity|]);
      (split; [intros Hset; contradiction|]); intros _; repeat split.
    discriminate.
  - apply String.eqb_neq in E. injection H as <- <- <-.
    eexists; split; [reflexivity|]. repeat (split; [reflexivity|]).
    split; [auto|]. intros; contradiction.
Qed.

(** What a validation that succeeds leaves. *)
Lemma validateArgs_ok p w p' w' :
  validateArgs X h p w = (Returns None, p', w') ->
  Name p <> "" /\
  (Name p' = Name p /\ Version p' = Version p /\ Repo p' = Repo p /\
   ValuesInline p' = ValuesInline p) /\
  ChartHome p' =
    (if (ChartHome p =? "")%string then HelmDefaultHome else ChartHome p) /\
  ValuesFile p' =
    (if (ValuesFile p =? "")%string
     then filepath.Join [absChartHome h p'; Name p; "values.yaml"]
     else ValuesFile p) /\
  (AdditionalValuesFiles p' = underRoot h (AdditionalValuesFiles p) /\
   Forall (loads h (disk w)) (AdditionalValuesFiles p)) /\
  (ValuesMerge p' =
     (if (ValuesMerge p =? "")%string then valuesMergeOptionOverride
      else ValuesMerge p) /\
   In (ValuesMerge p') legalMergeOptions) /\
  ConfigHome p' =
    (if (ConfigHome p =? "")%string then filepath.Join [tmpDir p'; "helm"]
     else ConfigHome p) /\
  (if (ConfigHome p =? "")%string && (tmpDir p =? "")%string then
     tmpDir p' = nextTmpDir X w /\ disk w (nextTmpDir X w) = None /\
     disk w' = os.put (nextTmpDir X w) Directory (disk w) /\
     mkdirsOf (trace w') = nextTmpDir X w :: mkdirsOf (trace w)
   else
     tmpDir p' = tmpDir p /\ disk w' = disk w /\
     mkdirsOf (trace w') = mkdirsOf (trace w)) /\
  loadsOf (trace w') =
    (rev (map (fun file => (file, Load (getLoader h) (disk w) file))
            (AdditionalValuesFiles p))
     ++ loadsOf (trace w))%list /\
  writesOf (trace w') = writesOf (trace w) /\
  execsOf (trace w') = execsOf (trace w).
Proof.
  unfold validateArgs. intros H. mred.
  destruct (Name p =? "")%string eqn:EN; [discriminate|].
  apply String.eqb_neq in EN. split; [exact EN|].
  destruct (ChartHome p =? "")%string eqn:EC; mred;
    match type of H with
    | context [if (ValuesFile ?q =? "")%string then _ else _] =>
        destruct (ValuesFile q =? "")%string eqn:EV; mred
    end;
    match type of H with
    | context [loadAdditionalValuesFiles h ?fs ?q ?v] =>
        destruct (loadAdditionalValuesFiles h fs q v) as [[r1 p1] w1] eqn:E1;
        apply loadAdditionalValuesFiles_spec in E1;
        destruct E1 as (-> & Hd1 & Hn1 & Hm1 & Hw1 & Hx1 & out & -> & Hout)
    end; mred;
    (destruct (snd out) as [e|]; [discriminate|]);
    destruct Hout as (Hfst & Hall & Hl1);
    match type of H with
    | context [errIfIllegalValuesMerge ?q ?v] =>
        destruct (errIfIllegalValuesMerge q v) as [[r2 p2] w2] eqn:E2;
        apply errIfIllegalValuesMerge_spec in E2;
        destruct E2 as (-> & Hp2 & err & -> & Hlegal)
    end; mred;
    (destruct err as [e|]; [discriminate|]);
    specialize (Hlegal eq_refl); fields.
  all: destruct (ValuesMerge p =? "")%string eqn:EM; subst p2; fields;
    destruct (ConfigHome p =? "")%string eqn:EH; cbn [andb].
  all: try (injection H as <- <-; fields; unfold absChartHome; fields;
            rewrite ?EC, ?EV, ?EM, ?EH, Hfst; repeat split; auto; fail).
  all: match type of H with
       | context [establishTmpDir X ?q ?v] =>
           destruct (establishTmpDir X q v) as [[r3 p3] w3] eqn:E3;
           apply establishTmpDir_spec in E3;
           destruct E3 as (err3 & -> & Hx3 & Hl3 & Hw3 & Hset & Hunset)
       end; mred; (destruct err3 as [e|]; [discriminate|]);
       injection H as <- <-; fields;
       destruct (tmpDir p =? "")%string eqn:ET;
       [ apply String.eqb_eq in ET; destruct (Hunset ET) as (Hfree & -> & Hd3 & Hm3)
       | apply String.eqb_neq in ET; destruct (Hset ET) as (_ & -> & ->) ];
       fields; unfold absChartHome; fields;
       rewrite ?EC, ?EV, ?EM, ?EH, ?Hfst.
  all: unfold nextTmpDir in *; rewrite ?Hn1, ?Hd1 in *;
    rewrite ?Hl3, ?Hw3, ?Hx3, ?Hm3, ?Hd3, ?Hd1, ?Hm1; repeat split; auto.
Qed.

Lemma Join_nonempty_elem elem e :
  In e elem -> e <> "" -> filepath.Join elem <> "".
Proof.
  intros Hin Hne. unfold filepath.Join.
  assert (Hrest : filepath.dropEmpty elem <> []).
  { induction elem as [|x rest IH]; [contradiction|]. cbn [filepath.dropEmpty].
    destruct (String.eqb_spec x "") as [Ex|Ex]; [|discriminate].
    destruct Hin as [->|Hin]; [contradiction|]. now apply IH. }
  destruct (filepath.dropEmpty elem); [contradiction|]. apply Clean_nonempty.
Qed.

Lemma validateArgs_wellformed p w p' w' :
  validateArgs X h p w = (Returns None, p', w') ->
  (ConfigHome p = "" -> tmpDir p' <> "") /\
  Name p' <> "" /\ ChartHome p' <> "" /\ ValuesFile p' <> "" /\
  ConfigHome p' <> "" /\ In (ValuesMerge p') legalMergeOptions.
Proof.
  intros H. apply validateArgs_ok in H.
  destruct H as (HN & (EN & EV & ER & EI) & EC & EF & _ & (EM & HM) & EH & Ht & _).
  assert (Htmp : ConfigHome p = "" -> tmpDir p' <> "").
  { intros E. rewrite E in Ht. cbn [String.eqb andb] in Ht.
    destruct (String.eqb_spec (tmpDir p) "") as [Et|Et].
    - destruct Ht as (-> & _). apply append_nonempty.
    - destruct Ht as (-> & _). exact Et. }
  split; [assumption|].
  split; [congruence|].
  split; [rewrite EC; destruct (String.eqb_spec (ChartHome p) "");
          [discriminate|assumption]|].
  split; [rewrite EF; destruct (String.eqb_spec (ValuesFile p) "");
          [|assumption];
          apply (@Join_nonempty_elem _ "values.yaml");
          [right; right; left; reflexivity|discriminate]|].
  split; [|assumption].
  rewrite EH. destruct (String.eqb_spec (ConfigHome p) ""); [|assumption].
  apply (@Join_nonempty_elem _ "helm"); [right; left; reflexivity|discriminate].
Qed.

(** X1: a chart without a name is refused.  A validation that succeeds
    keeps the name, the version, the repo and the inline values, and
    fills what is unset: the chart home becomes [charts], the values file
    becomes [values.yaml] in the directory of the chart below the absolute
    chart home, the merge policy becomes [override], and the config home
    becomes [helm] in the temporary directory, which is then set.  What
    was set is kept.  Afterwards the name, the chart home, the values
    file and the config home are not empty and the merge policy is one of
    the three legal ones. *)
Theorem validation_fills_defaults p w :
  (Name p = "" ->
   validateArgs X h p w =
     (Returns (Some (Errorf "chart name cannot be empty")), p, w)) /\
  (forall p' w',
     validateArgs X h p w = (Returns None, p', w') ->
     (Name p' = Name p /\ Version p' = Version p /\ Repo p' = Repo p /\
      ValuesInline p' = ValuesInline p) /\
     (ChartHome p = "" -> ChartHome p' = HelmDefaultHome) /\
     (ChartHome p <> "" -> ChartHome p' = ChartHome p) /\
     (ValuesFile p = "" ->
      ValuesFile p' = filepath.Join [absChartHome h p'; Name p'; "values.yaml"]) /\
     (ValuesFile p <> "" -> ValuesFile p' = ValuesFile p) /\
     (ValuesMerge p = "" -> ValuesMerge p' = valuesMergeOptionOverride) /\
     (ValuesMerge p <> "" -> ValuesMerge p' = ValuesMerge p) /\
     (ConfigHome p = "" ->
      ConfigHome p' = filepath.Join [tmpDir p'; "helm"] /\ tmpDir p' <> "") /\
     (ConfigHome p <> "" -> ConfigHome p' = ConfigHome p) /\
     Name p' <> "" /\ ChartHome p' <> "" /\ ValuesFile p' <> "" /\
     ConfigHome p' <> "" /\ In (ValuesMerge p') legalMergeOptions).
Proof.
  split.
  - intros E. unfold validateArgs. mred. now rewrite E.
  - intros p' w' H. pose proof (@validateArgs_wellformed p w p' w' H) as (Htmp & Hwf).
    apply validateArgs_ok in H.
    destruct H as (HN & (EN & EV & ER & EI) & EC & EF & _ & (EM & HM) & EH & _).
    split; [auto|].
    split; [intros E; now rewrite E in EC|].
    split; [intros E; apply String.eqb_neq in E; now rewrite E in EC|].
    split; [intros E; rewrite E in EF; now rewrite EN|].
    split; [intros E; apply String.eqb_neq in E; now rewrite E in EF|].
    split; [intros E; now rewrite E in EM|].
    split; [intros E; apply String.eqb_neq in E; now rewrite E in EM|].
    split; [intros E; split; [now rewrite E in EH|auto]|].
    split; [intros E; apply String.eqb_neq in E; now rewrite E in EH|].
    exact Hwf.
Qed.

Lemma loadAdditionalValuesFiles_fails ok :
  forall bad rest cause p w,
    Forall (loads h (disk w)) ok ->
    Load (getLoader h) (disk w) bad = Err cause ->
    exists w',
      loadAdditionalValuesFiles h (ok ++ bad :: rest) p w =
        (Returns ((underRoot h ok ++ bad :: rest)%list,
                  Some (Wrap "could not load additionalValuesFile" cause)),
         p, w') /\
      disk w' = disk w /\ mkdirsOf (trace w') = mkdirsOf (trace w).
Proof.
  induction ok as [|file ok IH]; intros bad rest cause p w Hok Hbad.
  - cbn [app loadAdditionalValuesFiles underRoot map]. mred. unfold load.
    rewrite Hbad. eexists. split; [reflexivity|]. split; reflexivity.
  - inversion Hok as [|? ? [b Hb] Hok']; subst.
    cbn [app loadAdditionalValuesFiles]. mred. unfold load at 1. rewrite Hb.
    destruct (IH bad rest cause p (emit (EvLoad file (Ok b)) w) Hok' Hbad)
      as (w' & -> & Hd & Hm).
    eexists. split; [reflexivity|]. split; assumption.
Qed.

(** X2: a validation that succeeds has loaded every additional values
    file through the loader, in the order of the list, and has replaced
    each by its path below the root of the loader.  When one of them does
    not load, the validation fails with the error of the loader, wrapped;
    the files before it are already replaced, no temporary directory is
    made and the disk is as it was. *)
Theorem additional_values_files_rooted p w :
  Name p <> "" ->
  (forall p' w',
     validateArgs X h p w = (Returns None, p', w') ->
     AdditionalValuesFiles p' = underRoot h (AdditionalValuesFiles p) /\
     Forall (loads h (disk w)) (AdditionalValuesFiles p) /\
     loadsOf (trace w') =
       (rev (map (fun file => (file, Load (getLoader h) (disk w) file))
               (AdditionalValuesFiles p))
        ++ loadsOf (trace w))%list) /\
  (forall ok bad rest cause,
     AdditionalValuesFiles p = (ok ++ bad :: rest)%list ->
     Forall (loads h (disk w)) ok ->
     Load (getLoader h) (disk w) bad = Err cause ->
     exists p' w',
       validateArgs X h p w =
         (Returns (Some (Wrap "could not load additionalValuesFile" cause)),
          p', w') /\
       AdditionalValuesFiles p' = (underRoot h ok ++ bad :: rest)%list /\
       disk w' = disk w /\ mkdirsOf (trace w') = mkdirsOf (trace w) /\
       tmpDir p' = tmpDir p /\ ConfigHome p' = ConfigHome p).
Proof.
  intros HN. split.
  - intros p' w' H. apply validateArgs_ok in H.
    destruct H as (_ & _ & _ & _ & (EA & Hall) & _ & _ & _ & Hl & _). auto.
  - intros ok bad rest cause Hfiles Hok Hbad.
    unfold validateArgs. mred. apply String.eqb_neq in HN. rewrite HN.
    destruct (ChartHome p =? "")%string; mred;
      match goal with
      | |- context [if (ValuesFile ?q =? "")%string then _ else _] =>
          destruct (ValuesFile q =? "")%string; mred
      end; fields; rewrite Hfiles;
      match goal with
      | |- context [loadAdditionalValuesFiles h _ ?q w] =>
          destruct (@loadAdditionalValuesFiles_fails ok bad rest cause q w Hok Hbad)
            as (w' & -> & Hd & Hm)
      end; mred; cbn [fst snd];
      do 2 eexists; (split; [reflexivity|]); fields; auto.
Qed.

(** X3: whatever it returns, [validateArgs] starts no process and writes
    no file.  Either it leaves the disk as it was and makes no directory;
    or the plugin had neither a config home nor a [tmpDir], the validation
    succeeds, and the one change to the disk is the temporary directory
    that it makes, under the next name of [os.MkdirTemp], which was not on
    the disk and becomes the [tmpDir] of the plugin. *)
Theorem validation_touches_only_tmp_dir p w r p' w' :
  validateArgs X h p w = (r, p', w') ->
  execsOf (trace w') = execsOf (trace w) /\
  writesOf (trace w') = writesOf (trace w) /\
  ((disk w' = disk w /\ mkdirsOf (trace w') = mkdirsOf (trace w)) \/
   (ConfigHome p = "" /\ tmpDir p = "" /\ disk w (nextTmpDir X w) = None /\
    disk w' = os.put (nextTmpDir X w) Directory (disk w) /\
    mkdirsOf (trace w') = nextTmpDir X w :: mkdirsOf (trace w) /\
    tmpDir p' = nextTmpDir X w /\ r = Returns None)).
Proof.
  unfold validateArgs. intros H. mred.
  destruct (Name p =? "")%string eqn:EN.
  { injection H as <- <- <-. auto. }
  destruct (ChartHome p =? "")%string eqn:EC; mred;
    match type of H with
    | context [if (ValuesFile ?q =? "")%string then _ else _] =>
        destruct (ValuesFile q =? "")%string eqn:EV; mred
    end;
    match type of H with
    | context [loadAdditionalValuesFiles h ?fs ?q ?v] =>
        destruct (loadAdditionalValuesFiles h fs q v) as [[r1 p1] w1] eqn:E1;
        apply loadAdditionalValuesFiles_spec in E1;
        destruct E1 as (-> & Hd1 & Hn1 & Hm1 & Hw1 & Hx1 & out & -> & _)
    end; mred;
    (destruct (snd out) as [e|]; [injection H as <- <- <-; auto|]);
    match type of H with
    | context [errIfIllegalValuesMerge ?q ?v] =>
        destruct (errIfIllegalValuesMerge q v) as [[r2 p2] w2] eqn:E2;
        apply errIfIllegalValuesMerge_spec in E2;
        destruct E2 as (-> & Hp2 & err & -> & _)
    end; mred;
    (destruct err as [e|]; [injection H as <- <- <-; auto|]);
    fields; destruct (ValuesMerge p =? "")%string eqn:EM; subst p2; fields;
    destruct (ConfigHome p =? "")%string eqn:EH; mred.
  all: try (injection H as <- <- <-; auto; fail).
  all: match type of H with
    | context [establishTmpDir X ?q ?v] =>
        destruct (establishTmpDir X q v) as [[r3 p3] w3] eqn:E3;
        apply establishTmpDir_spec in E3;
        destruct E3 as (err3 & -> & Hx3 & Hl3 & Hw3 & Hset & Hunset)
    end; mred;
    (split; [destruct err3; injection H as <- <- <-; congruence|]);
    (split; [destruct err3; injection H as <- <- <-; congruence|]);
    apply String.eqb_eq in EH;
    (destruct (String.eqb_spec (tmpDir p) "") as [ET|ET];
     [ specialize (Hunset ET); destruct err3 as [e|];
       [ destruct Hunset as (_ & _ & Hd3 & Hm3); injection H as <- <- <-;
         left; split; congruence
       | destruct Hunset as (Hfree & -> & Hd3 & Hm3); injection H as <- <- <-;
         right; fields; unfold nextTmpDir in *; rewrite Hn1, Hd1 in *;
         repeat split; congruence ]
     | destruct (Hset ET) as (-> & _ & ->); injection H as <- <- <-;
       left; split; assumption ]).
Qed.

Lemma withProcessSettings_chart hc p :
  Name (withProcessSettings hc p) = Name p /\
  Version (withProcessSettings hc p) = Version p /\
  Repo (withProcessSettings hc p) = Repo p /\
  ValuesInline (withProcessSettings hc p) = ValuesInline p.
Proof.
  unfold withProcessSettings.
  destruct (negb (HelmConfig.KubeVersion hc =? ""));
    destruct (negb (Nat.eqb (length (HelmConfig.ApiVersions hc)) 0));
    destruct (HelmConfig.Debug hc); repeat split.
Qed.

(** X4: [Config] returns without an error only when the process has a
    general config in which helm is enabled and the helm command is not
    empty, and the document decodes.  The plugin then holds the name, the
    version and the repo of the document, or its own where the document
    has none; its name, chart home, values file and config home are not
    empty and its merge policy is legal; no process has been started and
    no file written.  Without a general config, with helm disabled or
    with an empty helm command, [Config] returns an error and leaves the
    plugin and the world as they were. *)
Theorem Config_needs_helm_enabled config p w :
  (forall p' w',
     Config X h config p w = (Returns None, p', w') ->
     exists gc y,
       GeneralConfig h = Some gc /\
       HelmConfig.Enabled (helmConfig gc) = true /\ helmOf gc <> "" /\
       yamlDecode X config = Ok y /\
       Name p' = orKeep (yName y) (Name p) /\
       Version p' = orKeep (yVersion y) (Version p) /\
       Repo p' = orKeep (yRepo y) (Repo p) /\
       Name p' <> "" /\ ChartHome p' <> "" /\ ValuesFile p' <> "" /\
       ConfigHome p' <> "" /\ In (ValuesMerge p') legalMergeOptions /\
       execsOf (trace w') = execsOf (trace w) /\
       writesOf (trace w') = writesOf (trace w)) /\
  ((forall gc, GeneralConfig h = Some gc ->
      HelmConfig.Enabled (helmConfig gc) = false \/ helmOf gc = "") ->
   exists e, Config X h config p w = (Returns (Some e), p, w)).
Proof.
  split.
  - intros p' w' H.
    destruct (GeneralConfig h) as [gc|] eqn:Hgc;
      [|unfold Config in H; rewrite Hgc in H; discriminate].
    destruct (HelmConfig.Enabled (helmConfig gc)) eqn:Hen;
      [|unfold Config in H; rewrite Hgc, Hen in H; discriminate].
    destruct (HelmConfig.Command (helmConfig gc) =? "")%string eqn:Hcmd;
      [unfold Config in H; rewrite Hgc, Hen, Hcmd in H; discriminate|].
    apply String.eqb_neq in Hcmd.
    destruct (yamlDecode X config) as [y|e] eqn:Hy.
    + rewrite (@Config_unfold X h config p w gc y Hgc Hen Hcmd Hy) in H.
      pose proof (@validateArgs_wellformed _ w p' w' H) as (_ & Hwf).
      apply validateArgs_ok in H.
      destruct H as (_ & (EN & EV & ER & _) & _ & _ & _ & _ & _ & _ & _ & Hw & Hx).
      destruct (withProcessSettings_chart (helmConfig gc) p) as (N & V & R & _).
      cbn [decodeInto Name Version Repo] in EN, EV, ER.
      rewrite N in EN. rewrite V in EV. rewrite R in ER.
      exists gc, y. unfold helmOf.
      destruct Hwf as (? & ? & ? & ? & ?). repeat (split; [easy|]). assumption.
    + unfold Config, Unmarshal in H. rewrite Hgc, Hen, Hy in H.
      apply String.eqb_neq in Hcmd. rewrite Hcmd in H. cbn [negb] in H. mred.
      destruct (HelmConfig.KubeVersion (helmConfig gc) =? "")%string;
        destruct (Nat.eqb (length (HelmConfig.ApiVersions (helmConfig gc))) 0);
        destruct (HelmConfig.Debug (helmConfig gc)); discriminate.
  - intros Hoff. unfold Config.
    destruct (GeneralConfig h) as [gc|]; [|eexists; reflexivity].
    destruct (Hoff gc eq_refl) as [Hen|Hcmd].
    + rewrite Hen. eexists; reflexivity.
    + unfold helmOf in Hcmd. rewrite Hcmd.
      destruct (HelmConfig.Enabled (helmConfig gc)); eexists; reflexivity.
Qed.

End Validation.

(** ** The run of helm and the temporary directory *)

Section Steps.

Variable X : Externals.
Variable h : PluginHelpers.

(** One run of helm: what it is given, what it leaves, and what the
    method makes of its error. *)
Lemma runHelmCommand_spec args p w gc :
  GeneralConfig h = Some gc ->
  exists stdout stderr err,
    fst (execRun X (helmOf gc) args (helmEnv p) (disk w)) = (stdout, stderr, err) /\
    runHelmCommand X h args p w =
      (Returns
         (stdout,
          match err with
          | None => None
          | Some e =>
              Some (Wrap (if strings.Contains args "--debug" then
                            " Helm stack trace:" ++ newline ++ stderr ++ newline
                            ++ "Helm template:" ++ newline ++ stdout ++ newline
                          else stderr)
                      (Wrap ("unable to run: '" ++ helmOf gc ++ " "
                             ++ strings.Join args " " ++ "' with env="
                             ++ fmtSlice (helmEnv p) ++ " (is '" ++ helmOf gc
                             ++ "' installed?)") e))
          end),
       p, afterRun X gc args p w).
Proof.
  intros Hgc. unfold runHelmCommand, afterRun, helmOf. rewrite Hgc.
  destruct (execRun X (HelmConfig.Command (helmConfig gc)) args (helmEnv p) (disk w))
    as [[[stdout stderr] err] fs].
  exists stdout, stderr, err. split; [reflexivity|].
  destruct err; reflexivity.
Qed.

Lemma runHelmCommand_returns args p w gc :
  GeneralConfig h = Some gc ->
  exists out err,
    runHelmCommand X h args p w = (Returns (out, err), p, afterRun X gc args p w).
Proof.
  intros Hgc.
  destruct (runHelmCommand_spec args p w Hgc) as (stdout & stderr & err & _ & ->).
  eauto.
Qed.

Lemma checkHelmVersion_returns p w gc :
  GeneralConfig h = Some gc ->
  exists gate,
    checkHelmVersion X h p w = (Returns gate, p, afterRun X gc versionArgs p w).
Proof.
  intros Hgc. unfold checkHelmVersion. mred.
  destruct (runHelmCommand_returns versionArgs p w Hgc) as (out & err & E).
  unfold versionArgs in E at 1. rewrite E. cbv beta iota delta [fst snd].
  destruct err as [e|]; [eauto|].
  repeat break_match; eauto.
Qed.

Lemma nextTmpDir_nonempty w : nextTmpDir X w <> "".
Proof. unfold nextTmpDir. apply append_nonempty. Qed.

(** Writing the values: the file is at [valuesPathOf], inside the
    temporary directory, which is made on the way when there is none. *)
Lemma writeValuesBytes_spec b p w r p' w' :
  writeValuesBytes X b p w = (r, p', w') ->
  execsOf (trace w') = execsOf (trace w) /\
  loadsOf (trace w') = loadsOf (trace w) /\
  (forall q, (q = tmpDir p' -> tmpDir p' = "") -> q <> valuesPathOf p' ->
             disk w' q = disk w q) /\
  exists path err, r = Returns (path, err) /\
    match err with
    | None =>
        path = valuesPathOf p' /\ tmpDir p' <> "" /\
        writesOf (trace w') = (path, b) :: writesOf (trace w) /\
        disk w' path = Some (File b)
    | Some e =>
        writesOf (trace w') = writesOf (trace w) /\
        ((path = "" /\ e = Errorf "cannot create tmp dir to write helm values") \/
         (path = valuesPathOf p' /\
          exists cause, e = Wrap "failed to write values file" cause))
    end.
Proof.
  unfold writeValuesBytes. intros H. mred.
  destruct (establishTmpDir X p w) as [[r1 p1] w1] eqn:E1.
  apply establishTmpDir_spec in E1.
  destruct E1 as (err1 & -> & Hx1 & Hl1 & Hw1 & Hset & Hunset).
  assert (Hframe1 : forall q, (q = tmpDir p1 -> tmpDir p1 = "") ->
                              disk w1 q = disk w q).
  { intros q Hq. destruct (String.eqb_spec (tmpDir p) "") as [Et|Et].
    - specialize (Hunset Et). destruct err1.
      + destruct Hunset as (_ & _ & -> & _). reflexivity.
      + destruct Hunset as (_ & -> & -> & _). fields. unfold os.put.
        destruct (String.eqb_spec q (nextTmpDir X w)) as [Eq|Eq]; [|reflexivity].
        now destruct (nextTmpDir_nonempty w (Hq Eq)).
    - destruct (Hset Et) as (_ & _ & ->). reflexivity. }
  assert (Hdir : err1 = None -> tmpDir p1 <> "").
  { intros ->. destruct (String.eqb_spec (tmpDir p) "") as [Et|Et].
    - destruct (Hunset Et) as (_ & -> & _). fields. apply nextTmpDir_nonempty.
    - destruct (Hset Et) as (_ & -> & _). exact Et. }
  destruct err1 as [e1|].
  - injection H as <- <- <-. repeat (split; [assumption|]).
    split; [intros q Hq _; now apply Hframe1|].
    do 2 eexists. split; [reflexivity|]. split; [assumption|]. left. auto.
  - specialize (Hdir eq_refl). unfold WriteFile, os.WriteFile in H.
    fold (valuesPathOf p1) in H.
    destruct (disk w1 (filepath.Dir (valuesPathOf p1))) as [[|c]|];
      [destruct (disk w1 (valuesPathOf p1)) as [[|c]|] eqn:Hp1| |];
      injection H as <- <- <-; cbn [trace disk];
      (split; [assumption|]); (split; [assumption|]);
      (split;
       [intros q Hq Hq'; unfold os.put;
        try (apply String.eqb_neq in Hq'; rewrite Hq'); now apply Hframe1|]);
      do 2 eexists; (split; [reflexivity|]); cbn [WrapPrefixf];
      try (split; [assumption|]; right; split; [reflexivity|]; eexists; reflexivity);
      (split; [reflexivity|]); (split; [assumption|]);
      (split; [rewrite <- Hw1; reflexivity|]); unfold os.put; now rewrite String.eqb_refl.
Qed.

Lemma replaceValuesInline_quiet p w r p' w' :
  replaceValuesInline X h p w = (r, p', w') ->
  execsOf (trace w') = execsOf (trace w) /\
  writesOf (trace w') = writesOf (trace w) /\
  disk w' = disk w /\ tmpDir p' = tmpDir p /\ Name p' = Name p /\
  exists err, r = Returns err.
Proof.
  unfold replaceValuesInline. intros H. mred. unfold load in H.
  destruct (Load (getLoader h) (disk w) (ValuesFile p)) as [b|e];
    [destruct (kyamlParse X b) as [chValues|e];
     [unfold kyaml.FromMap in H; cbv beta iota zeta in H;
      match type of H with
      | context [mapOf ?o] => destruct (mapOf o) as [mapValues|e]
      end|]|];
    mred; injection H as <- <- <-; repeat split; eauto.
Qed.

Lemma valuesStep_spec p w r p' w' :
  valuesStep X h p p w = (r, p', w') ->
  execsOf (trace w') = execsOf (trace w) /\
  (forall q, (q = tmpDir p' -> tmpDir p' = "") -> q <> valuesPathOf p' ->
             disk w' q = disk w q) /\
  exists path err, r = Returns (path, err) /\
    match err with
    | None =>
        path = valuesPathOf p' /\ tmpDir p' <> "" /\
        exists b, writesOf (trace w') = (path, b) :: writesOf (trace w) /\
                  disk w' path = Some (File b)
    | Some e => writesOf (trace w') = writesOf (trace w)
    end.
Proof.
  assert (Hwrite : forall b p0 w0,
    execsOf (trace w0) = execsOf (trace w) ->
    writesOf (trace w0) = writesOf (trace w) ->
    disk w0 = disk w ->
    writeValuesBytes X b p0 w0 = (r, p', w') ->
    execsOf (trace w') = execsOf (trace w) /\
    (forall q, (q = tmpDir p' -> tmpDir p' = "") -> q <> valuesPathOf p' ->
             disk w' q = disk w q) /\
    exists path err, r = Returns (path, err) /\
      match err with
      | None =>
          path = valuesPathOf p' /\ tmpDir p' <> "" /\
          exists b, writesOf (trace w') = (path, b) :: writesOf (trace w) /\
                    disk w' path = Some (File b)
      | Some e => writesOf (trace w') = writesOf (trace w)
      end).
  { intros b p0 w0 Hx0 Hw0 Hd0 H. apply writeValuesBytes_spec in H.
    destruct H as (Hx & _ & Hframe & path & err & -> & Hres).
    split; [congruence|]. split; [intros q Hq Hq'; rewrite <- Hd0; auto|].
    exists path, err. split; [reflexivity|].
    destruct err as [e|].
    - destruct Hres as (Hw & _). congruence.
    - destruct Hres as (Hpath & Hdir & Hw & Hfile).
      split; [assumption|]. split; [assumption|]. exists b.
      split; [congruence|assumption]. }
  unfold valuesStep. destruct (Nat.ltb 0 (length (ValuesInline p))).
  - unfold createNewMergedValuesFile. intros H. mred.
    fold (mergesWithBase p) in H.
    destruct (mergesWithBase p).
    + destruct (replaceValuesInline X h p w) as [[r1 p1] w1] eqn:E1.
      apply replaceValuesInline_quiet in E1.
      destruct E1 as (Hx1 & Hw1 & Hd1 & Ht1 & Hn1 & err1 & ->).
      destruct err1 as [e|]; mred.
      * injection H as <- <- <-. split; [assumption|].
        split; [intros; now rewrite Hd1|]. do 2 eexists.
        split; [reflexivity|assumption].
      * destruct (yamlMarshal X (ValuesInline p1)) as [b|e].
        -- eapply Hwrite; eassumption.
        -- injection H as <- <- <-. split; [assumption|].
           split; [intros; now rewrite Hd1|]. do 2 eexists.
           split; [reflexivity|assumption].
    + mred. destruct (yamlMarshal X (ValuesInline p)) as [b|e].
      * eapply Hwrite; try eassumption; reflexivity.
      * injection H as <- <- <-. split; [reflexivity|].
        split; [reflexivity|]. do 2 eexists. split; reflexivity.
  - unfold copyValuesFile. intros H. mred. unfold load in H.
    destruct (Load (getLoader h) (disk w) (ValuesFile p)) as [b|e].
    + eapply Hwrite; try eassumption; reflexivity.
    + injection H as <- <- <-. split; [reflexivity|].
      split; [reflexivity|]. do 2 eexists. split; reflexivity.
Qed.



End Steps.

(** ** [Generate], step by step *)

Section GenerateSteps.

Variable X : Externals.
Variable h : PluginHelpers.

(** The first steps of [Generate] by cases: the gate, the chart on the
    disk, the pull. *)
Lemma Generate_locate_cases p w gc :
  GeneralConfig h = Some gc ->
  exists gate,
    checkHelmVersion X h p w = (Returns gate, p, afterRun X gc versionArgs p w) /\
    Generate_locate X h p w =
      match gate with
      | Some e => (Returns (Some e), p, afterRun X gc versionArgs p w)
      | None =>
          match disk (afterRun X gc versionArgs p w) (probedPath h p) with
          | Some Directory => (Returns None, p, afterRun X gc versionArgs p w)
          | found =>
              if (Repo p =? "")%string then
                (Returns (Some (noChartAt (match found with
                                           | Some _ => probedPath h p
                                           | None => ""
                                           end))),
                 p, afterRun X gc versionArgs p w)
              else
                match runHelmCommand X h (pullCommand h p) p
                        (afterRun X gc versionArgs p w) with
                | (Returns out, p2, w2) => (Returns (snd out), p2, w2)
                | (Panics why, p2, w2) => (Panics why, p2, w2)
                end
          end
      end.
Proof.
  intros Hgc. destruct (@checkHelmVersion_returns X h p w gc Hgc) as (gate & E).
  exists gate. split; [exact E|].
  unfold Generate_locate. mred. rewrite E.
  destruct gate as [e|]; [reflexivity|].
  unfold chartExistsLocally, os.Stat. mred. fold (probedPath h p).
  destruct (disk (afterRun X gc versionArgs p w) (probedPath h p)) as [[|c]|];
    cbn [os.IsDir snd fst negb]; try reflexivity;
    destruct (Repo p =? "")%string; reflexivity.
Qed.

Lemma afterRun_quiet gc args p w : quietHelm X -> disk (afterRun X gc args p w) = disk w.
Proof. intros Hq. unfold afterRun. cbn [disk]. apply Hq. Qed.

(** What the first steps leave: one run of helm for the version, then
    possibly one for the pull; no file read, written or made. *)
Lemma Generate_locate_obs p w gc :
  GeneralConfig h = Some gc ->
  exists err w1,
    Generate_locate X h p w = (Returns err, p, w1) /\
    (execsOf (trace w1) =
       (helmOf gc, versionArgs, helmEnv p) :: execsOf (trace w) \/
     execsOf (trace w1) =
       (helmOf gc, pullCommand h p, helmEnv p)
       :: (helmOf gc, versionArgs, helmEnv p) :: execsOf (trace w)) /\
    loadsOf (trace w1) = loadsOf (trace w) /\
    writesOf (trace w1) = writesOf (trace w) /\
    mkdirsOf (trace w1) = mkdirsOf (trace w) /\
    (quietHelm X -> disk w1 = disk w).
Proof.
  intros Hgc. destruct (Generate_locate_cases p w Hgc) as (gate & _ & ->).
  assert (Hstay : forall err : option error,
    exists err' w1,
      (Returns err, p, afterRun X gc versionArgs p w) = (Returns err', p, w1) /\
      (execsOf (trace w1) =
         (helmOf gc, versionArgs, helmEnv p) :: execsOf (trace w) \/
       execsOf (trace w1) =
         (helmOf gc, pullCommand h p, helmEnv p)
         :: (helmOf gc, versionArgs, helmEnv p) :: execsOf (trace w)) /\
      loadsOf (trace w1) = loadsOf (trace w) /\
      writesOf (trace w1) = writesOf (trace w) /\
      mkdirsOf (trace w1) = mkdirsOf (trace w) /\
        (quietHelm X -> disk w1 = disk w)).
  { intros err. do 2 eexists. split; [reflexivity|].
    split; [left; reflexivity|]. repeat (split; [reflexivity|]).
    apply afterRun_quiet. }
  destruct gate as [e|]; [apply Hstay|].
  destruct (disk (afterRun X gc versionArgs p w) (probedPath h p)) as [[|c]|];
    [apply Hstay| |]; (destruct (Repo p =? "")%string; [apply Hstay|]);
    destruct (@runHelmCommand_returns X h (pullCommand h p) p
                (afterRun X gc versionArgs p w) gc Hgc) as (out & err & ->);
    do 2 eexists; (split; [reflexivity|]); (split; [right; reflexivity|]);
    repeat (split; [reflexivity|]);
    intros Hq; now rewrite !afterRun_quiet.
Qed.

Lemma valuesStep_evolves p w r p' w' :
  valuesStep X h p p w = (r, p', w') -> exists new, evolves p w p' w' new.
Proof.
  unfold valuesStep. destruct (Nat.ltb 0 (length (ValuesInline p))); intros H.
  - apply createNewMergedValuesFile_evolves in H.
    destruct H as (_ & new & Hev & _). eauto.
  - apply copyValuesFile_evolves in H.
    destruct H as (_ & new & Hev & _). eauto.
Qed.

(** What [Generate] has done when it comes to read the output of the
    render. *)
Lemma Generate_render_obs p w gc r p' w' :
  GeneralConfig h = Some gc ->
  Generate_render X h p w = (r, p', w') ->
  (exists runs,
     execsOf (trace w') = (runs ++ execsOf (trace w))%list /\
     Forall (fun run => fst (fst run) = helmOf gc /\ snd run = helmEnv p) runs /\
     In (rev (map argsOf runs)) (runsOf X h p p')) /\
  (writesOf (trace w') = writesOf (trace w) \/
   exists b, writesOf (trace w') = (valuesPathOf p', b) :: writesOf (trace w)) /\
  (quietHelm X ->
   forall q, (q = tmpDir p' -> tmpDir p' = "") -> q <> valuesPathOf p' ->
             disk w' q = disk w q) /\
  exists res, r = Returns res /\
    (forall stdout, res = Ok stdout ->
       ValuesFile p' = valuesPathOf p' /\ tmpDir p' <> "").
Proof.
  intros Hgc H. rewrite Generate_render_phases in H.
  destruct (Generate_locate_obs p w Hgc)
    as (err1 & w1 & E1 & Hx1 & Hl1 & Hw1 & Hm1 & Hd1).
  rewrite E1 in H.
  assert (Hruns1 : exists runs,
    execsOf (trace w1) = (runs ++ execsOf (trace w))%list /\
    Forall (fun run => fst (fst run) = helmOf gc /\ snd run = helmEnv p) runs /\
    (rev (map argsOf runs) = [versionArgs] \/
     rev (map argsOf runs) = [versionArgs; pullCommand h p])).
  { destruct Hx1 as [Hx1|Hx1]; rewrite Hx1.
    - exists [(helmOf gc, versionArgs, helmEnv p)].
      split; [reflexivity|]. split; [repeat constructor|]. left. reflexivity.
    - exists [(helmOf gc, pullCommand h p, helmEnv p);
              (helmOf gc, versionArgs, helmEnv p)].
      split; [reflexivity|]. split; [repeat constructor|]. right. reflexivity. }
  clear Hx1. destruct Hruns1 as (runs & Hx1 & Hall & Hrev).
  assert (Hin : forall vp, In (rev (map argsOf runs)) (runsOf X h p vp)).
  { intros vp. unfold runsOf. destruct Hrev as [->| ->]; cbn [In]; auto. }
  destruct err1 as [e|].
  { injection H as <- <- <-.
    split; [exists runs; auto|].
    split; [left; assumption|]. split; [intros Hq q _ _; now rewrite (Hd1 Hq)|].
    eexists. split; [reflexivity|]. discriminate. }
  fold (valuesStep X h p) in H.
  destruct (valuesStep X h p p w1) as [[r2 p2] w2] eqn:E2.
  destruct (valuesStep_evolves _ _ E2) as (new2 & Hev2).
  apply valuesStep_spec in E2.
  destruct E2 as (Hx2 & Hframe2 & path & verr & -> & Hres2).
  destruct verr as [e|].
  { injection H as <- <- <-. fields.
    split; [exists runs; split; [congruence|auto]|].
    split; [left; congruence|].
    split; [intros Hq q Hq1 Hq2; rewrite <- (Hd1 Hq);
            apply Hframe2; [exact Hq1|exact Hq2]|].
    eexists. split; [reflexivity|]. discriminate. }
  destruct Hres2 as (Hpath & Hdir & b & Hw2 & Hfile).
  set (vp := setValuesFile path p2) in *.
  assert (Hev : evolves p w1 vp w2 new2) by now apply evolves_setValuesFile.
  assert (Henv : helmEnv vp = helmEnv p).
  { unfold helmEnv. now rewrite (ev_ConfigHome Hev). }
  destruct (@runHelmCommand_returns X h (AsHelmArgs X vp (absChartHome h vp)) vp
              w2 gc Hgc) as (out & rerr & E3).
  rewrite E3 in H.
  assert (Hp' : p' = vp /\ w' = afterRun X gc (AsHelmArgs X vp (absChartHome h vp)) vp w2
                /\ exists res, r = Returns res)
    by (destruct rerr; injection H as <- <- <-; eauto).
  destruct Hp' as (-> & -> & res & ->). clear H.
  split; [|split; [|split]].
  - exists ((helmOf gc, AsHelmArgs X vp (absChartHome h p), helmEnv p) :: runs).
    split; [|split].
    + cbn [afterRun trace]. rewrite (absChartHome_evolves h Hev), Henv.
      change (execsOf (EvExec ?c ?a ?e :: ?t)) with ((c, a, e) :: execsOf t).
      rewrite Hx2, Hx1. reflexivity.
    + constructor; [split; reflexivity|assumption].
    + cbn [map rev]. unfold argsOf at 2. cbn [fst snd]. unfold runsOf.
      destruct Hrev as [->| ->]; cbn [In app]; auto.
  - right. exists b. cbn [afterRun trace].
    change (writesOf (EvExec ?c ?a ?e :: ?t)) with (writesOf t).
    rewrite Hw2, Hw1, Hpath. reflexivity.
  - intros Hq q Hq1 Hq2. rewrite afterRun_quiet by assumption.
    rewrite <- (Hd1 Hq). apply Hframe2; [exact Hq1|exact Hq2].
  - eexists. split; [reflexivity|]. intros stdout _. split; [|assumption].
    unfold vp at 1. fields. exact Hpath.
Qed.

(** The deferred [cleanup] adds one removal to the trace, and takes from
    the disk what is in the temporary directory. *)
Lemma cleanup_obs p1 w1 :
  let w' := if (tmpDir p1 =? "")%string then w1
            else emit (EvRemoveAll (tmpDir p1))
                   (onDisk (os.RemoveAll (tmpDir p1)) w1) in
  execsOf (trace w') = execsOf (trace w1) /\
  loadsOf (trace w') = loadsOf (trace w1) /\
  writesOf (trace w') = writesOf (trace w1) /\
  mkdirsOf (trace w') = mkdirsOf (trace w1) /\
  (forall q, ~ (tmpDir p1 <> "" /\ os.within (tmpDir p1) q = true) ->
             disk w' q = disk w1 q) /\
  (forall q, tmpDir p1 <> "" -> os.within (tmpDir p1) q = true ->
             disk w' q = None).
Proof.
  cbv zeta. destruct (String.eqb_spec (tmpDir p1) "") as [E|E].
  - do 4 (split; [reflexivity|]). split; [reflexivity|].
    intros q Hset. contradiction.
  - do 4 (split; [reflexivity|]). cbn [emit onDisk disk]. unfold os.RemoveAll.
    split.
    + intros q Hq. destruct (os.within (tmpDir p1) q) eqn:W; [|reflexivity].
      now destruct Hq.
    + intros q _ ->. reflexivity.
Qed.

Lemma Generate_render_nil p w :
  GeneralConfig h = None ->
  Generate_render X h p w =
    (Panics "invalid memory address or nil pointer dereference", p, w).
Proof.
  intros Hgc. rewrite Generate_render_phases.
  unfold Generate_locate, checkHelmVersion, runHelmCommand. mred.
  rewrite Hgc. reflexivity.
Qed.

(** A gate that lets [Generate] pass has read a version 3 from a run of
    helm that did not fail. *)
Lemma checkHelmVersion_pass p w gc p1 w1 :
  GeneralConfig h = Some gc ->
  checkHelmVersion X h p w = (Returns None, p1, w1) ->
  exists vout verr,
    fst (execRun X (helmOf gc) versionArgs (helmEnv p) (disk w))
      = (vout, verr, None) /\
    regexp.FindString vout <> "" /\
    majorVersion (regexp.FindString vout) = "3".
Proof.
  intros Hgc H. unfold helmOf.
  destruct (execRun X (HelmConfig.Command (helmConfig gc)) versionArgs (helmEnv p)
              (disk w)) as [[[vout verr] [e|]] fs] eqn:Hrun.
  - unfold checkHelmVersion, runHelmCommand in H. mred. rewrite Hgc in H.
    unfold versionArgs in Hrun. rewrite Hrun in H. discriminate.
  - rewrite (@checkHelmVersion_unfold X h p w gc vout verr fs Hgc Hrun) in H.
    exists vout, verr. split; [reflexivity|].
    destruct (String.eqb_spec (regexp.FindString vout) ""); [discriminate|].
    split; [assumption|].
    destruct (String.eqb_spec (majorVersion (regexp.FindString vout)) "3");
      [assumption|discriminate].
Qed.

(** X7: the only processes that [Generate] starts are runs of the helm
    command of the process settings, each with the helm homes of the
    plugin's config home added to its environment.  There are one, two or
    three of them: first the version, then possibly the pull, then
    possibly the render of the plugin that [Generate] leaves, for the
    absolute chart home. *)
Theorem Generate_runs_helm_only p w gc r p' w' :
  GeneralConfig h = Some gc ->
  Generate X h p w = (r, p', w') ->
  exists runs,
    execsOf (trace w') = (runs ++ execsOf (trace w))%list /\
    Forall (fun run => fst (fst run) = helmOf gc /\ snd run = helmEnv p) runs /\
    In (rev (map argsOf runs)) (runsOf X h p p').
Proof.
  intros Hgc H. rewrite Generate_unfold in H.
  destruct (Generate_render X h p w) as [[r1 p1] w1] eqn:E.
  injection H as _ <- <-.
  destruct (@Generate_render_obs p w gc r1 p1 w1 Hgc E)
    as ((runs & Hx & Hall & Hin) & _).
  exists runs. split; [|split; assumption].
  destruct (cleanup_obs p1 w1) as (-> & _). exact Hx.
Qed.


(** X9: with a general config, [Generate] does not panic: it returns
    either resources and no error, or an error and no resources.  Without
    one it panics at the first run of helm. *)
Theorem Generate_result_or_error p w :
  (forall gc,
     GeneralConfig h = Some gc ->
     exists rm err p' w',
       Generate X h p w = (Returns (rm, err), p', w') /\
       (rm = None <-> err <> None) /\ (err = None <-> rm <> None)) /\
  (GeneralConfig h = None ->
   exists w',
     Generate X h p w =
       (Panics "invalid memory address or nil pointer dereference", p, w')).
Proof.
  split.
  - intros gc Hgc. rewrite Generate_unfold.
    destruct (Generate_render X h p w) as [[r1 p1] w1] eqn:E.
    destruct (@Generate_render_obs p w gc r1 p1 w1 Hgc E)
      as (_ & _ & _ & res & -> & _).
    assert (Hone : forall e : error,
              ((@None ResMap) = None <-> Some e <> None) /\
              (Some e = None <-> (@None ResMap) <> None)).
    { intros e. repeat split; try discriminate; intros; congruence. }
    assert (Hres : forall rm : ResMap,
              (Some rm = None <-> (@None error) <> None) /\
              ((@None error) = None <-> Some rm <> None)).
    { intros rm. repeat split; try discriminate; intros; congruence. }
    destruct res as [stdout|e]; [|do 4 eexists; split; [reflexivity|apply Hone]].
    unfold Generate_parse.
    destruct (NewResMapFromBytes (getResmapFactory h) stdout) as [rm|resMapErr];
      [do 4 eexists; split; [reflexivity|apply Hres]|].
    destruct (byteReaderRead X stdout) as [nodes|e];
      [|do 4 eexists; split; [reflexivity|apply Hone]].
    destruct (negb (Nat.eqb (length nodes) 0));
      [|do 4 eexists; split; [reflexivity|apply Hone]].
    destruct (NewResMapFromRNodeSlice (getResmapFactory h) nodes) as [rm|e];
      do 4 eexists; (split; [reflexivity|]); [apply Hres|apply Hone].
  - intros Hgc. rewrite Generate_unfold, (Generate_render_nil p w Hgc).
    eexists. reflexivity.
Qed.

(** X10: when [Generate] returns resources, it returns no error; the
    run of helm for the version did not fail and printed a version token
    with the major version 3; the render did not fail, ran on a disk
    that held the values file of the plugin at [valuesPathOf], in the
    temporary directory, and the resources are what the resource factory
    makes of its standard output: of the bytes, or else of the nodes, at
    least one, that the reader finds in them. *)
Theorem resources_come_from_helm3 p w rm err p' w' :
  Generate X h p w = (Returns (Some rm, err), p', w') ->
  err = None /\
  exists gc vout verr stdout w1,
    GeneralConfig h = Some gc /\
    fst (execRun X (helmOf gc) versionArgs (helmEnv p) (disk w))
      = (vout, verr, None) /\
    regexp.FindString vout <> "" /\
    majorVersion (regexp.FindString vout) = "3" /\
    Generate_render X h p w = (Returns (Ok stdout), p', w1) /\
    (NewResMapFromBytes (getResmapFactory h) stdout = Ok rm \/
     exists resMapErr nodes,
       NewResMapFromBytes (getResmapFactory h) stdout = Err resMapErr /\
       byteReaderRead X stdout = Ok nodes /\ nodes <> [] /\
       NewResMapFromRNodeSlice (getResmapFactory h) nodes = Ok rm) /\
    ValuesFile p' = valuesPathOf p' /\ tmpDir p' <> "" /\
    exists fs stderr b,
      execRun X (helmOf gc) (AsHelmArgs X p' (absChartHome h p)) (helmEnv p) fs
        = ((stdout, stderr, None), disk w1) /\
      fs (ValuesFile p') = Some (File b).
Proof.
  intros H. rewrite Generate_unfold in H.
  destruct (Generate_render X h p w) as [[r1 p1] w1] eqn:E.
  injection H as Hr <- _.
  destruct (GeneralConfig h) as [gc|] eqn:Hgc;
    [|rewrite (Generate_render_nil p w Hgc) in E; injection E as <- _ _;
      discriminate].
  destruct (@Generate_render_obs p w gc r1 p1 w1 Hgc E)
    as (_ & _ & _ & res & -> & Hvalues).
  destruct res as [stdout|e]; [|discriminate]. injection Hr as Hparse.
  destruct (Hvalues stdout eq_refl) as (Hfile & Hdir).
  assert (Hpass : exists w0, checkHelmVersion X h p w = (Returns None, p, w0)).
  { destruct (Generate_locate_cases p w Hgc) as (gate & Hgate & Hloc).
    destruct gate as [e|]; [|eauto].
    rewrite Generate_render_phases, Hloc in E. discriminate. }
  destruct Hpass as (w0 & Hpass).
  destruct (@checkHelmVersion_pass p w gc p w0 Hgc Hpass)
    as (vout & verr & Hrun & Hfound & Hmajor).
  destruct (@Generate_render_evolves X h p w _ _ _ E) as (new & _ & _ & _ & Hrender).
  destruct (Hrender stdout eq_refl) as (gc' & fs & stderr & b & Hgc' & Hexec & Hfs & _).
  rewrite Hgc in Hgc'. injection Hgc' as <-.
  assert (Hrm : err = None /\
    (NewResMapFromBytes (getResmapFactory h) stdout = Ok rm \/
     exists resMapErr nodes,
       NewResMapFromBytes (getResmapFactory h) stdout = Err resMapErr /\
       byteReaderRead X stdout = Ok nodes /\ nodes <> [] /\
       NewResMapFromRNodeSlice (getResmapFactory h) nodes = Ok rm)).
  { unfold Generate_parse in Hparse.
    destruct (NewResMapFromBytes (getResmapFactory h) stdout) as [rm0|resMapErr];
      [injection Hparse as <- <-; auto|].
    destruct (byteReaderRead X stdout) as [nodes|e]; [|discriminate].
    destruct nodes as [|n nodes]; [discriminate|]. cbn [length Nat.eqb negb] in Hparse.
    destruct (NewResMapFromRNodeSlice (getResmapFactory h) (n :: nodes)) as [rm0|e]
      eqn:Hmake; [|discriminate].
    injection Hparse as <- <-. split; [reflexivity|]. right.
    exists resMapErr, (n :: nodes). repeat split; try assumption. discriminate. }
  destruct Hrm as (-> & Hrm). split; [reflexivity|].
  exists gc, vout, verr, stdout, w1. repeat (split; [assumption || reflexivity|]).
  exists fs, stderr, b. split; assumption.
Qed.

Lemma prefix_app a b : String.prefix a (a ++ b) = true.
Proof.
  induction a as [|c a IH]; [apply prefix_empty|].
  cbn [append String.prefix]. destruct (ascii_dec c c); [exact IH|contradiction].
Qed.

Lemma values_name_plain name :
  hasSeparator name = false -> plainElement (name ++ "-kustomize-values.yaml").
Proof.
  intros Hname. unfold plainElement. rewrite hasSeparator_app, Hname.
  split; [reflexivity|].
  destruct name as [|c [|c' [|c'' name]]]; repeat split; discriminate.
Qed.

(** Where the values file is, for a clean absolute temporary directory. *)
Lemma valuesPathOf_within p :
  filepath.IsAbs (tmpDir p) = true -> filepath.Clean (tmpDir p) = tmpDir p ->
  tmpDir p <> "/" -> hasSeparator (Name p) = false ->
  valuesPathOf p = tmpDir p ++ "/" ++ Name p ++ "-kustomize-values.yaml" /\
  os.within (tmpDir p) (valuesPathOf p) = true.
Proof.
  intros Habs Hclean Hroot Hname. unfold valuesPathOf.
  rewrite (@Join_child (tmpDir p) (Name p ++ "-kustomize-values.yaml") Habs
             (values_name_plain _ Hname)).
  rewrite Hclean. unfold child. apply String.eqb_neq in Hroot. rewrite Hroot.
  split; [reflexivity|]. unfold os.within.
  assert (E : tmpDir p ++ "/" ++ Name p ++ "-kustomize-values.yaml"
              = (tmpDir p ++ "/") ++ Name p ++ "-kustomize-values.yaml").
  { symmetry. apply append_assoc. }
  rewrite E at 2. rewrite prefix_app. apply orb_true_r.
Qed.

(** X11: [Generate] writes at most one file, the values file of the
    render, at [valuesPathOf] of the plugin it leaves.  A plugin that came
    with a temporary directory keeps it, and no other directory is made.
    For a clean absolute temporary directory and a name without a
    separator, the values file is the file
    [<name>-kustomize-values.yaml] in that directory, and it is not on the
    disk any more when [Generate] returns. *)
Theorem values_file_is_temporary p w gc r p' w' :
  GeneralConfig h = Some gc ->
  Generate X h p w = (r, p', w') ->
  (writesOf (trace w') = writesOf (trace w) \/
   exists b, writesOf (trace w') = (valuesPathOf p', b) :: writesOf (trace w)) /\
  Name p' = Name p /\
  (tmpDir p <> "" ->
   tmpDir p' = tmpDir p /\ mkdirsOf (trace w') = mkdirsOf (trace w)) /\
  (filepath.IsAbs (tmpDir p') = true -> filepath.Clean (tmpDir p') = tmpDir p' ->
   tmpDir p' <> "/" -> hasSeparator (Name p) = false ->
   valuesPathOf p' = tmpDir p' ++ "/" ++ Name p ++ "-kustomize-values.yaml" /\
   os.within (tmpDir p') (valuesPathOf p') = true /\
   disk w' (valuesPathOf p') = None).
Proof.
  intros Hgc H. rewrite Generate_unfold in H.
  destruct (Generate_render X h p w) as [[r1 p1] w1] eqn:E.
  injection H as _ <- <-.
  destruct (@Generate_render_obs p w gc r1 p1 w1 Hgc E) as (_ & Hwrites & _).
  destruct (@Generate_render_evolves X h p w _ _ _ E) as (new & Hev & _).
  destruct (cleanup_obs p1 w1) as (_ & _ & Hw & Hm & _ & Hgone).
  split; [rewrite Hw; exact Hwrites|].
  split; [apply (ev_Name Hev)|]. split.
  - intros Hset. destruct (ev_tmpDir_kept Hev Hset) as (Hkept & Hnone).
    split; [assumption|]. rewrite Hm, (ev_trace Hev), mkdirsOf_app, Hnone.
    reflexivity.
  - intros Habs Hclean Hroot Hname. rewrite <- (ev_Name Hev) in Hname.
    destruct (valuesPathOf_within p1 Habs Hclean Hroot Hname) as (Hpath & Hin).
    rewrite (ev_Name Hev) in Hpath.
    split; [assumption|]. split; [assumption|].
    apply Hgone; [|assumption]. now apply IsAbs_nonempty.
Qed.

(** What [Generate] returns when the step of the values file fails
    with [e] and leaves [path], a plugin and a world. *)
Lemma Generate_values_failed p w w1 path e p2 w2 :
  Generate_locate X h p w = (Returns None, p, w1) ->
  valuesStep X h p p w1 = (Returns (path, Some e), p2, w2) ->
  Generate X h p w =
    (Returns (None, Some e), setValuesFile path p2,
     if (tmpDir p2 =? "")%string then w2
     else emit (EvRemoveAll (tmpDir p2)) (onDisk (os.RemoveAll (tmpDir p2)) w2)).
Proof.
  intros Hloc Hvalues. rewrite Generate_unfold, Generate_render_phases, Hloc.
  fold (valuesStep X h p). rewrite Hvalues. reflexivity.
Qed.

(** X12: after the gate and the chart, with no inline values or with
    inline values under the policies merge and override, a values file
    that the loader cannot read makes [Generate] fail with the error of
    the loader as it is, and one that does not parse, under merge and
    override, with the error of the parser, wrapped.  Nothing has been
    written, no directory made and no render run; the plugin is left with
    an empty values file path. *)
Theorem unreadable_values_file_is_fatal p w w1 :
  Generate_locate X h p w = (Returns None, p, w1) ->
  (forall e,
     ValuesInline p = [] \/ mergesWithBase p = true ->
     Load (getLoader h) (disk w1) (ValuesFile p) = Err e ->
     exists w',
       Generate X h p w = (Returns (None, Some e), setValuesFile "" p, w') /\
       execsOf (trace w') = execsOf (trace w1) /\
       writesOf (trace w') = writesOf (trace w1) /\
       mkdirsOf (trace w') = mkdirsOf (trace w1) /\
       loadsOf (trace w') = (ValuesFile p, Err e) :: loadsOf (trace w1)) /\
  (forall b e,
     ValuesInline p <> [] -> mergesWithBase p = true ->
     Load (getLoader h) (disk w1) (ValuesFile p) = Ok b ->
     kyamlParse X b = Err e ->
     exists w',
       Generate X h p w =
         (Returns (None, Some (Wrap "could not parse values file into rnode" e)),
          setValuesFile "" p, w') /\
       execsOf (trace w') = execsOf (trace w1) /\
       writesOf (trace w') = writesOf (trace w1) /\
       mkdirsOf (trace w') = mkdirsOf (trace w1)).
Proof.
  intros Hloc. split.
  - intros e Hpolicy Hload.
    assert (Hstep : valuesStep X h p p w1 =
              (Returns ("", Some e), p,
               emit (EvLoad (ValuesFile p) (Err e)) w1)).
    { unfold valuesStep.
      destruct (Nat.ltb 0 (length (ValuesInline p))) eqn:Hinline.
      - destruct Hpolicy as [Hnone|Hmerge];
          [rewrite Hnone in Hinline; discriminate|].
        unfold createNewMergedValuesFile. mred. fold (mergesWithBase p).
        rewrite Hmerge. unfold replaceValuesInline, load. mred.
        rewrite Hload. reflexivity.
      - unfold copyValuesFile, load. mred. rewrite Hload. reflexivity. }
    rewrite (@Generate_values_failed p w w1 _ _ _ _ Hloc Hstep). eexists. split; [reflexivity|].
    destruct (cleanup_obs p (emit (EvLoad (ValuesFile p) (Err e)) w1))
      as (-> & -> & -> & -> & _).
    repeat split.
  - intros b e Hinline Hmerge Hload Hparse.
    assert (Hstep : valuesStep X h p p w1 =
              (Returns ("", Some (Wrap "could not parse values file into rnode" e)),
               p, emit (EvLoad (ValuesFile p) (Ok b)) w1)).
    { unfold valuesStep. apply inline_present in Hinline. rewrite Hinline.
      unfold createNewMergedValuesFile. mred. fold (mergesWithBase p).
      rewrite Hmerge. unfold replaceValuesInline, load. mred.
      rewrite Hload, Hparse. reflexivity. }
    rewrite (@Generate_values_failed p w w1 _ _ _ _ Hloc Hstep). eexists. split; [reflexivity|].
    destruct (cleanup_obs p (emit (EvLoad (ValuesFile p) (Ok b)) w1))
      as (-> & _ & -> & -> & _).
    repeat split.
Qed.

(** X13: after a gate that passes, a chart directory at the probed path
    means that no pull is run, whatever the repo.  With no directory
    there and a repo, helm is run once more, on the arguments of
    [pullCommand]: [pull --untar --untardir] and the absolute chart home,
    then the chart (for an OCI repo the repo, without one trailing slash,
    a slash and the name; else [--repo], the repo and the name), then
    [--version] and the version when there is one.  When that run fails,
    [Generate] returns its error and has read, written and made
    nothing; when it succeeds, [Generate] goes on without looking at the
    disk again. *)
Theorem missing_chart_is_pulled p w gc :
  GeneralConfig h = Some gc ->
  checkHelmVersion X h p w = (Returns None, p, afterRun X gc versionArgs p w) ->
  let w1 := afterRun X gc versionArgs p w in
  (disk w1 (probedPath h p) = Some Directory ->
   Generate_locate X h p w = (Returns None, p, w1)) /\
  (disk w1 (probedPath h p) <> Some Directory -> Repo p <> "" ->
   exists out err,
     runHelmCommand X h (pullCommand h p) p w1 =
       (Returns (out, err), p, afterRun X gc (pullCommand h p) p w1) /\
     Generate_locate X h p w =
       (Returns err, p, afterRun X gc (pullCommand h p) p w1) /\
     pullCommand h p =
       (["pull"; "--untar"; "--untardir"; absChartHome h p]
        ++ (if strings.HasPrefix (Repo p) "oci://"
            then [(strings.TrimSuffix (Repo p) "/" ++ "/" ++ Name p)%string]
            else ["--repo"; Repo p; Name p])
        ++ (if (Version p =? "")%string then [] else ["--version"; Version p]))%list /\
     forall e, err = Some e ->
       exists w',
         Generate X h p w = (Returns (None, Some e), p, w') /\
         loadsOf (trace w') = loadsOf (trace w) /\
         writesOf (trace w') = writesOf (trace w) /\
         mkdirsOf (trace w') = mkdirsOf (trace w)).
Proof.
  intros Hgc Hpass w1.
  destruct (Generate_locate_cases p w Hgc) as (gate & Hgate & Hloc).
  rewrite Hpass in Hgate. injection Hgate as <-. fold w1 in Hloc.
  split.
  - intros Hdir. rewrite Hloc, Hdir. reflexivity.
  - intros Hmissing Hrepo.
    destruct (@runHelmCommand_returns X h (pullCommand h p) p w1 gc Hgc)
      as (out & err & Hpull).
    exists out, err. split; [exact Hpull|].
    assert (Hloc' : Generate_locate X h p w =
                    (Returns err, p, afterRun X gc (pullCommand h p) p w1)).
    { rewrite Hloc. apply String.eqb_neq in Hrepo.
      destruct (disk w1 (probedPath h p)) as [[|c]|];
        [now contradiction Hmissing| |]; rewrite Hrepo, Hpull; reflexivity. }
    split; [exact Hloc'|]. split.
    + unfold pullCommand. apply String.eqb_neq in Hrepo. rewrite Hrepo.
      destruct (strings.HasPrefix (Repo p) "oci://");
        destruct (Version p =? "")%string; reflexivity.
    + intros e ->. rewrite Generate_unfold, Generate_render_phases, Hloc'.
      eexists. split; [reflexivity|].
      destruct (cleanup_obs p (afterRun X gc (pullCommand h p) p w1))
        as (_ & -> & -> & -> & _).
      repeat split.
Qed.

(** X14: when helm changes nothing on the disk, [Generate] changes
    nothing outside its temporary directory, the path of the values file
    apart: every other path holds afterwards what it held before. *)
Theorem Generate_leaves_rest_of_disk p w r p' w' :
  quietHelm X ->
  Generate X h p w = (r, p', w') ->
  forall q,
    ~ (tmpDir p' <> "" /\ os.within (tmpDir p') q = true) ->
    q <> valuesPathOf p' ->
    disk w' q = disk w q.
Proof.
  intros Hquiet H q Hout Hq. rewrite Generate_unfold in H.
  destruct (Generate_render X h p w) as [[r1 p1] w1] eqn:E.
  injection H as _ <- <-.
  destruct (cleanup_obs p1 w1) as (_ & _ & _ & _ & Hrest & _).
  rewrite (Hrest q Hout).
  destruct (GeneralConfig h) as [gc|] eqn:Hgc.
  - destruct (@Generate_render_obs p w gc r1 p1 w1 Hgc E) as (_ & _ & Hframe & _).
    apply (Hframe Hquiet); [|assumption].
    intros ->. destruct (String.eqb_spec (tmpDir p1) "") as [Et|Et]; [assumption|].
    destruct Hout. split; [assumption|apply within_refl].
  - rewrite (Generate_render_nil p w Hgc) in E. now injection E as _ _ <-.
Qed.

Lemma createNewMergedValuesFile_merged p w path p2 w2 :
  mergesWithBase p = true ->
  createNewMergedValuesFile X h p w = (Returns (path, None), p2, w2) ->
  exists p1 w1,
    replaceValuesInline X h p w = (Returns None, p1, w1) /\
    ValuesInline p2 = ValuesInline p1.
Proof.
  intros Hm H. unfold createNewMergedValuesFile in H. mred.
  fold (mergesWithBase p) in H. rewrite Hm in H.
  destruct (replaceValuesInline X h p w) as [[r1 p1] w1] eqn:E1.
  pose proof (@replaceValuesInline_evolves X h p w _ _ _ E1) as (_ & _ & _ & _ & _ & err & ->).
  destruct err as [e|]; mred; [discriminate|].
  destruct (yamlMarshal X (ValuesInline p1)) as [b|e]; [|discriminate].
  apply writeValuesBytes_evolves in H. destruct H as ((_ & Hvi) & _).
  exists p1, w1. split; [reflexivity|assumption].
Qed.

(** X15: with inline values, the render runs on a disk whose values file
    holds what [yaml.Marshal] prints for the inline values that the plugin
    holds afterwards.  Under the policy replace those are the inline
    values it held; under merge and override they are the ones that
    [replaceValuesInline] left, after the gate and the chart. *)
Theorem merged_values_reach_the_render p w stdout p' w' :
  Generate_render X h p w = (Returns (Ok stdout), p', w') ->
  ValuesInline p <> [] ->
  exists gc fs stderr b,
    GeneralConfig h = Some gc /\
    execRun X (helmOf gc) (AsHelmArgs X p' (absChartHome h p)) (helmEnv p) fs
      = ((stdout, stderr, None), disk w') /\
    fs (ValuesFile p') = Some (File b) /\
    yamlMarshal X (ValuesInline p') = Ok b /\
    (mergesWithBase p = false -> ValuesInline p' = ValuesInline p) /\
    (mergesWithBase p = true ->
     exists w0 p1 w1,
       Generate_locate X h p w = (Returns None, p, w0) /\
       replaceValuesInline X h p w0 = (Returns None, p1, w1) /\
       ValuesInline p' = ValuesInline p1).
Proof.
  intros H Hinline. rewrite Generate_render_phases in H.
  destruct (Generate_locate X h p w) as [[r0 p0] w0] eqn:E0.
  pose proof (@Generate_locate_same X h p w _ _ _ E0) as ->.
  destruct r0 as [[e|]|why]; try discriminate.
  apply inline_present in Hinline. rewrite Hinline in H.
  destruct (createNewMergedValuesFile X h p w0) as [[r2 p2] w2] eqn:E2.
  pose proof (@createNewMergedValuesFile_evolves X h p w0 _ _ _ E2)
    as (_ & new & Hev & path & err & -> & Hres & Hreplace).
  destruct err as [e|]; [discriminate|].
  destruct Hres as (b & Hprint & _ & Hfile).
  set (vp := setValuesFile path p2) in *.
  destruct (runHelmCommand X h (AsHelmArgs X vp (absChartHome h vp)) vp w2)
    as [[r3 p3] w3] eqn:E3.
  pose proof (@runHelmCommand_evolves X h _ vp w2 _ _ _ E3) as (-> & _).
  destruct r3 as [[out [e|]]|why]; try discriminate.
  injection H as -> <- <-.
  apply runHelmCommand_ok in E3. destruct E3 as (gc & stderr & Hgc & Hrun).
  assert (Hev' : evolves p w0 vp w2 new) by now apply evolves_setValuesFile.
  rewrite (absChartHome_evolves h Hev') in Hrun.
  assert (Henv : helmEnv vp = helmEnv p).
  { unfold helmEnv. now rewrite (ev_ConfigHome Hev'). }
  rewrite Henv in Hrun.
  exists gc, (disk w2), stderr, b. split; [assumption|]. split; [exact Hrun|].
  split; [exact Hfile|]. split; [exact Hprint|]. split.
  - intros Hm. now destruct (Hreplace Hm) as ((_ & Hvi) & _).
  - intros Hm. destruct (@createNewMergedValuesFile_merged p w0 path p2 w2 Hm E2)
      as (p1 & w1 & Hrep & Hvi).
    exists w0, p1, w1. repeat split; assumption.
Qed.

End GenerateSteps.

(** ** The further properties on the concrete machine *)

(** A chart without a name, and the chart [nginx] with nothing else
    given, on the concrete machine. *)
Lemma validation_fills_defaults_witness :
  validateArgs Scenario.machine0 Scenario.h0 zeroPlugin Scenario.world0 =
    (Returns (Some (Errorf "chart name cannot be empty")), zeroPlugin,
     Scenario.world0) /\
  exists p' w',
    validateArgs Scenario.machine0 Scenario.h0 Scenario.named Scenario.world0
      = (Returns None, p', w') /\
    ChartHome p' = "charts" /\
    ValuesFile p' = "/work/charts/nginx/values.yaml" /\
    ValuesMerge p' = "override" /\
    ConfigHome p' = "/tmp/kustomize-helm-2718281828/helm" /\
    tmpDir p' <> "".
Proof.
  split.
  - apply (@validation_fills_defaults Scenario.machine0 Scenario.h0 zeroPlugin
             Scenario.world0).
    reflexivity.
  - destruct (@validation_fills_defaults Scenario.machine0 Scenario.h0
                Scenario.named Scenario.world0) as (_ & H).
    destruct (validateArgs Scenario.machine0 Scenario.h0 Scenario.named
                Scenario.world0) as [[r p'] w'] eqn:E.
    vm_compute in E. injection E as <- <- <-.
    specialize (H _ _ eq_refl).
    destruct H as (_ & Hhome & _ & Hfile & _ & Hmerge & _ & Hconfig & _).
    do 2 eexists. split; [reflexivity|].
    split; [exact (Hhome eq_refl)|].
    split; [exact (Hfile eq_refl)|].
    split; [exact (Hmerge eq_refl)|].
    destruct (Hconfig eq_refl) as (Hc & Ht).
    split; [exact Hc|exact Ht].
Defined.

(** The chart [nginx] with one additional values file that is on the disk
    and one that is not. *)
Lemma additional_values_files_rooted_witness :
  (exists p' w',
     validateArgs Scenario.machine0 Scenario.h0
       (Scenario.withFiles ["nested.yaml"]) Scenario.world0
       = (Returns None, p', w') /\
     AdditionalValuesFiles p' = ["/work/nested.yaml"]) /\
  (exists cause p' w',
     validateArgs Scenario.machine0 Scenario.h0
       (Scenario.withFiles ["nested.yaml"; "missing.yaml"; "nested.yaml"])
       Scenario.world0
       = (Returns (Some (Wrap "could not load additionalValuesFile" cause)),
          p', w') /\
     AdditionalValuesFiles p'
       = ["/work/nested.yaml"; "missing.yaml"; "nested.yaml"] /\
     tmpDir p' = "").
Proof.
  split.
  - destruct (@additional_values_files_rooted Scenario.machine0 Scenario.h0
                (Scenario.withFiles ["nested.yaml"]) Scenario.world0)
      as (H & _); [discriminate|].
    destruct (validateArgs Scenario.machine0 Scenario.h0
                (Scenario.withFiles ["nested.yaml"]) Scenario.world0)
      as [[r p'] w'] eqn:E.
    vm_compute in E. injection E as <- <- <-.
    destruct (H _ _ eq_refl) as (Hfiles & _).
    do 2 eexists. split; [reflexivity|exact Hfiles].
  - destruct (@additional_values_files_rooted Scenario.machine0 Scenario.h0
                (Scenario.withFiles ["nested.yaml"; "missing.yaml"; "nested.yaml"])
                Scenario.world0)
      as (_ & H); [discriminate|].
    destruct (H ["nested.yaml"] "missing.yaml" ["nested.yaml"]
                (Errorf "open /work/missing.yaml: no such file or directory")
                eq_refl)
      as (p' & w' & E & Hfiles & _ & _ & Htmp & _).
    + constructor; [|constructor]. eexists. vm_compute. reflexivity.
    + vm_compute. reflexivity.
    + eexists. exists p', w'. split; [exact E|]. split; [exact Hfiles|exact Htmp].
Defined.

(** The validation of the chart [nginx] with nothing else given makes the
    temporary directory; with the config home given it makes none. *)
Lemma validation_touches_only_tmp_dir_witness :
  (exists r p' w',
     validateArgs Scenario.machine0 Scenario.h0 Scenario.named Scenario.world0
       = (r, p', w') /\
     disk w' = os.put "/tmp/kustomize-helm-2718281828" Directory Scenario.disk0 /\
     writesOf (trace w') = [] /\ execsOf (trace w') = []) /\
  (exists r p' w',
     validateArgs Scenario.machine0 Scenario.h0
       (setConfigHome "/home/helm" Scenario.named) Scenario.world0
       = (r, p', w') /\
     disk w' = Scenario.disk0 /\ mkdirsOf (trace w') = []).
Proof.
  split.
  - destruct (validateArgs Scenario.machine0 Scenario.h0 Scenario.named
                Scenario.world0) as [[r p'] w'] eqn:E.
    pose proof (@validation_touches_only_tmp_dir Scenario.machine0 Scenario.h0
                  Scenario.named Scenario.world0 r p' w' E) as (Hx & Hw & Hd).
    exists r, p', w'. split; [reflexivity|].
    destruct Hd as [(Hd & Hm)|(_ & _ & _ & Hd & _)].
    + vm_compute in E. injection E as <- <- <-. discriminate Hm.
    + split; [exact Hd|]. split; [exact Hw|exact Hx].
  - destruct (validateArgs Scenario.machine0 Scenario.h0
                (setConfigHome "/home/helm" Scenario.named) Scenario.world0)
      as [[r p'] w'] eqn:E.
    pose proof (@validation_touches_only_tmp_dir Scenario.machine0 Scenario.h0
                  _ Scenario.world0 r p' w' E) as (_ & _ & Hd).
    exists r, p', w'. split; [reflexivity|].
    destruct Hd as [(Hd & Hm)|(Hc & _)]; [|discriminate Hc].
    split; [exact Hd|exact Hm].
Defined.

(** [Config] for the document of the chart [nginx], with helm enabled and
    with helm disabled. *)
Lemma Config_needs_helm_enabled_witness :
  (exists p' w',
     Config Scenario.machine0 Scenario.h0 Scenario.nginxDocument zeroPlugin
       Scenario.world0 = (Returns None, p', w') /\
     Name p' = "nginx" /\ ValuesFile p' <> "" /\ execsOf (trace w') = []) /\
  (exists e,
     Config Scenario.machine0 (Scenario.helpers Scenario.disabled Scenario.resources)
       Scenario.nginxDocument zeroPlugin Scenario.world0
     = (Returns (Some e), zeroPlugin, Scenario.world0)).
Proof.
  split.
  - destruct (@Config_needs_helm_enabled Scenario.machine0 Scenario.h0
                Scenario.nginxDocument zeroPlugin Scenario.world0) as (H & _).
    destruct (Config Scenario.machine0 Scenario.h0 Scenario.nginxDocument zeroPlugin
                Scenario.world0) as [[r p'] w'] eqn:E.
    vm_compute in E. injection E as <- <- <-.
    destruct (H _ _ eq_refl)
      as (gc & y & _ & _ & _ & Hy & Hname & _ & _ & _ & _ & Hfile & _ & _ & Hx & _).
    do 2 eexists. split; [reflexivity|].
    split; [reflexivity|]. split; [exact Hfile|exact Hx].
  - apply (@Config_needs_helm_enabled Scenario.machine0
             (Scenario.helpers Scenario.disabled Scenario.resources)
             Scenario.nginxDocument zeroPlugin Scenario.world0).
    intros gc Hgc. injection Hgc as <-. left. reflexivity.
Defined.



(** [Generate] for the chart [nginx] on the concrete machine runs helm
    twice: for the version and for the render. *)
Lemma Generate_runs_helm_only_witness :
  exists r p' w',
    Generate Scenario.machine0 Scenario.h0 Scenario.nginx Scenario.world1
      = (r, p', w') /\
    exists runs,
      execsOf (trace w') = runs /\
      Forall (fun run => fst (fst run) = "helm" /\
                         snd run = helmEnv Scenario.nginx) runs /\
      rev (map argsOf runs) =
        [versionArgs;
         ["template"; "--generate-name"; "/work/charts/nginx"; "-f";
          Scenario.valuesPath]].
Proof.
  destruct (Generate Scenario.machine0 Scenario.h0 Scenario.nginx Scenario.world1)
    as [[r p'] w'] eqn:E.
  destruct (@Generate_runs_helm_only Scenario.machine0 Scenario.h0 Scenario.nginx
              Scenario.world1 _ r p' w' eq_refl E) as (runs & Hx & Hall & _).
  exists r, p', w'. split; [reflexivity|]. exists runs.
  vm_compute in E. injection E as <- <- <-.
  cbn [trace Scenario.world1 execsOf flat_map app] in Hx. rewrite app_nil_r in Hx.
  split; [exact Hx|]. split; [exact Hall|]. rewrite <- Hx. reflexivity.
Defined.


(** [Generate] with and without a general config. *)
Lemma Generate_result_or_error_witness :
  (exists rm err p' w',
     Generate Scenario.machine0 Scenario.h0 Scenario.redis Scenario.world1
       = (Returns (rm, err), p', w') /\
     (rm = None <-> err <> None)) /\
  (exists w',
     Generate Scenario.machine0
       {| GeneralConfig := None; getLoader := Scenario.diskLoader "/work";
          getResmapFactory := Scenario.factory [] |}
       Scenario.nginx Scenario.world1
     = (Panics "invalid memory address or nil pointer dereference",
        Scenario.nginx, w')).
Proof.
  split.
  - destruct (@Generate_result_or_error Scenario.machine0 Scenario.h0
                Scenario.redis Scenario.world1) as (H & _).
    destruct (H _ eq_refl) as (rm & err & p' & w' & E & Hiff & _).
    exists rm, err, p', w'. split; [exact E|exact Hiff].
  - apply (@Generate_result_or_error Scenario.machine0 _ Scenario.nginx
             Scenario.world1).
    reflexivity.
Defined.

(** The resources of the chart [nginx] on the concrete machine. *)
Lemma resources_come_from_helm3_witness :
  exists p' w',
    Generate Scenario.machine0 Scenario.h0 Scenario.nginx Scenario.world1
      = (Returns (Some [Scenario.configMap], None), p', w') /\
    exists vout,
      regexp.FindString vout = "v3.14.0" /\
      majorVersion (regexp.FindString vout) = "3" /\
      ValuesFile p' = Scenario.valuesPath.
Proof.
  destruct (Generate Scenario.machine0 Scenario.h0 Scenario.nginx Scenario.world1)
    as [[r p'] w'] eqn:E.
  vm_compute in E. injection E as <- <- <-.
  destruct (@resources_come_from_helm3 Scenario.machine0 Scenario.h0 Scenario.nginx
              Scenario.world1 _ _ _ _ eq_refl)
    as (_ & gc & vout & verr & stdout & w1 & Hgc & Hrun & _ & Hmajor & _ & _ & Hfile & _).
  injection Hgc as <-. vm_compute in Hrun. injection Hrun as <- <-.
  do 2 eexists. split; [reflexivity|].
  exists "v3.14.0+g3fc9f4b". split; [reflexivity|]. split; [exact Hmajor|exact Hfile].
Defined.

(** The values file of the chart [nginx] on the concrete machine. *)
Lemma values_file_is_temporary_witness :
  exists r p' w',
    Generate Scenario.machine0 Scenario.h0 Scenario.nginx Scenario.world1
      = (r, p', w') /\
    writesOf (trace w') = [(Scenario.valuesPath, Scenario.valuesText)] /\
    mkdirsOf (trace w') = mkdirsOf (trace Scenario.world1) /\
    os.within (tmpDir p') Scenario.valuesPath = true /\
    disk w' Scenario.valuesPath = None.
Proof.
  destruct (Generate Scenario.machine0 Scenario.h0 Scenario.nginx Scenario.world1)
    as [[r p'] w'] eqn:E.
  destruct (@values_file_is_temporary Scenario.machine0 Scenario.h0 Scenario.nginx
              Scenario.world1 _ r p' w' eq_refl E)
    as (_ & _ & Hkept & Hpath).
  exists r, p', w'. split; [reflexivity|].
  vm_compute in E. injection E as <- <- <-.
  split; [reflexivity|].
  destruct Hkept as (_ & Hm); [discriminate|]. split; [exact Hm|].
  destruct Hpath as (_ & Hin & Hgone);
    [reflexivity|reflexivity|discriminate|reflexivity|].
  split; [exact Hin|exact Hgone].
Defined.

(** A values file that is not on the disk, and one that the parser does
    not read. *)
Lemma unreadable_values_file_is_fatal_witness :
  (exists e w',
     Generate Scenario.machine0 Scenario.h0
       (setValuesFile "/work/none.yaml" Scenario.nginx) Scenario.world1
     = (Returns (None, Some e), setValuesFile "" Scenario.nginx, w') /\
     writesOf (trace w') = []) /\
  (exists e w',
     Generate Scenario.unparsing Scenario.h0 (Scenario.nested "merge")
       Scenario.world1
     = (Returns (None, Some (Wrap "could not parse values file into rnode" e)),
        setValuesFile "" (Scenario.nested "merge"), w') /\
     writesOf (trace w') = []).
Proof.
  split.
  - destruct (@unreadable_values_file_is_fatal Scenario.machine0 Scenario.h0
                (setValuesFile "/work/none.yaml" Scenario.nginx) Scenario.world1
                (Scenario.afterVersion (setValuesFile "/work/none.yaml" Scenario.nginx))
                eq_refl) as (H & _).
    destruct (H (Errorf "open /work/none.yaml: no such file or directory")
                (or_introl eq_refl) eq_refl) as (w' & E & _ & Hw & _).
    do 2 eexists. split; [exact E|exact Hw].
  - destruct (@unreadable_values_file_is_fatal Scenario.unparsing Scenario.h0
                (Scenario.nested "merge") Scenario.world1
                (Scenario.afterVersion (Scenario.nested "merge"))
                eq_refl) as (_ & H).
    destruct (H Scenario.nestedText
                (Errorf ("cannot read " ++ Scenario.nestedText)))
      as (w' & E & _ & Hw & _);
      [discriminate|reflexivity|reflexivity|reflexivity|].
    do 2 eexists. split; [exact E|exact Hw].
Defined.

(** The chart [nginx] of a repository: on the disk without a version, to
    be pulled at the version 1.0. *)
Lemma missing_chart_is_pulled_witness :
  Generate_locate Scenario.machine0 Scenario.h0
    (Scenario.fromRepo "https://charts.io" "") Scenario.world1
  = (Returns None, Scenario.fromRepo "https://charts.io" "",
     Scenario.afterVersion (Scenario.fromRepo "https://charts.io" "")) /\
  exists e w',
    pullCommand Scenario.h0 (Scenario.fromRepo "https://charts.io" "1.0")
      = ["pull"; "--untar"; "--untardir"; "/work/charts/nginx-1.0";
         "--repo"; "https://charts.io"; "nginx"; "--version"; "1.0"] /\
    Generate Scenario.machine0 Scenario.h0
      (Scenario.fromRepo "https://charts.io" "1.0") Scenario.world1
    = (Returns (None, Some e), Scenario.fromRepo "https://charts.io" "1.0", w') /\
    writesOf (trace w') = [].
Proof.
  split.
  - apply (@missing_chart_is_pulled Scenario.machine0 Scenario.h0
             (Scenario.fromRepo "https://charts.io" "") Scenario.world1 _
             eq_refl eq_refl).
    reflexivity.
  - destruct (@missing_chart_is_pulled Scenario.machine0 Scenario.h0
                (Scenario.fromRepo "https://charts.io" "1.0") Scenario.world1 _
                eq_refl eq_refl) as (_ & H).
    destruct H as (out & err & Hpull & _ & Hargs & Hfail);
      [discriminate|discriminate|].
    vm_compute in Hpull. injection Hpull as <- <-.
    destruct (Hfail _ eq_refl) as (w' & E & _ & Hw & _).
    do 2 eexists. split; [exact Hargs|]. split; [exact E|exact Hw].
Defined.

(** The helm of the concrete machine changes nothing on the disk. *)
Lemma quiet_machine0 : quietHelm Scenario.machine0.
Proof.
  intros command args env fs. cbn [Scenario.machine0 Scenario.machine execRun].
  unfold Scenario.helm. repeat break_match; reflexivity.
Defined.

(** [Generate] for the chart [nginx] on the concrete machine leaves the
    chart on the disk. *)
Lemma Generate_leaves_rest_of_disk_witness :
  exists r p' w',
    Generate Scenario.machine0 Scenario.h0 Scenario.nginx Scenario.world1
      = (r, p', w') /\
    disk w' "/work/charts/nginx/values.yaml" = Some (File Scenario.valuesText) /\
    disk w' "/work/charts/nginx" = Some Directory.
Proof.
  destruct (Generate Scenario.machine0 Scenario.h0 Scenario.nginx Scenario.world1)
    as [[r p'] w'] eqn:E.
  pose proof (@Generate_leaves_rest_of_disk Scenario.machine0 Scenario.h0
                Scenario.nginx Scenario.world1 r p' w' quiet_machine0 E) as H.
  exists r, p', w'. split; [reflexivity|].
  vm_compute in E. injection E as <- <- <-.
  split; apply H; solve [intros (_ & Hin); discriminate Hin | discriminate].
Defined.

(** The inline values of the chart [nginx] under the policy replace, in
    the values file of the render. *)
Lemma merged_values_reach_the_render_witness :
  exists stdout p' w' fs,
    Generate_render Scenario.machine0 Scenario.h0 Scenario.replacing
      Scenario.world1 = (Returns (Ok stdout), p', w') /\
    fs (ValuesFile p') = Some (File ("replicas: 3" ++ newline)) /\
    ValuesInline p' = [("replicas", Scalar "3")].
Proof.
  destruct (Generate_render Scenario.machine0 Scenario.h0 Scenario.replacing
              Scenario.world1) as [[r p'] w'] eqn:E.
  vm_compute in E. injection E as <- <- <-.
  destruct (@merged_values_reach_the_render Scenario.machine0 Scenario.h0
              Scenario.replacing Scenario.world1 _ _ _ eq_refl)
    as (gc & fs & stderr & b & _ & _ & Hfile & Hprint & Hsame & _);
    [discriminate|].
  vm_compute in Hprint. injection Hprint as <-.
  do 3 eexists. exists fs. split; [reflexivity|]. split; [exact Hfile|].
  exact (Hsame eq_refl).
Defined.
